(** * esp-mcp: process runners, flash retry, serial-port listing and the tool layer

    A shallow embedding of [src/esp_utils.py] and [src/main.py].

    Python [str] and [bytes] values are Rocq strings, [int] is [Z], a
    finite [float] is an exact rational, [None]-able values are options.
    Code that touches the operating system runs in a state-and-exception
    monad over a [World]
    (environment variables, working directory, file system, clock, the
    subprocesses the shell answers with, the serial-port library).

    What the model leaves to its reader:
    - an exception is an instance of a subclass of [Exception], which is
      what the calls modelled here raise when they fail;
    - the text functions ([lower], [isspace], [rstrip]) are the ASCII ones;
    - paths are taken as they are written: no symbolic links, no [..];
    - a subprocess is seen through its pipes, exit status and duration; what
      it does to the file system is not part of the world;
    - calls to [logging] only feed the logging subsystem, which is not part
      of the world either: they are left out, a comment marks their place. *)

From Stdlib Require Import ZArith QArith Qabs Qround Ascii String List Bool Lia.
From Stdlib Require Import Permutation Sorted.
From stdpp Require Import base option gmap sets strings.

Import ListNotations.
Local Open Scope Z_scope.

(** ** Text *)

Abbreviation str := string (only parsing).
Abbreviation bytes := string (only parsing).

Definition LF : ascii := "010"%char.
Definition nl : str := String LF "".
Definition tab : str := String "009"%char "".
Definition dquote : str := String "034"%char "".
Definition squote : str := "'".
Definition backslash : str := String "092"%char "".

(** [sep.join(parts)] *)
Fixpoint join (sep : str) (parts : list str) : str :=
  match parts with
  | [] => ""
  | [p] => p
  | p :: rest => p +:+ sep +:+ join sep rest
  end.

(** [needle in hay] on strings. *)
Fixpoint contains (needle hay : str) : bool :=
  String.prefix needle hay ||
  match hay with
  | "" => false
  | String _ rest => contains needle rest
  end.

Definition ascii_lower (c : ascii) : ascii :=
  let n := N_of_ascii c in
  if ((65 <=? n) && (n <=? 90))%N then ascii_of_N (n + 32) else c.

(** [s.lower()]; exact on ASCII text, which device paths are. *)
Fixpoint lower (s : str) : str :=
  match s with
  | "" => ""
  | String c rest => String (ascii_lower c) (lower rest)
  end.

(** [c.isspace()] for an ASCII character. *)
Definition isspace (c : ascii) : bool :=
  let n := N_of_ascii c in
  (((9 <=? n) && (n <=? 13)) || ((28 <=? n) && (n <=? 32)))%N.

Fixpoint all_space (s : str) : bool :=
  match s with
  | "" => true
  | String c rest => isspace c && all_space rest
  end.

(** [s.rstrip()] *)
Fixpoint rstrip (s : str) : str :=
  match s with
  | "" => ""
  | String c rest => if all_space s then "" else String c (rstrip rest)
  end.

(** Truth value of [s.strip()]: some character is not white space. *)
Definition strip_nonempty (s : str) : bool := negb (all_space s).

(** Truth value of a string, and of an optional string ([None] is false). *)
Definition truthy (s : str) : bool := negb (String.eqb s "").
Definition truthy_opt (o : option str) : bool :=
  match o with Some s => truthy s | None => false end.

(** The lines of a text file: the pieces that line feeds end; a last piece
    without a line feed counts as a line too. *)
Fixpoint lines_of (s : str) : list str :=
  match s with
  | "" => []
  | String c rest =>
      if Ascii.eqb c LF then "" :: lines_of rest
      else match lines_of rest with
           | [] => [String c ""]
           | l :: ls => String c l :: ls
           end
  end.

(** One line of text as [readline] delivers it: a line feed at the end and
    nowhere else. *)
Fixpoint is_line (s : str) : bool :=
  match s with
  | "" => false
  | String c rest => if Ascii.eqb c LF then String.eqb rest "" else is_line rest
  end.

(** [s[:-1]] *)
Fixpoint chop (s : str) : str :=
  match s with
  | "" => ""
  | String c "" => ""
  | String c rest => String c (chop rest)
  end.

Definition count_prefixed (p : str) (content : str) : nat :=
  length (List.filter (String.prefix p) (lines_of content)).

(** ** Numbers as text *)

Definition digit_char (d : N) : ascii :=
  ascii_of_N (if (d <? 10)%N then 48 + d else 87 + d).

Fixpoint digits_aux (base : N) (fuel : nat) (n : N) (acc : str) : str :=
  match fuel with
  | O => acc
  | S fuel' =>
      let acc' := String (digit_char (n mod base)) acc in
      if (n / base =? 0)%N then acc' else digits_aux base fuel' (n / base) acc'
  end.

(** Shortest representation of [n] in the given base (2..16), lowercase. *)
Definition digits (base : N) (n : N) : str :=
  digits_aux base (S (N.to_nat (N.log2 n))) n "".

Fixpoint zeros (k : nat) : str :=
  match k with O => "" | S k' => String "0" (zeros k') end.

Definition zfill (width : nat) (s : str) : str :=
  zeros (width - String.length s) +:+ s.

(** [str(z)] / [f"{z}"] for an integer. *)
Definition str_of_int (z : Z) : str :=
  if z <? 0 then "-" +:+ digits 10 (Z.to_N (- z)) else digits 10 (Z.to_N z).

(** [f"{z:04x}"]: sign-aware zero padding to width four. *)
Definition format_04x (z : Z) : str :=
  if z <? 0 then "-" +:+ zfill 3 (digits 16 (Z.to_N (- z)))
  else zfill 4 (digits 16 (Z.to_N z)).

(** [f"{z:02d}"]-style padding used by [strftime] fields. *)
Definition pad_dec (width : nat) (n : N) : str := zfill width (digits 10 n).

(** Round a non-negative rational to the nearest integer, ties to even. *)
Definition round_half_even (q : Q) : N :=
  let num := Z.to_N (Qnum q) in
  let den := Npos (Qden q) in
  let k := (num / den)%N in
  let r := (num mod den)%N in
  match (2 * r ?= den)%N with
  | Lt => k
  | Gt => (k + 1)%N
  | Eq => if N.even k then k else (k + 1)%N
  end.

(** [f"{q:.2f}"] *)
Definition format_2f (q : Q) : str :=
  let neg := Qnum q <? 0 in
  let hundredths := round_half_even (Qabs q * 100) in
  (if neg then "-" else "") +:+
  digits 10 (hundredths / 100) +:+ "." +:+ pad_dec 2 (hundredths mod 100).

(** [q // 60] as an integer, and [q % 60]. *)
Definition floor_div60 (q : Q) : Z := Qfloor (q / 60).
Definition mod60 (q : Q) : Q := (q - 60 * inject_Z (floor_div60 q))%Q.

(** ** Paths ([os.path], POSIX flavour) *)

Definition is_slash (c : ascii) : bool := Ascii.eqb c "/".

Fixpoint drop_while (f : ascii -> bool) (s : str) : str :=
  match s with
  | "" => ""
  | String c rest => if f c then drop_while f rest else s
  end.

Definition ends_with_slash (s : str) : bool :=
  match String.rev s with String c _ => is_slash c | "" => false end.

Definition is_abs (p : str) : bool :=
  match p with String c _ => is_slash c | "" => false end.

(** [os.path.join(a, b)] *)
Definition os_path_join (a b : str) : str :=
  if is_abs b then b
  else if String.eqb a "" || ends_with_slash a then a +:+ b
  else a +:+ "/" +:+ b.

(** [os.path.dirname(p)] *)
Definition dirname (p : str) : str :=
  let head_rev := drop_while (fun c => negb (is_slash c)) (String.rev p) in
  let stripped := drop_while is_slash head_rev in
  if String.eqb stripped "" then String.rev head_rev else String.rev stripped.

(** The directories [os.makedirs(p)] leaves in existence: [p] and what is above it. *)
Fixpoint ancestors (fuel : nat) (p : str) : list str :=
  match fuel with
  | O => [p]
  | S fuel' =>
      let d := dirname p in
      if String.eqb d p || String.eqb d "" then [p] else p :: ancestors fuel' d
  end.

(** ** Exceptions and the Python runtime *)

Inductive exn_class :=
  ValueError | TypeError | OSError | ImportError | OverflowError | OtherException.

(** An instance of a subclass of [Exception]; [str(e)] is [exn_msg e]. *)
Record exn := Raised { exn_cls : exn_class; exn_msg : str }.

Definition is_ValueError (e : exn) : bool :=
  match exn_cls e with ValueError => true | _ => false end.
Definition is_TypeError_or_ValueError (e : exn) : bool :=
  match exn_cls e with ValueError | TypeError => true | _ => false end.

(** A [float] as [float(s)] returns it: a finite value, held exactly, an
    infinity or a NaN. *)
Inductive pyfloat := Finite (q : Q) | Infinity (negative : bool) | NaN.

(** Library functions of the interpreter that the repository calls and whose
    definition lies outside it: the codecs, the numeric parsers, [repr], and
    the sleep of the platform under [time.sleep]. *)
Class PyRuntime := {
  decode_strict : bytes -> exn + str;      (* b.decode() *)
  decode_replace : bytes -> str;           (* b.decode(errors="replace") *)
  py_int : str -> exn + Z;                 (* int(s) *)
  py_int_base0 : str -> exn + Z;           (* int(s, 0) *)
  py_float : str -> exn + pyfloat;         (* float(s) *)
  py_repr : str -> str;                    (* repr(s) *)
  sleep_refused : Q -> option exn          (* the OSError of the platform's sleep for a
                                              number of seconds it does not take *)
}.

(** ** The world *)

Record struct_time := {
  tm_year : N; tm_mon : N; tm_mday : N; tm_hour : N; tm_min : N; tm_sec : N
}.

(** What one read on a pipe finds: the bytes in the reader's buffer up to
    and including the first line feed (none at end of input), or an
    exception of the transport. *)
Inductive chunk := Data (b : bytes) | Fault (e : exn).

(** A launched subprocess, as the runner can observe it: what the
    successive reads find on each pipe (the end of the list is end of
    input), the order in which the next line becomes ready ([true]: on
    stdout), the exit status and the running time. *)
Record Process := {
  proc_stdout : list chunk;
  proc_stderr : list chunk;
  proc_arrival : list bool;
  proc_returncode : Z;
  proc_duration : Q
}.

(** A [ListPortInfo] of pyserial. *)
Record Port := {
  port_device : option str;
  port_vid : option Z;
  port_pid : option Z;
  port_description : option str
}.

(** [from serial.tools import list_ports] fails, or succeeds and then
    [list_ports.comports()] raises or returns the attached ports. *)
Inductive Pyserial :=
| NotImportable (e : exn)
| Importable (comports : exn + list Port).

Record World := {
  environ : gmap string string;
  cwd : str;
  dirs : gset string;                   (* existing directories, absolute *)
  files : gmap string string;           (* regular files and their contents *)
  denied : gset string;                 (* paths the OS refuses to open, create or enter *)
  clock : Q;                            (* time.time() *)
  localtime : Q -> struct_time;         (* time.localtime() *)
  shell : str -> nat -> exn + Process;  (* answer to the k-th launch, running the command *)
  launched : list str;                  (* commands handed to create_subprocess_shell *)
  slept : list Q;                       (* arguments of time.sleep *)
  pyserial : Pyserial
}.

Definition set_cwd (v : str) (w : World) : World :=
  {| environ := environ w; cwd := v; dirs := dirs w; files := files w;
     denied := denied w; clock := clock w; localtime := localtime w;
     shell := shell w; launched := launched w; slept := slept w;
     pyserial := pyserial w |}.
Definition set_dirs (v : gset string) (w : World) : World :=
  {| environ := environ w; cwd := cwd w; dirs := v; files := files w;
     denied := denied w; clock := clock w; localtime := localtime w;
     shell := shell w; launched := launched w; slept := slept w;
     pyserial := pyserial w |}.
Definition set_files (v : gmap string string) (w : World) : World :=
  {| environ := environ w; cwd := cwd w; dirs := dirs w; files := v;
     denied := denied w; clock := clock w; localtime := localtime w;
     shell := shell w; launched := launched w; slept := slept w;
     pyserial := pyserial w |}.
Definition set_clock (v : Q) (w : World) : World :=
  {| environ := environ w; cwd := cwd w; dirs := dirs w; files := files w;
     denied := denied w; clock := v; localtime := localtime w;
     shell := shell w; launched := launched w; slept := slept w;
     pyserial := pyserial w |}.
Definition set_launched (v : list str) (w : World) : World :=
  {| environ := environ w; cwd := cwd w; dirs := dirs w; files := files w;
     denied := denied w; clock := clock w; localtime := localtime w;
     shell := shell w; launched := v; slept := slept w;
     pyserial := pyserial w |}.
Definition set_slept (v : list Q) (w : World) : World :=
  {| environ := environ w; cwd := cwd w; dirs := dirs w; files := files w;
     denied := denied w; clock := clock w; localtime := localtime w;
     shell := shell w; launched := launched w; slept := v;
     pyserial := pyserial w |}.

(** ** The monad: a computation may change the world and may raise *)

Definition M (A : Type) : Type := World -> (exn + A) * World.

Definition ret {A} (a : A) : M A := fun w => (inr a, w).
Definition raise {A} (e : exn) : M A := fun w => (inl e, w).
Definition bind {A B} (m : M A) (k : A -> M B) : M B :=
  fun w => match m w with
           | (inr a, w') => k a w'
           | (inl e, w') => (inl e, w')
           end.
Definition lift {A} (r : exn + A) : M A :=
  match r with inl e => raise e | inr a => ret a end.

Notation "'let*' x ':=' m 'in' k" := (bind m (fun x => k))
  (at level 10, x pattern, m at level 100, k at level 200).

(** [try: body  except C as e: handler(e)], where [C] is told by [catches]. *)
Definition try_except {A} (catches : exn -> bool) (body : M A) (handler : exn -> M A) : M A :=
  fun w => match body w with
           | (inl e, w') => if catches e then handler e w' else (inl e, w')
           | (inr a, w') => (inr a, w')
           end.

(** [except Exception] catches every exception of the model. *)
Definition any_Exception (e : exn) : bool := true.

(** [try: body  finally: cleanup] *)
Definition try_finally {A} (body : M A) (cleanup : M unit) : M A :=
  fun w => match body w with
           | (r, w') =>
               match cleanup w' with
               | (inr _, w'') => (r, w'')
               | (inl e, w'') => (inl e, w'')
               end
           end.

(** The world after a computation, and what it returned or raised. *)
Definition outcome {A} (m : M A) (w : World) : exn + A := fst (m w).
Definition world_after {A} (m : M A) (w : World) : World := snd (m w).

(** ** Operating-system primitives *)

Definition abspath (w : World) (p : str) : str := os_path_join (cwd w) p.

(** [os.environ.get(k, default)] and [k in os.environ] *)
Definition environ_get (k default : str) : M str :=
  fun w => (inr (from_option id default (environ w !! k)), w).
Definition environ_has (k : str) : M bool :=
  fun w => (inr (bool_decide (is_Some (environ w !! k))), w).
Definition environ_item (k : str) : M str :=
  fun w => match environ w !! k with
           | Some v => (inr v, w)
           | None => (inl (Raised OtherException ("'" +:+ k +:+ "'")), w)
           end.

Definition os_getcwd : M str := fun w => (inr (cwd w), w).

(** An [OSError] with its [errno], [strerror] and [filename], as [str] shows it. *)
Definition os_error (errno : Z) (strerror filename : str) : exn :=
  Raised OSError
    ("[Errno " +:+ str_of_int errno +:+ "] " +:+ strerror +:+ ": '" +:+ filename +:+ "'").
Definition permission_denied : str -> exn := os_error 13 "Permission denied".
Definition no_such_file : str -> exn := os_error 2 "No such file or directory".

Definition can_enter (w : World) (p : str) : bool :=
  bool_decide (abspath w p ∈ dirs w) && negb (bool_decide (abspath w p ∈ denied w)).

(** [os.chdir(p)] *)
Definition os_chdir (p : str) : M unit :=
  fun w => if can_enter w p then (inr tt, set_cwd (abspath w p) w)
           else if bool_decide (abspath w p ∈ denied w) then (inl (permission_denied p), w)
           else (inl (no_such_file p), w).

Definition can_create_dir (w : World) (p : str) : bool :=
  negb (bool_decide (abspath w p ∈ denied w)) &&
  negb (bool_decide (is_Some (files w !! abspath w p))).

(** [os.makedirs(p, exist_ok=True)] *)
Definition os_makedirs (p : str) : M unit :=
  fun w => if can_create_dir w p
           then let r := abspath w p in
                (inr tt, set_dirs (list_to_set (ancestors (String.length r) r) ∪ dirs w) w)
           else if bool_decide (abspath w p ∈ denied w) then (inl (permission_denied p), w)
           else (inl (os_error 17 "File exists" p), w).

(** [os.path.exists(p)] *)
Definition os_path_exists (p : str) : M bool :=
  fun w => (inr (bool_decide (abspath w p ∈ dirs w) ||
                 bool_decide (is_Some (files w !! abspath w p))), w).

(** Whether [open(p, "a")] or [open(p, "w+")] succeeds. *)
Definition can_open_for_write (w : World) (p : str) : bool :=
  negb (bool_decide (abspath w p ∈ denied w)) &&
  negb (bool_decide (abspath w p ∈ dirs w)) &&
  bool_decide (dirname (abspath w p) ∈ dirs w).

(** What [open] raises when it does not succeed. *)
Definition open_error (w : World) (p : str) : exn :=
  if bool_decide (abspath w p ∈ denied w) then permission_denied p
  else if bool_decide (abspath w p ∈ dirs w) then os_error 21 "Is a directory" p
  else no_such_file p.

Definition file_content (w : World) (p : str) : str :=
  from_option id "" (files w !! abspath w p).

(** [with open(p, "a") as handle: handle.write(text); handle.flush()] *)
Definition append_to_file (p text : str) : M unit :=
  fun w => if can_open_for_write w p
           then (inr tt, set_files (<[abspath w p := file_content w p +:+ text]> (files w)) w)
           else (inl (open_error w p), w).

(** [with open(p, "w+") as handle: handle.write(text)] *)
Definition overwrite_file (p text : str) : M unit :=
  fun w => if can_open_for_write w p
           then (inr tt, set_files (<[abspath w p := text]> (files w)) w)
           else (inl (open_error w p), w).

Definition time_time : M Q := fun w => (inr (clock w), w).

(** [time.sleep(d)].  CPython first converts [d] to a number of nanoseconds,
    rounded away from zero, that has to fit the signed 64-bit [_PyTime_t],
    then refuses a negative length, and hands what is left to the sleep of
    the platform, which may refuse it in turn. *)
Definition PyTime_MIN : Z := - 2 ^ 63.
Definition PyTime_MAX : Z := 2 ^ 63 - 1.
Definition round_away (q : Q) : Z := if Qle_bool 0 q then Qceiling q else Qfloor q.
Definition nanoseconds (seconds : Q) : Z := round_away (seconds * 1000000000).
Definition PyTime_overflow : exn :=
  Raised OverflowError "timestamp too large to convert to C _PyTime_t".

Definition time_sleep {rt : PyRuntime} (d : pyfloat) : M unit :=
  fun w =>
    match d with
    | NaN => (inl (Raised ValueError "Invalid value NaN (not a number)"), w)
    | Infinity _ => (inl PyTime_overflow, w)
    | Finite q =>
        let ns := nanoseconds q in
        if (ns <? PyTime_MIN) || (PyTime_MAX <? ns) then (inl PyTime_overflow, w)
        else if ns <? 0
        then (inl (Raised ValueError "sleep length must be non-negative"), w)
        else match sleep_refused q with
             | Some e => (inl e, w)
             | None => (inr tt, set_clock (clock w + q)%Q (set_slept (slept w ++ [q]) w))
             end
    end.

(** [time.strftime('%Y%m%d-%H%M%S')] *)
Definition strftime_stamp (t : struct_time) : str :=
  pad_dec 4 (tm_year t) +:+ pad_dec 2 (tm_mon t) +:+ pad_dec 2 (tm_mday t) +:+ "-" +:+
  pad_dec 2 (tm_hour t) +:+ pad_dec 2 (tm_min t) +:+ pad_dec 2 (tm_sec t).
Definition time_strftime : M str :=
  fun w => (inr (strftime_stamp (localtime w (clock w))), w).

(** [asyncio.create_subprocess_shell(command, stdout=PIPE, stderr=PIPE)] *)
Definition create_subprocess_shell (command : str) : M Process :=
  fun w => let w' := set_launched (launched w ++ [command]) w in
           match shell w command (length (launched w)) with
           | inr p => (inr p, w')
           | inl e => (inl e, w')
           end.

(** The offset of the first line feed of [b], its length when it has none. *)
Fixpoint separator_offset (b : bytes) : nat :=
  match b with
  | "" => O
  | String c rest => if Ascii.eqb c LF then O else S (separator_offset rest)
  end.

(** The [limit] of the [StreamReader] of a pipe, [2 ** 16] since the runner
    passes none, and whether the line in the buffer is beyond it. *)
Definition readline_limit : N := 65536.
Definition overrun (b : bytes) : bool :=
  (readline_limit <? N.of_nat (separator_offset b))%N.

(** [stream.readline()]: the line in the buffer, or a [ValueError] when the
    line feed is further than [limit] bytes away or more than [limit] bytes
    are buffered without one. *)
Definition readline (stream : list chunk) : M (bytes * list chunk) :=
  match stream with
  | [] => ret ("", [])
  | Data b :: rest =>
      if overrun b then
        raise (Raised ValueError
                 (if contains nl b
                  then "Separator is found, but chunk is longer than limit"
                  else "Separator is not found, and chunk exceed the limit"))
      else ret (b, rest)
  | Fault e :: _ => raise e
  end.

(** Everything a pipe delivers up to end of input. *)
Fixpoint read_all (stream : list chunk) : exn + bytes :=
  match stream with
  | [] => inr ""
  | Fault e :: _ => inl e
  | Data b :: rest =>
      if String.eqb b "" then inr ""
      else match read_all rest with
           | inr tail => inr (b +:+ tail)
           | inl e => inl e
           end
  end.

(** [process.wait()]: the process has run for its duration. *)
Definition process_wait (p : Process) : M Z :=
  fun w => (inr (proc_returncode p), set_clock (clock w + proc_duration p)%Q w).

(** [process.communicate()] *)
Definition process_communicate (p : Process) : M (bytes * bytes) :=
  let* out := lift (read_all (proc_stdout p)) in
  let* err := lift (read_all (proc_stderr p)) in
  let* _ := process_wait p in
  ret (out, err).

(** ** [esp_utils.py] *)

Section EspUtils.
Context {rt : PyRuntime}.

Definition error_result (e : exn) : M (Z * str * str) :=
  ret (1, "", "Error executing command: " +:+ exn_msg e).

Definition run_command_async_body (command : str) : M (Z * str * str) :=
  let* process := create_subprocess_shell command in
  let* (stdout, stderr) := process_communicate process in
  let* out := lift (decode_strict stdout) in
  let* err := lift (decode_strict stderr) in
  ret (proc_returncode process, out, err).

Definition run_command_async (command : str) : M (Z * str * str) :=
  try_except any_Exception (run_command_async_body command) error_result.

(** A [_read_stream] coroutine between two of its suspension points: still
    reading its pipe, or out of its loop. *)
Inductive reader := Reading (stream : list chunk) | AtEof.

Definition unread (r : reader) : list chunk :=
  match r with Reading s => s | AtEof => [] end.

(** One turn of the loop of [_read_stream]: from [await stream.readline()]
    to the next one.  Nothing is awaited in between, so a turn is atomic. *)
Definition _read_stream_turn (log_path prefix : str)
    (st : reader * list str) : M (reader * list str) :=
  match st with
  | (AtEof, chunks) => ret (AtEof, chunks)
  | (Reading stream, chunks) =>
      let* (line, rest) := readline stream in
      if String.eqb line "" then ret (AtEof, chunks)
      else
        let text := decode_replace line in
        let chunks := chunks ++ [text] in
        let* _ := append_to_file log_path (prefix +:+ text) in
        ret (Reading rest, chunks)
  end.

Fixpoint turns (n : nat) (log_path prefix : str)
    (st : reader * list str) : M (reader * list str) :=
  match n with
  | O => ret st
  | S n' =>
      let* st' := _read_stream_turn log_path prefix st in
      turns n' log_path prefix st'
  end.

(** [_read_stream] run without interruption until its loop is left. *)
Definition _read_stream (log_path prefix : str)
    (st : reader * list str) : M (reader * list str) :=
  turns (S (length (unread (fst st)))) log_path prefix st.

(** [asyncio.gather] of the two readers.  The event loop resumes the reader
    whose pipe has the next line ready, as [arrival] tells ([true]: stdout);
    once the arrival order is used up each reader runs to its end.  An
    exception in either reader ends the [await]. *)
Fixpoint gather (log_path : str) (arrival : list bool)
    (out err : reader * list str) : M ((reader * list str) * (reader * list str)) :=
  match arrival with
  | [] =>
      let* out' := _read_stream log_path "[stdout] " out in
      let* err' := _read_stream log_path "[stderr] " err in
      ret (out', err')
  | true :: later =>
      let* out' := _read_stream_turn log_path "[stdout] " out in
      gather log_path later out' err
  | false :: later =>
      let* err' := _read_stream_turn log_path "[stderr] " err in
      gather log_path later out err'
  end.

Definition run_command_async_stream_body (command log_path : str) : M (Z * str * str) :=
  let* process := create_subprocess_shell command in
  let* (out, err) :=
    gather log_path (proc_arrival process)
      (Reading (proc_stdout process), []) (Reading (proc_stderr process), []) in
  let* returncode := process_wait process in
  ret (returncode, join "" (snd out), join "" (snd err)).

Definition run_command_async_stream (command log_path : str) : M (Z * str * str) :=
  try_except any_Exception (run_command_async_stream_body command log_path) error_result.

Definition get_esp_idf_dir (idf_path : option str) : M str :=
  if truthy_opt idf_path then ret (from_option id "" idf_path)
  else
    let* present := environ_has "IDF_PATH" in
    if present then environ_item "IDF_PATH"
    else raise (Raised ValueError
      "IDF_PATH must be provided either as parameter or environment variable").

Definition get_export_script (idf_path : option str) : M str :=
  let* d := get_esp_idf_dir idf_path in
  ret (os_path_join d "export.sh").

Definition check_esp_idf_installed (idf_path : option str) : M bool :=
  try_except is_ValueError
    (let* d := get_esp_idf_dir idf_path in os_path_exists d)
    (fun _ => ret false).

(** [import serial.tools.list_ports] and [list_ports.comports()] *)
Definition import_list_ports : M unit :=
  fun w => match pyserial w with
           | NotImportable e => (inl e, w)
           | Importable _ => (inr tt, w)
           end.
Definition list_ports_comports : M (list Port) :=
  fun w => match pyserial w with
           | NotImportable e => (inl e, w)
           | Importable r => (lift r) w
           end.

Definition esp_vid : Z := 12346.   (* 0x303A *)

(** Sort key of a port: a pair compared as Python compares tuples. *)
Definition _port_rank (port : Port) : Z * str :=
  let dev := lower (from_option id "" (port_device port)) in
  let is_esp := bool_decide (port_vid port = Some esp_vid) in
  let is_usb_cdc := contains "usbmodem" dev || contains "ttyacm" dev in
  (if is_esp && is_usb_cdc then 0 else if is_esp then 1 else 2, dev).

(** [k1 < k2] on such pairs. *)
Definition key_lt (k1 k2 : Z * str) : bool :=
  (fst k1 <? fst k2) || ((fst k1 =? fst k2) && String.ltb (snd k1) (snd k2)).

(** [l.sort(key=key)]: the stable sort; an element goes in front of the
    first element to its right whose key is not smaller than its own. *)
Fixpoint insert_by_key {A} (key : A -> Z * str) (x : A) (sorted : list A) : list A :=
  match sorted with
  | [] => [x]
  | y :: rest =>
      if key_lt (key y) (key x) then y :: insert_by_key key x rest
      else x :: sorted
  end.
Definition sort_by_key {A} (key : A -> Z * str) (l : list A) : list A :=
  fold_right (insert_by_key key) [] l.

Definition id_str (o : option Z) : str :=
  match o with
  | Some v => "0x" +:+ format_04x v
  | None => "unknown"
  end.

(** [f"{x}"] for a string that may be [None]. *)
Definition str_or_None (o : option str) : str := from_option id "None" o.

Definition port_line (port : Port) : str :=
  let vid_str := id_str (port_vid port) in
  let pid_str := id_str (port_pid port) in
  let desc := from_option id "" (port_description port) in
  rstrip (str_or_None (port_device port) +:+ tab +:+ "vid=" +:+ vid_str +:+
          " pid=" +:+ pid_str +:+ " " +:+ desc).

Definition filter_vid (vid : option Z) (ports : list Port) : list Port :=
  match vid with
  | Some v => filter (fun p => port_vid p = Some v) ports
  | None => ports
  end.
Definition filter_pid (pid : option Z) (ports : list Port) : list Port :=
  match pid with
  | Some v => filter (fun p => port_pid p = Some v) ports
  | None => ports
  end.

Definition common_ports : list str :=
  ["/dev/ttyUSB0"; "/dev/ttyUSB1"; "/dev/ttyACM0"; "/dev/ttyACM1";
   "/dev/cu.usbserial-*"; "/dev/cu.SLAB_USBtoUART"; "COM1"; "COM2"; "COM3"].

Definition ports_fallback (e : exn) : M (Z * str * str) :=
  let port_info := "Common ESP device ports to try:" +:+ nl +:+ join nl common_ports in
  ret (0, port_info, "Note: Could not auto-detect ports. Error: " +:+ exn_msg e).

(** The part of [list_serial_ports] after a successful import. *)
Definition list_serial_ports_structured (vid pid : option Z) : M (Z * str * str) :=
  let* ports := list_ports_comports in
  let ports := filter_vid vid ports in
  let ports := filter_pid pid ports in
  let ports :=
    match vid, pid with
    | None, None => sort_by_key _port_rank ports
    | _, _ => ports
    end in
  let lines := map port_line ports in
  match lines with
  | [] => ret (0, "", "No serial ports matched the requested filter.")
  | _ => ret (0, join nl lines +:+ nl, "")
  end.

(** The handler of the failed import: ask a subprocess and return early. *)
Definition list_serial_ports_subprocess : M (Z * str * str) :=
  let* process := create_subprocess_shell "python -m serial.tools.list_ports" in
  let* (stdout, stderr) := process_communicate process in
  let* out := lift (decode_strict stdout) in
  let* err := lift (decode_strict stderr) in
  ret (proc_returncode process, out, err).

Definition list_serial_ports (vid pid : option Z) : M (Z * str * str) :=
  try_except any_Exception
    (let* early :=
       try_except any_Exception
         (let* _ := import_list_ports in ret None)
         (fun _ => let* r := list_serial_ports_subprocess in ret (Some r)) in
     match early with
     | Some r => ret r
     | None => list_serial_ports_structured vid pid
     end)
    ports_fallback.

End EspUtils.

(** ** [main.py] *)

(** [shlex.quote(s)] *)
Definition is_safe_char (c : ascii) : bool :=
  let n := N_of_ascii c in
  (((48 <=? n) && (n <=? 57)) || ((65 <=? n) && (n <=? 90)) ||
   ((97 <=? n) && (n <=? 122)))%N ||
  contains (String c "") "_@%+=:,./-".

Fixpoint all_safe (s : str) : bool :=
  match s with
  | "" => true
  | String c rest => is_safe_char c && all_safe rest
  end.

Fixpoint escape_squotes (s : str) : str :=
  match s with
  | "" => ""
  | String c rest =>
      (if Ascii.eqb c "'" then squote +:+ dquote +:+ squote +:+ dquote +:+ squote
       else String c "") +:+ escape_squotes rest
  end.

Definition shlex_quote (s : str) : str :=
  if String.eqb s "" then "''"
  else if all_safe s then s
  else "'" +:+ escape_squotes s +:+ "'".

(** [x if (x and x.strip()) else None] *)
Definition nonblank (o : option str) : option str :=
  match o with
  | Some s => if truthy s && strip_nonempty s then Some s else None
  | None => None
  end.

(** The initial value of the module constant [LOG_DIR]. *)
Definition initial_LOG_DIR (w : World) : str :=
  from_option id
    (os_path_join (os_path_join (os_path_join (cwd w) ".ai") "logs") "esp_mcp")
    (environ w !! "ESP_MCP_LOG_DIR").

Section Main.
Context {rt : PyRuntime}.
Variable LOG_DIR : str.

Definition _ensure_log_dir : M unit := os_makedirs LOG_DIR.

Definition _write_log (filename content : str) : M unit :=
  let* _ := _ensure_log_dir in
  let log_path := os_path_join LOG_DIR filename in
  overwrite_file log_path content.

Definition _timestamped (name : str) : M str :=
  let* stamp := time_strftime in
  ret (name +:+ "-" +:+ stamp +:+ ".log").

Definition _log_path (filename : str) : M str :=
  let* _ := _ensure_log_dir in
  ret (os_path_join LOG_DIR filename).

(** [str((stdout, stderr))] *)
Definition str_of_pair (stdout stderr : str) : str :=
  "(" +:+ py_repr stdout +:+ ", " +:+ py_repr stderr +:+ ")".

Definition timing_info (what : str) (elapsed_time : Q) : str :=
  let elapsed_minutes := floor_div60 elapsed_time in
  let elapsed_seconds := mod60 elapsed_time in
  nl +:+ nl +:+ "[" +:+ what +:+ " completed in " +:+ str_of_int elapsed_minutes +:+ "m " +:+
  format_2f elapsed_seconds +:+ "s (" +:+ format_2f elapsed_time +:+ " seconds)]" +:+ nl.

Definition build_esp_project (project_path : str) (idf_path sdkconfig_defaults : option str)
    : M (str * str) :=
  let* start_time := time_time in
  let* _ := os_chdir project_path in
  let* export_script := get_export_script (nonblank idf_path) in
  let build_cmd :=
    match nonblank sdkconfig_defaults with
    | Some defaults => "idf.py build -DSDKCONFIG_DEFAULTS=" +:+ shlex_quote defaults
    | None => "idf.py build"
    end in
  let* build_log := _log_path "mcp-process-live.log" in
  let* (returncode, stdout, stderr) :=
    run_command_async_stream
      ("bash -c " +:+ dquote +:+ "source " +:+ export_script +:+ " && " +:+ build_cmd +:+ dquote)
      build_log in
  let* now := time_time in
  let elapsed_time := (now - start_time)%Q in
  let stdout_with_timing := stdout +:+ timing_info "Build" elapsed_time in
  let* _ := _write_log "mcp-process.log" (str_of_pair stdout stderr) in
  let* name := _timestamped "mcp-process" in
  let* _ := _write_log name (str_of_pair stdout stderr) in
  (* logging.warning *)
  ret (stdout_with_timing, stderr).

Definition setup_project_esp_target (project_path target : str) (idf_path : option str)
    : M (str * str) :=
  (* logging.warning *)
  let* _ := os_chdir project_path in
  let processed_idf_path := nonblank idf_path in
  (* logging.warning *)
  let* export_script := get_export_script processed_idf_path in
  let* target_log := _log_path "mcp-set-target-live.log" in
  let* (returncode, stdout, stderr) :=
    run_command_async_stream
      ("bash -c 'source " +:+ export_script +:+ " && idf.py set-target " +:+ target +:+ "'")
      target_log in
  let* _ := _write_log "mcp-set-target.log" (str_of_pair stdout stderr) in
  let* name := _timestamped "mcp-set-target" in
  let* _ := _write_log name (str_of_pair stdout stderr) in
  (* logging.warning *)
  ret (stdout, stderr).

Definition create_esp_project (project_path project_name : str) : M (str * str) :=
  let* _ := os_makedirs project_path in
  let* _ := os_chdir project_path in
  let* export_script := get_export_script None in
  let* create_log := _log_path "mcp-project-root-path-live.log" in
  let* (returncode, stdout, stderr) :=
    run_command_async_stream
      ("bash -c 'source " +:+ export_script +:+ " && idf.py create-project --path " +:+
       project_path +:+ " " +:+ project_name +:+ "'")
      create_log in
  let* _ := _write_log "mcp-project-root-path.log" (str_of_pair stdout stderr) in
  let* name := _timestamped "mcp-project-root-path" in
  let* _ := _write_log name (str_of_pair stdout stderr) in
  (* logging.warning *)
  ret (stdout, stderr).

(** The [for attempt in range(1, retries + 1)] loop of [flash_esp_project],
    with [remaining] iterations to go and the result variables as they stand. *)
Fixpoint flash_attempts (remaining : nat) (delay : pyfloat) (flash_cmd flash_log_path : str)
    (current : Z * str * str) : M (Z * str * str) :=
  match remaining with
  | O => ret current
  | S remaining' =>
      let* result := run_command_async_stream flash_cmd flash_log_path in
      if fst (fst result) =? 0 then ret result
      else
        (* logging.warning *)
        let* _ := time_sleep delay in
        flash_attempts remaining' delay flash_cmd flash_log_path result
  end.

Definition flash_report (returncode : Z) (stdout stderr : str) : str :=
  "Flash operation - Return code: " +:+ str_of_int returncode +:+ nl +:+
  "STDOUT:" +:+ nl +:+ stdout +:+ nl +:+ "STDERR:" +:+ nl +:+ stderr.

Definition flash_esp_project (project_path : str) (port port_filter : option str)
    : M (str * str) :=
  let* _ := os_chdir project_path in
  let* export_script := get_export_script None in
  let* retries_text := environ_get "ESP_MCP_FLASH_RETRIES" "10" in
  let* retries := lift (py_int retries_text) in
  let* delay_text := environ_get "ESP_MCP_FLASH_RETRY_DELAY" "1.0" in
  let* delay := lift (py_float delay_text) in
  let flash_cmd :=
    if truthy_opt port then
      "bash -c 'source " +:+ export_script +:+ " && idf.py -p " +:+
      shlex_quote (from_option id "" port) +:+ " flash'"
    else if truthy_opt port_filter then
      "bash -c 'source " +:+ export_script +:+ " && idf.py -p auto --port-filter " +:+
      shlex_quote (from_option id "" port_filter) +:+ " flash'"
    else "bash -c 'source " +:+ export_script +:+ " && idf.py flash'" in
  (* logging.warning *)
  let* flash_log_path := _log_path "mcp-flash-live.log" in
  let* (returncode, stdout, stderr) :=
    flash_attempts (Z.to_nat retries) delay flash_cmd flash_log_path (1, "", "") in
  let flash_log := flash_report returncode stdout stderr in
  let* _ := _write_log "mcp-flash.log" flash_log in
  let* name := _timestamped "mcp-flash" in
  let* _ := _write_log name flash_log in
  (* logging.warning *)
  ret (stdout, stderr).

Definition parse_usb_id (value : option str) : M (option Z) :=
  match value with
  | None => ret None
  | Some text =>
      try_except is_TypeError_or_ValueError
        (let* n := lift (py_int_base0 text) in ret (Some n))
        (fun _ => ret None)
  end.

Definition list_esp_serial_ports (vid pid : option str) : M (str * str) :=
  let* vid_int := parse_usb_id vid in
  let* pid_int := parse_usb_id pid in
  let* (returncode, stdout, stderr) := list_serial_ports vid_int pid_int in
  let port_log :=
    "Port listing - Return code: " +:+ str_of_int returncode +:+ nl +:+
    "STDOUT:" +:+ nl +:+ stdout +:+ nl +:+ "STDERR:" +:+ nl +:+ stderr in
  let* _ := _write_log "mcp-ports.log" port_log in
  let* name := _timestamped "mcp-ports" in
  let* _ := _write_log name port_log in
  (* logging.warning *)
  ret (stdout, stderr).

(** The [try] block of [run_esp_idf_install]. *)
Definition run_esp_idf_install_body (start_time : Q) (esp_idf_dir install_script : str)
    : M (str * str) :=
  let* _ := os_chdir esp_idf_dir in
  let* install_log_path := _log_path "mcp-install-live.log" in
  let* (returncode, stdout, stderr) :=
    run_command_async_stream ("bash " +:+ install_script) install_log_path in
  let* now := time_time in
  let elapsed_time := (now - start_time)%Q in
  let stdout_with_timing := stdout +:+ timing_info "Installation" elapsed_time in
  let install_log :=
    "ESP-IDF installation - Elapsed time: " +:+ format_2f elapsed_time +:+ "s (" +:+
    str_of_int (floor_div60 elapsed_time) +:+ "m " +:+ format_2f (mod60 elapsed_time) +:+ "s)" +:+
    nl +:+ "Return code: " +:+ str_of_int returncode +:+ nl +:+
    "ESP-IDF path: " +:+ esp_idf_dir +:+ nl +:+
    "Install script: " +:+ install_script +:+ nl +:+
    "STDOUT:" +:+ nl +:+ stdout +:+ nl +:+ "STDERR:" +:+ nl +:+ stderr in
  let* _ := _write_log "mcp-install.log" install_log in
  let* name := _timestamped "mcp-install" in
  let* _ := _write_log name install_log in
  (* logging.warning *)
  ret (stdout_with_timing, stderr).

Definition run_esp_idf_install (idf_path : option str) : M (str * str) :=
  let* start_time := time_time in
  let* found :=
    try_except is_ValueError
      (let* d := get_esp_idf_dir (nonblank idf_path) in ret (inr d))
      (fun e => ret (inl (exn_msg e))) in
  match found with
  | inl error_msg => (* logging.error *) ret ("", error_msg)
  | inr esp_idf_dir =>
      let install_script := os_path_join esp_idf_dir "install.sh" in
      let* present := os_path_exists install_script in
      if negb present then
        (* logging.error *)
        ret ("", "install.sh not found at " +:+ install_script +:+
                 ". Please verify the ESP-IDF path is correct.")
      else
        let* original_dir := os_getcwd in
        try_finally
          (run_esp_idf_install_body start_time esp_idf_dir install_script)
          (os_chdir original_dir)
  end.

(** The [try] block of [run_pytest]. *)
Definition run_pytest_body (project_path test_path pytest_args : str) (idf_path : option str)
    : M (str * str) :=
  let* _ := os_chdir project_path in
  let* export_script := get_export_script (nonblank idf_path) in
  let pytest_cmd := "pytest " +:+ test_path in
  let pytest_cmd := if truthy pytest_args then pytest_cmd +:+ " " +:+ pytest_args else pytest_cmd in
  let full_cmd := "bash -c 'source " +:+ export_script +:+ " && " +:+ pytest_cmd +:+ "'" in
  let* pytest_log_path := _log_path "mcp-pytest-live.log" in
  let* (returncode, stdout, stderr) := run_command_async_stream full_cmd pytest_log_path in
  let pytest_log :=
    "Pytest execution - Return code: " +:+ str_of_int returncode +:+ nl +:+
    "Command: " +:+ full_cmd +:+ nl +:+
    "STDOUT:" +:+ nl +:+ stdout +:+ nl +:+ "STDERR:" +:+ nl +:+ stderr in
  let* _ := _write_log "mcp-pytest.log" pytest_log in
  (* logging.warning *)
  ret (stdout, stderr).

Definition run_pytest (project_path test_path pytest_args : str) (idf_path : option str)
    : M (str * str) :=
  let* original_dir := os_getcwd in
  try_finally
    (run_pytest_body project_path test_path pytest_args idf_path)
    (os_chdir original_dir).

End Main.

(** ** A concrete runtime and concrete worlds *)

Definition digit_value (c : ascii) : option N :=
  let n := N_of_ascii c in
  if ((48 <=? n) && (n <=? 57))%N then Some (n - 48)%N else None.

Fixpoint parse_digits (acc : N) (s : str) : option N :=
  match s with
  | "" => Some acc
  | String c rest =>
      match digit_value c with
      | Some d => parse_digits (10 * acc + d) rest
      | None => None
      end
  end.

Definition parse_int (s : str) : exn + Z :=
  let bad := Raised ValueError ("invalid literal for int() with base 10: '" +:+ s +:+ "'") in
  let '(neg, body) :=
    match s with
    | String "-" rest => (true, rest)
    | String "+" rest => (false, rest)
    | _ => (false, s)
    end in
  if String.eqb body "" then inl bad
  else match parse_digits 0 body with
       | Some n => inr (if neg then - Z.of_N n else Z.of_N n)
       | None => inl bad
       end.

Fixpoint split_at_dot (s : str) : str * option str :=
  match s with
  | "" => ("", None)
  | String c rest =>
      if Ascii.eqb c "." then ("", Some rest)
      else let '(a, b) := split_at_dot rest in (String c a, b)
  end.

Definition parse_float (s : str) : exn + pyfloat :=
  let bad := Raised ValueError ("could not convert string to float: '" +:+ s +:+ "'") in
  let '(neg, body) :=
    match s with
    | String "-" rest => (true, rest)
    | String "+" rest => (false, rest)
    | _ => (false, s)
    end in
  let word := lower body in
  if String.eqb word "inf" || String.eqb word "infinity" then inr (Infinity neg)
  else if String.eqb word "nan" then inr NaN
  else
    let '(whole, frac) := split_at_dot body in
    let frac := from_option id "" frac in
    if String.eqb (whole +:+ frac) "" then inl bad
    else match parse_digits 0 whole, parse_digits 0 frac with
         | Some a, Some b =>
             let scale := (10 ^ N.of_nat (String.length frac))%N in
             let q := Z.of_N (a * scale + b) # N.succ_pos (scale - 1) in
             inr (Finite (if neg then - q else q)%Q)
         | _, _ => inl bad
         end.

Fixpoint repr_body (s : str) : str :=
  match s with
  | "" => ""
  | String c rest =>
      (if Ascii.eqb c "'" then backslash +:+ "'"
       else if Ascii.eqb c "092" then backslash +:+ backslash
       else if Ascii.eqb c LF then backslash +:+ "n"
       else if Ascii.eqb c "013" then backslash +:+ "r"
       else if Ascii.eqb c "009" then backslash +:+ "t"
       else String c "") +:+ repr_body rest
  end.

(** A runtime that agrees with CPython on ASCII text and on plain decimal
    literals, on a platform that refuses to sleep for 9223372035 seconds or
    more, as Linux does; the concrete scenarios below run on it. *)
Definition ascii_runtime : PyRuntime := {|
  decode_strict b := inr b;
  decode_replace b := b;
  py_int := parse_int;
  py_int_base0 := parse_int;
  py_float := parse_float;
  py_repr s := "'" +:+ repr_body s +:+ "'";
  sleep_refused q :=
    if Qle_bool 9223372035 q then Some (Raised OSError "[Errno 22] Invalid argument")
    else None
|}.

Definition morning (t : Q) : struct_time :=
  {| tm_year := 2026; tm_mon := 11; tm_mday := 4; tm_hour := 9; tm_min := 5; tm_sec := 7 |}.

(** A process that prints two lines on stdout and one on stderr, the stderr
    line arriving between the two others. *)
Definition chatty (returncode : Z) : Process :=
  {| proc_stdout := [Data ("hello" +:+ nl); Data ("bye" +:+ nl)];
     proc_stderr := [Data ("warn" +:+ nl)];
     proc_arrival := [true; false; true];
     proc_returncode := returncode;
     proc_duration := 5 # 2 |}.

Definition silent (returncode : Z) : Process :=
  {| proc_stdout := []; proc_stderr := []; proc_arrival := [];
     proc_returncode := returncode; proc_duration := 1 |}.

(** A development machine: the toolchain under [/opt/esp-idf], a project
    under [/home/dev/proj], every command launched running as [p]. *)
Definition workstation (env : gmap string string) (p : Process) : World :=
  {| environ := env;
     cwd := "/home/dev";
     dirs := {[ "/"; "/home"; "/home/dev"; "/home/dev/proj"; "/opt"; "/opt/esp-idf" ]};
     files := {[ "/opt/esp-idf/install.sh" := "#!/bin/sh" ]};
     denied := ∅;
     clock := 1000;
     localtime := morning;
     shell := fun _ _ => inr p;
     launched := [];
     slept := [];
     pyserial := Importable (inr []) |}.

Definition with_idf : gmap string string := {[ "IDF_PATH" := "/opt/esp-idf" ]}.
Definition logs : str := "/home/dev/.ai/logs/esp_mcp".

(** ** Vocabulary of the properties *)

(** Two worlds with the same working directory, directories and refusals:
    paths resolve alike and can be opened alike in both. *)
Definition same_places (w w' : World) : Prop :=
  cwd w' = cwd w /\ dirs w' = dirs w /\ denied w' = denied w.

(** A relation between the world before and after that a computation
    maintains whatever it returns or raises. *)
Definition maintains {A} (R : World -> World -> Prop) (m : M A) : Prop :=
  forall w, R w (snd (m w)).

(** What the two readers write to the log: one entry per line, tagged with
    its pipe ([true]: stdout), in the order of writing. *)
Definition tag_prefix (is_stdout : bool) : str :=
  if is_stdout then "[stdout] " else "[stderr] ".

Fixpoint render (entries : list (bool * str)) : str :=
  match entries with
  | [] => ""
  | (tag, text) :: later => tag_prefix tag +:+ text +:+ render later
  end.

Definition texts_of (tag : bool) (entries : list (bool * str)) : list str :=
  map snd (List.filter (fun e => Bool.eqb (fst e) tag) entries).

(** The order in which the lines of the two pipes are logged when they
    become ready in the order [arrival] ([true]: on stdout): a line is taken
    from the pipe that is ready, and what is left once the order is used up
    follows, stdout first. *)
Fixpoint schedule (arrival : list bool) (out err : list str) : list (bool * str) :=
  match arrival with
  | [] => map (pair true) out ++ map (pair false) err
  | true :: later =>
      match out with
      | [] => schedule later [] err
      | line :: out' => (true, line) :: schedule later out' err
      end
  | false :: later =>
      match err with
      | [] => schedule later out []
      | line :: err' => (false, line) :: schedule later out err'
      end
  end.

(** The clock has not moved. *)
Definition same_time (w w' : World) : Prop := clock w' = clock w.

(** The lengths [time.sleep] hands to the platform: not negative and no
    more than the whole seconds that fit a [_PyTime_t] in nanoseconds. *)
Definition longest_sleep : Q := 9223372036.
Definition sleepable (q : Q) : bool := Qle_bool 0 q && Qle_bool q longest_sleep.

(** What [time.sleep] raises for a length that is not a number, is
    infinite, is at least 9223372037 seconds in either direction, or is
    negative down to -9223372036 seconds. *)
Definition sleep_refusal (d : pyfloat) : option exn :=
  match d with
  | NaN => Some (Raised ValueError "Invalid value NaN (not a number)")
  | Infinity _ => Some PyTime_overflow
  | Finite q =>
      if Qle_bool (longest_sleep + 1) q || Qle_bool q (- (longest_sleep + 1))
      then Some PyTime_overflow
      else if Qle_bool 0 q then None
      else if Qle_bool (- longest_sleep) q
      then Some (Raised ValueError "sleep length must be non-negative")
      else None
  end.

(** A line as [readline] delivers it whole: one line feed, at its end, and
    no more than [readline_limit] bytes in front of it. *)
Definition whole_line (b : bytes) : bool := is_line b && negb (overrun b).

Fixpoint no_lf (s : str) : bool :=
  match s with
  | "" => true
  | String c rest => negb (Ascii.eqb c LF) && no_lf rest
  end.

(** The file [p] has grown by [text] and nothing else changed where paths
    are concerned. *)
Definition grew_by (p text : str) (w w' : World) : Prop :=
  same_places w w' /\ file_content w' p = file_content w p +:+ text.

(** Nothing moved: same working directory, no directory lost, the same
    refusals. *)
Definition steady (w w' : World) : Prop :=
  cwd w' = cwd w /\ dirs w ⊆ dirs w' /\ denied w' = denied w.

(** As [steady], but the working directory may have changed. *)
Definition settled (w w' : World) : Prop :=
  dirs w ⊆ dirs w' /\ denied w' = denied w.

(** No subprocess launched, no sleep, the same shell. *)
Definition idle (w w' : World) : Prop :=
  launched w' = launched w /\ slept w' = slept w /\ shell w' = shell w.

(** The process runs in a directory that exists and that it may enter, known
    by its absolute path (what [os.getcwd()] returns). *)
Definition well_placed (w : World) : Prop :=
  is_abs (cwd w) = true /\ can_enter w (cwd w) = true.

(** From a well-placed world the computation ends where it started. *)
Definition homing {A} (m : M A) : Prop :=
  forall w, well_placed w -> steady w (snd (m w)).

(** The preference order of the port listing, said apart from the sort key
    of the code: a port of the vendor 0x303A whose device path has a
    USB-native pattern, then any other port of that vendor, then the rest;
    within a class by the lower-cased device path. *)
Definition sort_path (p : Port) : str := lower (from_option id "" (port_device p)).
Definition usb_native (p : Port) : bool :=
  contains "usbmodem" (sort_path p) || contains "ttyacm" (sort_path p).
Definition preference (p : Port) : Z :=
  if bool_decide (port_vid p = Some 12346) then if usb_native p then 0 else 1 else 2.
Definition listed_before (p q : Port) : Prop :=
  preference p < preference q \/
  (preference p = preference q /\ String.leb (sort_path p) (sort_path q) = true).

(** Whether a port passes the filters that were given. *)
Definition passes (vid pid : option Z) (p : Port) : bool :=
  match vid with Some v => bool_decide (port_vid p = Some v) | None => true end &&
  match pid with Some v => bool_decide (port_pid p = Some v) | None => true end.

(** What [list_serial_ports] returns for the ports it lists, in order. *)
Definition listing (ports : list Port) : Z * str * str :=
  match map port_line ports with
  | [] => (0, "", "No serial ports matched the requested filter.")
  | lines => (0, join nl lines +:+ nl, "")
  end.

(** Four hexadecimal digits, most significant first. *)
Definition hex4 (n : N) : str :=
  String (digit_char (n / 4096 mod 16)) (String (digit_char (n / 256 mod 16))
    (String (digit_char (n / 16 mod 16)) (String (digit_char (n mod 16)) ""))).

Definition is_lower_hex (c : ascii) : bool := contains (String c "") "0123456789abcdef".

(** [check] holds of the [count] numbers from [first] on. *)
Fixpoint holds_from (check : N -> bool) (count : nat) (first : N) : bool :=
  match count with
  | O => true
  | S count' => check first && holds_from check count' (first + 1)
  end.

(** Two and four decimal digits, most significant first. *)
Definition dec2 (n : N) : str :=
  String (digit_char (n / 10)) (String (digit_char (n mod 10)) "").
Definition dec4 (n : N) : str :=
  String (digit_char (n / 1000)) (String (digit_char (n / 100 mod 10))
    (String (digit_char (n / 10 mod 10)) (String (digit_char (n mod 10)) ""))).

(** What [list_serial_ports] returns when it falls back on the static list. *)
Definition static_list (e : exn) : Z * str * str :=
  (0, "Common ESP device ports to try:" +:+ nl +:+ join nl common_ports,
   "Note: Could not auto-detect ports. Error: " +:+ exn_msg e).

(** ** Scenarios *)

Definition retry_env (retries delay : str) : gmap string string :=
  <["ESP_MCP_FLASH_RETRIES" := retries]> (<["ESP_MCP_FLASH_RETRY_DELAY" := delay]> with_idf).

Definition live_log : str := "/home/dev/live.log".

(** A workstation whose flash command fails on the first [failures]
    launches and succeeds from then on. *)
Definition flaky (failures : nat) (env : gmap string string) : World :=
  {| environ := env;
     cwd := "/home/dev";
     dirs := {[ "/"; "/home"; "/home/dev"; "/home/dev/proj"; "/opt"; "/opt/esp-idf" ]};
     files := {[ "/opt/esp-idf/install.sh" := "#!/bin/sh" ]};
     denied := ∅;
     clock := 1000;
     localtime := morning;
     shell := fun _ k => inr (chatty (if (k <? failures)%nat then 1 else 0));
     launched := [];
     slept := [];
     pyserial := Importable (inr []) |}.

(** A workstation with the given state of pyserial. *)
Definition bench (py : Pyserial) (p : Process) : World :=
  {| environ := with_idf;
     cwd := "/home/dev";
     dirs := {[ "/"; "/home"; "/home/dev"; "/home/dev/proj"; "/opt"; "/opt/esp-idf" ]};
     files := {[ "/opt/esp-idf/install.sh" := "#!/bin/sh" ]};
     denied := ∅;
     clock := 1000;
     localtime := morning;
     shell := fun _ _ => inr p;
     launched := [];
     slept := [];
     pyserial := py |}.

Definition slab : Port :=
  {| port_device := Some "/dev/cu.SLAB_USBtoUART";
     port_vid := Some 4292; port_pid := Some 60000;
     port_description := Some "CP2102 USB to UART Bridge Controller" |}.
Definition console : Port :=
  {| port_device := Some "/dev/cu.debug-console";
     port_vid := None; port_pid := None;
     port_description := Some "n/a" |}.
Definition devkit_cdc : Port :=
  {| port_device := Some "/dev/cu.usbmodem1101";
     port_vid := Some 12346; port_pid := Some 4097;
     port_description := Some "USB JTAG/serial debug unit" |}.
Definition devkit_uart : Port :=
  {| port_device := Some "/dev/ttyS4";
     port_vid := Some 12346; port_pid := Some 2;
     port_description := None |}.

(** A process whose first stdout line has 70000 bytes in front of its line
    feed. *)
Definition flood : Process :=
  {| proc_stdout := [Data (zeros (N.to_nat 70000) +:+ nl); Data ("done" +:+ nl)];
     proc_stderr := [Data ("warn" +:+ nl)];
     proc_arrival := [true; false; true];
     proc_returncode := 0;
     proc_duration := 1 |}.

Definition no_pyserial : Pyserial :=
  NotImportable (Raised ImportError "No module named 'serial'").

Definition python_without_serial : Process :=
  {| proc_stdout := [];
     proc_stderr := [Data ("/usr/bin/python: No module named serial" +:+ nl)];
     proc_arrival := [];
     proc_returncode := 1;
     proc_duration := 1 |}.

(** What the fallback subprocess prints when it can list the ports itself. *)
Definition raw_listing : Process :=
  {| proc_stdout := [Data ("/dev/ttyUSB0" +:+ nl)];
     proc_stderr := [Data ("1 ports found" +:+ nl)];
     proc_arrival := [];
     proc_returncode := 0;
     proc_duration := 1 |}.

Definition missing_idf_path : str :=
  "IDF_PATH must be provided either as parameter or environment variable".

(** The names of the files that exist. *)
Definition file_names (w : World) : list str := map fst (map_to_list (files w)).

(** ** Vocabulary of the further properties *)

(** Every character of [s] satisfies [P]. *)
Fixpoint all_chars (P : ascii -> bool) (s : str) : bool :=
  match s with
  | "" => true
  | String c rest => P c && all_chars P rest
  end.

Definition not_slash (c : ascii) : bool := negb (is_slash c).
Definition not_lf (c : ascii) : bool := negb (Ascii.eqb c LF).
Definition not_space (c : ascii) : bool := negb (isspace c).

(** A plain file name: not empty, no slash. *)
Definition plain_name (name : str) : bool :=
  negb (String.eqb name "") && all_chars not_slash name.

(** Environment, launches, sleeps and shell as they were. *)
Definition calm (w w' : World) : Prop :=
  environ w' = environ w /\ launched w' = launched w /\
  slept w' = slept w /\ shell w' = shell w.

(** No file written, created or removed, and nothing moved. *)
Definition no_write (w w' : World) : Prop :=
  files w' = files w /\ cwd w' = cwd w /\ dirs w' = dirs w /\ denied w' = denied w.

(** Nothing moved, no file but [log_path] touched, and [log_path] holds
    what it held, possibly followed by more. *)
Definition log_only (log_path : str) (w w' : World) : Prop :=
  same_places w w' /\
  (forall path, path <> abspath w log_path -> files w' !! path = files w !! path) /\
  exists text, file_content w' log_path = file_content w log_path +:+ text.

(** The log directory is named by an absolute path without a slash at its
    end, is not refused and is not a regular file; nothing directly under it
    is refused or is a directory. *)
Definition log_dir_ready (LOG_DIR : str) (w : World) : Prop :=
  is_abs LOG_DIR = true /\ ends_with_slash LOG_DIR = false /\
  (LOG_DIR ∉ denied w) /\ (files w !! LOG_DIR = None) /\
  forall name, plain_name name = true ->
    ((LOG_DIR +:+ "/" +:+ name) ∉ denied w) /\ ((LOG_DIR +:+ "/" +:+ name) ∉ dirs w).

(** The directories that exist once the log directory has been made. *)
Definition with_log_dir (LOG_DIR : str) (w : World) : gset string :=
  list_to_set (ancestors (String.length LOG_DIR) LOG_DIR) ∪ dirs w.

(** A port whose device path and description hold no line feed. *)
Definition one_line_port (p : Port) : bool :=
  all_chars not_lf (str_or_None (port_device p)) &&
  all_chars not_lf (from_option id "" (port_description p)).

(** The ports [list_serial_ports] shows, given the filters and the ports
    enumerated. *)
Definition shown_ports (vid pid : option Z) (ports : list Port) : list Port :=
  match vid, pid with
  | None, None => sort_by_key _port_rank ports
  | _, _ => List.filter (passes vid pid) ports
  end.

(** The toolchain directory [get_esp_idf_dir] settles on when it returns:
    the path given if it is not empty, the value of [IDF_PATH] otherwise. *)
Definition resolved_idf_dir (idf_path : option str) (w : World) : str :=
  if truthy_opt idf_path then from_option id "" idf_path
  else from_option id "" (environ w !! "IDF_PATH").

(** * Properties *)

(** ** Text *)

#[local] Arguments String.append : simpl nomatch.

Lemma app_assoc_str (a b c : str) : (a +:+ b) +:+ c = a +:+ (b +:+ c).
Proof. induction a as [|ch a IH]; simpl; [reflexivity | now rewrite IH]. Qed.

Lemma app_empty_r (a : str) : a +:+ "" = a.
Proof. induction a as [|ch a IH]; simpl; [reflexivity | now rewrite IH]. Qed.

Lemma is_line_nonempty (t : str) : is_line t = true -> String.eqb t "" = false.
Proof. destruct t; simpl; [discriminate | reflexivity]. Qed.

(** A line followed by more text is the first line of the whole. *)
Lemma lines_of_line (t rest : str) :
  is_line t = true -> lines_of (t +:+ rest) = chop t :: lines_of rest.
Proof.
  induction t as [|c t IH]; simpl; [discriminate |].
  destruct (Ascii.eqb c LF) eqn:Ec.
  - intros Ht. apply String.eqb_eq in Ht. subst t. reflexivity.
  - intros Ht. rewrite (IH Ht).
    destruct t as [|c' t']; [discriminate | reflexivity].
Qed.

Lemma chop_line (t : str) : is_line t = true -> chop t +:+ nl = t.
Proof.
  induction t as [|c t IH]; simpl; [discriminate |].
  destruct (Ascii.eqb c LF) eqn:Ec.
  - intros Ht. apply String.eqb_eq in Ht. subst t.
    apply Ascii.eqb_eq in Ec. now subst c.
  - intros Ht. destruct t as [|c' t']; [discriminate |].
    change (String c (chop (String c' t') +:+ nl) = String c (String c' t')).
    now rewrite (IH Ht).
Qed.

(** ** The monad *)

Lemma bind_inr {A B} (m : M A) (k : A -> M B) (w w' : World) (a : A) :
  m w = (inr a, w') -> bind m k w = k a w'.
Proof. unfold bind. now intros ->. Qed.

(** ** Text and numbers, on examples *)

Example format_04x_esp : format_04x 12346 = "303a".
Proof. reflexivity. Qed.
Example format_04x_small : format_04x 2 = "0002".
Proof. reflexivity. Qed.
Example format_04x_neg : format_04x (-1) = "-001".
Proof. reflexivity. Qed.
Example format_04x_wide : format_04x 1193046 = "123456".
Proof. reflexivity. Qed.
Example str_of_int_ex : str_of_int (-120) = "-120" /\ str_of_int 0 = "0".
Proof. split; reflexivity. Qed.
Example format_2f_ex :
  format_2f (125 # 1000) = "0.12" /\ format_2f (7531 # 100) = "75.31" /\
  format_2f (1999 # 1000) = "2.00".
Proof. repeat split; reflexivity. Qed.
Example lines_of_ex :
  lines_of ("a" +:+ nl +:+ nl +:+ "bc" +:+ nl +:+ "d") = ["a"; ""; "bc"; "d"].
Proof. reflexivity. Qed.
Example rstrip_ex : rstrip ("a b " +:+ tab +:+ " ") = "a b".
Proof. reflexivity. Qed.
Example contains_ex :
  contains "ttyacm" "/dev/ttyacm0" = true /\ contains "usbmodem" "/dev/ttyusb0" = false.
Proof. split; reflexivity. Qed.

(** ** The log of the streaming runner *)

Lemma same_places_refl (w : World) : same_places w w.
Proof. now repeat split. Qed.

Lemma same_places_trans (w1 w2 w3 : World) :
  same_places w1 w2 -> same_places w2 w3 -> same_places w1 w3.
Proof. unfold same_places. intuition congruence. Qed.

Lemma same_places_abspath (w w' : World) (p : str) :
  same_places w w' -> abspath w' p = abspath w p.
Proof. intros (Hc & _). unfold abspath. now rewrite Hc. Qed.

Lemma same_places_can_open (w w' : World) (p : str) :
  same_places w w' -> can_open_for_write w' p = can_open_for_write w p.
Proof.
  intros Hs. unfold can_open_for_write. rewrite (same_places_abspath _ _ _ Hs).
  destruct Hs as (_ & Hd & Hn). now rewrite Hd, Hn.
Qed.

Lemma grew_by_nothing (p : str) (w : World) : grew_by p "" w w.
Proof. split; [apply same_places_refl | now rewrite app_empty_r]. Qed.

Lemma grew_by_trans (p t1 t2 : str) (w1 w2 w3 : World) :
  grew_by p t1 w1 w2 -> grew_by p t2 w2 w3 -> grew_by p (t1 +:+ t2) w1 w3.
Proof.
  intros [Hs1 Hf1] [Hs2 Hf2]. split; [eapply same_places_trans; eauto |].
  now rewrite Hf2, Hf1, app_assoc_str.
Qed.

Lemma render_app (a b : list (bool * str)) : render (a ++ b) = render a +:+ render b.
Proof.
  induction a as [|[tag text] a IH]; simpl; [reflexivity |].
  now rewrite IH, !app_assoc_str.
Qed.

Lemma texts_of_app (tag : bool) (a b : list (bool * str)) :
  texts_of tag (a ++ b) = texts_of tag a ++ texts_of tag b.
Proof. unfold texts_of. now rewrite List.filter_app, map_app. Qed.

Lemma texts_of_same (tag : bool) (l : list str) :
  texts_of tag (map (pair tag) l) = l.
Proof.
  unfold texts_of. induction l as [|x l IH]; simpl; [reflexivity |].
  rewrite Bool.eqb_reflx. simpl. now f_equal.
Qed.

Lemma texts_of_other (tag : bool) (l : list str) :
  texts_of tag (map (pair (negb tag)) l) = [].
Proof.
  unfold texts_of. induction l as [|x l IH]; simpl; [reflexivity |].
  destruct tag; simpl; exact IH.
Qed.

Lemma lines_of_prefixed (p t rest : str) :
  no_lf p = true -> is_line t = true ->
  lines_of (p +:+ t +:+ rest) = (p +:+ chop t) :: lines_of rest.
Proof.
  intros Hp Ht. induction p as [|c p IH]; simpl.
  - now apply lines_of_line.
  - simpl in Hp. apply andb_prop in Hp as [Hc Hp].
    apply negb_true_iff in Hc. rewrite Hc, (IH Hp). reflexivity.
Qed.

Lemma lines_of_render (entries : list (bool * str)) :
  Forall (fun e => is_line (snd e) = true) entries ->
  lines_of (render entries) =
  map (fun e => tag_prefix (fst e) +:+ chop (snd e)) entries.
Proof.
  induction 1 as [|[tag text] later Ht _ IH]; simpl; [reflexivity |].
  rewrite lines_of_prefixed; [now rewrite IH | now destruct tag | exact Ht].
Qed.

Lemma prefix_tag (tag tag' : bool) (s : str) :
  String.prefix (tag_prefix tag) (tag_prefix tag' +:+ s) = Bool.eqb tag' tag.
Proof. destruct tag, tag'; simpl; try reflexivity; now destruct s. Qed.

Lemma count_prefixed_render (tag : bool) (entries : list (bool * str)) :
  Forall (fun e => is_line (snd e) = true) entries ->
  count_prefixed (tag_prefix tag) (render entries) = length (texts_of tag entries).
Proof.
  intros Hl. unfold count_prefixed, texts_of. rewrite (lines_of_render _ Hl).
  rewrite length_map. clear Hl.
  induction entries as [|[tag' text] later IH]; simpl; [reflexivity |].
  rewrite prefix_tag.
  destruct (Bool.eqb tag' tag); simpl; now rewrite IH.
Qed.

Lemma Forall_texts_of (P : str -> Prop) (entries : list (bool * str)) :
  Forall P (texts_of true entries) -> Forall P (texts_of false entries) ->
  Forall (fun e => P (snd e)) entries.
Proof.
  unfold texts_of. induction entries as [|[[|] text] later IH]; simpl; intros Ht Hf.
  - constructor.
  - inversion Ht; subst. constructor; auto.
  - inversion Hf; subst. constructor; auto.
Qed.

Lemma length_texts_of (entries : list (bool * str)) :
  length entries = (length (texts_of true entries) + length (texts_of false entries))%nat.
Proof.
  unfold texts_of. induction entries as [|[[|] text] later IH]; simpl; lia.
Qed.

(** ** The process runners *)

Section Runners.
Context {rt : PyRuntime}.

Lemma launch_failure_raises (command : str) (w : World) (e : exn) :
  shell w command (length (launched w)) = inl e ->
  outcome (run_command_async_body command) w = inl e /\
  forall log_path, outcome (run_command_async_stream_body command log_path) w = inl e.
Proof.
  intros Hs. unfold outcome, run_command_async_body, run_command_async_stream_body,
    bind, create_subprocess_shell. rewrite Hs. now split.
Qed.

(** C2: neither runner ever raises.  Each returns what the body of its
    [try] block returned, and when that body raised an exception [e] (the
    launch or any later step failed) it returns exit code 1, an empty
    stdout and the stderr text "Error executing command: " followed by
    [str(e)]. *)
Theorem runners_never_raise (command log_path : str) (w : World) :
  outcome (run_command_async command) w =
    inr (match outcome (run_command_async_body command) w with
         | inr result => result
         | inl e => (1, "", "Error executing command: " +:+ exn_msg e)
         end) /\
  outcome (run_command_async_stream command log_path) w =
    inr (match outcome (run_command_async_stream_body command log_path) w with
         | inr result => result
         | inl e => (1, "", "Error executing command: " +:+ exn_msg e)
         end).
Proof.
  unfold outcome, run_command_async, run_command_async_stream, try_except.
  split.
  - destruct (run_command_async_body command w) as [[e|r] w']; reflexivity.
  - destruct (run_command_async_stream_body command log_path w) as [[e|r] w']; reflexivity.
Qed.

Section Streaming.
Variable log_path : str.

Lemma append_grows (text : str) (w : World) :
  can_open_for_write w log_path = true ->
  exists w', append_to_file log_path text w = (inr tt, w') /\ grew_by log_path text w w'.
Proof.
  intros Hopen. unfold append_to_file. rewrite Hopen. eexists; split; [reflexivity |].
  split; [now repeat split |].
  unfold file_content at 1. unfold abspath. simpl.
  now rewrite lookup_insert_eq.
Qed.

Lemma turn_line (prefix : str) (b : bytes) (rest : list chunk) (chunks : list str) (w : World) :
  can_open_for_write w log_path = true -> whole_line b = true ->
  exists w',
    _read_stream_turn log_path prefix (Reading (Data b :: rest), chunks) w =
      (inr (Reading rest, chunks ++ [decode_replace b]), w') /\
    grew_by log_path (prefix +:+ decode_replace b) w w'.
Proof.
  intros Hopen Hb. apply andb_prop in Hb as [Hb Hfit]. apply negb_true_iff in Hfit.
  destruct (append_grows (prefix +:+ decode_replace b) w Hopen) as (w' & Ha & Hg).
  exists w'. split; [| exact Hg].
  unfold _read_stream_turn, readline. rewrite Hfit. unfold bind, ret.
  rewrite (is_line_nonempty _ Hb). now rewrite Ha.
Qed.

Lemma grew_by_can_open (text : str) (w w' : World) :
  grew_by log_path text w w' ->
  can_open_for_write w log_path = true -> can_open_for_write w' log_path = true.
Proof. intros [Hs _] Ho. now rewrite (same_places_can_open _ _ _ Hs). Qed.

(** A reader left alone reads its pipe to the end. *)
Lemma read_stream_lines (tag : bool) (lines : list bytes) :
  forall (r : reader) (chunks : list str) (w : World),
    unread r = map Data lines ->
    Forall (fun b => whole_line b = true) lines ->
    can_open_for_write w log_path = true ->
    exists w',
      _read_stream log_path (tag_prefix tag) (r, chunks) w =
        (inr (AtEof, chunks ++ map decode_replace lines), w') /\
      grew_by log_path (render (map (pair tag) (map decode_replace lines))) w w'.
Proof.
  induction lines as [|b lines IH]; intros r chunks w Hr Hl Hopen.
  - exists w. split; [| apply grew_by_nothing].
    unfold _read_stream. simpl fst. rewrite Hr. simpl.
    rewrite app_nil_r. destruct r as [s|]; simpl in Hr; [subst s |]; reflexivity.
  - destruct r as [s|]; simpl in Hr; [subst s | discriminate].
    inversion Hl as [|? ? Hb Hl']; subst.
    destruct (turn_line (tag_prefix tag) b (map Data lines) chunks w Hopen Hb) as (w1 & Ht & Hg1).
    destruct (IH (Reading (map Data lines)) (chunks ++ [decode_replace b]) w1
                eq_refl Hl' (grew_by_can_open _ _ _ Hg1 Hopen)) as (w2 & Hrest & Hg2).
    exists w2. split.
    + unfold _read_stream in *. simpl fst in *. simpl unread in *.
      change (turns (S (length (Data b :: map Data lines))) log_path (tag_prefix tag)
                (Reading (Data b :: map Data lines), chunks) w)
        with (bind (_read_stream_turn log_path (tag_prefix tag)
                      (Reading (Data b :: map Data lines), chunks))
                   (turns (S (length (map Data lines))) log_path (tag_prefix tag)) w).
      rewrite (bind_inr _ _ _ _ _ Ht), Hrest.
      now rewrite <- app_assoc.
    + simpl.
      rewrite <- app_assoc_str. eapply grew_by_trans; eauto.
Qed.

(** Whatever the order of arrival, [gather] returns with both readers at
    the end of their pipe, each having collected its own lines in order. *)
Lemma gather_lines (arrival : list bool) :
  forall (out_lines err_lines : list bytes) (ro re : reader) (co ce : list str) (w : World),
    unread ro = map Data out_lines -> unread re = map Data err_lines ->
    Forall (fun b => whole_line b = true) out_lines ->
    Forall (fun b => whole_line b = true) err_lines ->
    can_open_for_write w log_path = true ->
    exists w' entries,
      gather log_path arrival (ro, co) (re, ce) w =
        (inr ((AtEof, co ++ map decode_replace out_lines),
              (AtEof, ce ++ map decode_replace err_lines)), w') /\
      grew_by log_path (render entries) w w' /\
      texts_of true entries = map decode_replace out_lines /\
      texts_of false entries = map decode_replace err_lines.
Proof.
  induction arrival as [|[|] later IH]; intros o e ro re co ce w Ho He Hlo Hle Hopen.
  - destruct (read_stream_lines true o ro co w Ho Hlo Hopen) as (w1 & H1 & Hg1).
    destruct (read_stream_lines false e re ce w1 He Hle (grew_by_can_open _ _ _ Hg1 Hopen))
      as (w2 & H2 & Hg2).
    exists w2, (map (pair true) (map decode_replace o) ++ map (pair false) (map decode_replace e)).
    split; [| split; [| split]].
    + simpl gather. change (tag_prefix true) with "[stdout] " in H1.
      change (tag_prefix false) with "[stderr] " in H2.
      rewrite (bind_inr _ _ _ _ _ H1), (bind_inr _ _ _ _ _ H2). reflexivity.
    + rewrite render_app. eapply grew_by_trans; eauto.
    + rewrite texts_of_app.
      rewrite texts_of_same, (texts_of_other true). apply app_nil_r.
    + rewrite texts_of_app.
      rewrite (texts_of_other false), texts_of_same. reflexivity.
  - destruct o as [|b o].
    + assert (Ht : _read_stream_turn log_path "[stdout] " (ro, co) w = (inr (AtEof, co), w)).
      { destruct ro as [s|]; simpl in Ho; [subst s |]; reflexivity. }
      destruct (IH [] e AtEof re co ce w eq_refl He Hlo Hle Hopen) as (w' & entries & Hg & Hrest).
      exists w', entries. split; [| exact Hrest].
      simpl gather. now rewrite (bind_inr _ _ _ _ _ Ht).
    + destruct ro as [s|]; simpl in Ho; [subst s | discriminate].
      inversion Hlo as [|? ? Hb Hlo']; subst.
      destruct (turn_line "[stdout] " b (map Data o) co w Hopen Hb) as (w1 & Ht & Hg1).
      destruct (IH o e (Reading (map Data o)) re (co ++ [decode_replace b]) ce w1
                  eq_refl He Hlo' Hle (grew_by_can_open _ _ _ Hg1 Hopen))
        as (w' & entries & Hg & Hgrew & Htrue & Hfalse).
      exists w', ((true, decode_replace b) :: entries).
      split; [| split; [| split]].
      * simpl gather. rewrite (bind_inr _ _ _ _ _ Ht), Hg. now rewrite <- app_assoc.
      * change (render ((true, decode_replace b) :: entries))
          with (("[stdout] " +:+ decode_replace b) +:+ render entries).
        eapply grew_by_trans; eauto.
      * unfold texts_of in *. simpl. now rewrite Htrue.
      * unfold texts_of in *. simpl. exact Hfalse.
  - destruct e as [|b e].
    + assert (Ht : _read_stream_turn log_path "[stderr] " (re, ce) w = (inr (AtEof, ce), w)).
      { destruct re as [s|]; simpl in He; [subst s |]; reflexivity. }
      destruct (IH o [] ro AtEof co ce w Ho eq_refl Hlo Hle Hopen) as (w' & entries & Hg & Hrest).
      exists w', entries. split; [| exact Hrest].
      simpl gather. now rewrite (bind_inr _ _ _ _ _ Ht).
    + destruct re as [s|]; simpl in He; [subst s | discriminate].
      inversion Hle as [|? ? Hb Hle']; subst.
      destruct (turn_line "[stderr] " b (map Data e) ce w Hopen Hb) as (w1 & Ht & Hg1).
      destruct (IH o e ro (Reading (map Data e)) co (ce ++ [decode_replace b]) w1
                  Ho eq_refl Hlo Hle' (grew_by_can_open _ _ _ Hg1 Hopen))
        as (w' & entries & Hg & Hgrew & Htrue & Hfalse).
      exists w', ((false, decode_replace b) :: entries).
      split; [| split; [| split]].
      * simpl gather. rewrite (bind_inr _ _ _ _ _ Ht), Hg. now rewrite <- app_assoc.
      * change (render ((false, decode_replace b) :: entries))
          with (("[stderr] " +:+ decode_replace b) +:+ render entries).
        eapply grew_by_trans; eauto.
      * unfold texts_of in *. simpl. exact Htrue.
      * unfold texts_of in *. simpl. now rewrite Hfalse.
Qed.

(** C1 (amended): a command that launches and writes N lines to stdout and
    M lines to stderr, each ended by its line feed and with at most 65536
    bytes in front of it (the limit of the pipes' readers), with a log file
    that can be opened for appending: whatever the order in which the lines
    arrive, the runner returns the exit code, the N stdout lines joined in
    order and the M stderr lines joined in order, and the log file is what
    it was before followed by N+M appended lines, N of them prefixed
    "[stdout] " and M prefixed "[stderr] ". *)
Theorem stream_runner_appends_tagged_lines
    (command : str) (w : World) (p : Process) (out_lines err_lines : list bytes) :
  (forall b, is_line b = true -> is_line (decode_replace b) = true) ->
  shell w command (length (launched w)) = inr p ->
  proc_stdout p = map Data out_lines ->
  proc_stderr p = map Data err_lines ->
  Forall (fun b => whole_line b = true) out_lines ->
  Forall (fun b => whole_line b = true) err_lines ->
  can_open_for_write w log_path = true ->
  outcome (run_command_async_stream command log_path) w =
    inr (proc_returncode p,
         join "" (map decode_replace out_lines),
         join "" (map decode_replace err_lines)) /\
  exists appended,
    file_content (world_after (run_command_async_stream command log_path) w) log_path =
      file_content w log_path +:+ appended /\
    count_prefixed "[stdout] " appended = length out_lines /\
    count_prefixed "[stderr] " appended = length err_lines /\
    length (lines_of appended) = (length out_lines + length err_lines)%nat.
Proof.
  intros Hcodec Hshell Hout Herr Hlo Hle Hopen.
  set (w0 := set_launched (launched w ++ [command]) w).
  assert (Hopen0 : can_open_for_write w0 log_path = true) by exact Hopen.
  destruct (gather_lines (proc_arrival p) out_lines err_lines
              (Reading (proc_stdout p)) (Reading (proc_stderr p)) [] [] w0
              Hout Herr Hlo Hle Hopen0) as (w1 & entries & Hg & [Hs Hf] & Htrue & Hfalse).
  assert (Hrun : run_command_async_stream command log_path w =
                 (inr (proc_returncode p,
                       join "" (map decode_replace out_lines),
                       join "" (map decode_replace err_lines)),
                  set_clock (clock w1 + proc_duration p)%Q w1)).
  { unfold run_command_async_stream, try_except, run_command_async_stream_body.
    unfold bind at 1. unfold create_subprocess_shell. rewrite Hshell.
    fold w0. unfold bind at 1. rewrite Hg. reflexivity. }
  unfold outcome, world_after. rewrite Hrun. split; [reflexivity |].
  exists (render entries).
  assert (Hlines : Forall (fun e => is_line (snd e) = true) entries).
  { apply (Forall_texts_of (fun t => is_line t = true)).
    - rewrite Htrue. apply List.Forall_map.
      eapply List.Forall_impl; [| exact Hlo].
      intros b Hb. apply andb_prop in Hb as [Hb _]. now apply Hcodec.
    - rewrite Hfalse. apply List.Forall_map.
      eapply List.Forall_impl; [| exact Hle].
      intros b Hb. apply andb_prop in Hb as [Hb _]. now apply Hcodec. }
  split; [| split; [| split]].
  - exact Hf.
  - change "[stdout] " with (tag_prefix true).
    rewrite (count_prefixed_render true _ Hlines), Htrue. apply length_map.
  - change "[stderr] " with (tag_prefix false).
    rewrite (count_prefixed_render false _ Hlines), Hfalse. apply length_map.
  - rewrite (lines_of_render _ Hlines), length_map, length_texts_of, Htrue, Hfalse.
    now rewrite !length_map.
Qed.

End Streaming.
End Runners.

(** ** Frames: what a computation leaves alone *)

#[local] Instance steady_preorder : PreOrder steady.
Proof.
  split.
  - intros w. now repeat split.
  - intros w1 w2 w3 (Hc1 & Hd1 & Hn1) (Hc2 & Hd2 & Hn2).
    repeat split; [congruence | now transitivity (dirs w2) | congruence].
Qed.

#[local] Instance settled_preorder : PreOrder settled.
Proof.
  split.
  - intros w. now repeat split.
  - intros w1 w2 w3 (Hd1 & Hn1) (Hd2 & Hn2).
    repeat split; [now transitivity (dirs w2) | congruence].
Qed.

#[local] Instance idle_preorder : PreOrder idle.
Proof.
  split.
  - intros w. now repeat split.
  - intros w1 w2 w3 (Ha1 & Hb1 & Hc1) (Ha2 & Hb2 & Hc2).
    repeat split; congruence.
Qed.

Lemma steady_settled (w w' : World) : steady w w' -> settled w w'.
Proof. intros (_ & Hd & Hn). now split. Qed.

Section Frames.
Variable R : relation World.
Hypothesis R_preorder : PreOrder R.

Lemma maintains_ret {A} (a : A) : maintains R (ret a).
Proof. intros w. reflexivity. Qed.

Lemma maintains_raise {A} (e : exn) : maintains R (@raise A e).
Proof. intros w. reflexivity. Qed.

Lemma maintains_lift {A} (r : exn + A) : maintains R (lift r).
Proof. destruct r; [apply maintains_raise | apply maintains_ret]. Qed.

Lemma maintains_bind {A B} (m : M A) (k : A -> M B) :
  maintains R m -> (forall a, maintains R (k a)) -> maintains R (bind m k).
Proof.
  intros Hm Hk w. unfold bind. specialize (Hm w).
  destruct (m w) as [[e|a] w']; simpl in *; [exact Hm |].
  etransitivity; [exact Hm | apply Hk].
Qed.

Lemma maintains_try_except {A} (c : exn -> bool) (m : M A) (h : exn -> M A) :
  maintains R m -> (forall e, maintains R (h e)) -> maintains R (try_except c m h).
Proof.
  intros Hm Hh w. unfold try_except. specialize (Hm w).
  destruct (m w) as [[e|a] w']; simpl in *; [| exact Hm].
  destruct (c e); [| exact Hm].
  etransitivity; [exact Hm | apply Hh].
Qed.

Lemma maintains_try_finally {A} (m : M A) (f : M unit) :
  maintains R m -> maintains R f -> maintains R (try_finally m f).
Proof.
  intros Hm Hf w. unfold try_finally. specialize (Hm w).
  destruct (m w) as [r w']. specialize (Hf w').
  destruct (f w') as [[e|u] w'']; simpl in *; etransitivity; eauto.
Qed.

End Frames.

Lemma maintains_weaken {A} (R R' : relation World) (m : M A) :
  (forall w w', R w w' -> R' w w') -> maintains R m -> maintains R' m.
Proof. intros Hi Hm w. apply Hi, Hm. Qed.

Create HintDb frames.

(** Goals [maintains R m] for a computation built from the monad's
    combinators: split along the structure, leaves from the hint base. *)
Ltac frame_step :=
  match goal with
  | |- maintains ?R _ =>
      let P := constr:(_ : PreOrder R) in
      first
        [ simple apply (maintains_ret R P) | simple apply (maintains_raise R P)
        | simple apply (maintains_lift R P)
        | simple apply (maintains_bind R P); [| intros ?]
        | simple apply (maintains_try_except R P); [| intros ?]
        | simple apply (maintains_try_finally R P)
        | solve [auto with frames]
        | match goal with
          | |- maintains _ (match ?x with _ => _ end) => destruct x
          end
        | match goal with
          | |- maintains settled _ =>
              simple apply (maintains_weaken steady settled);
              [exact steady_settled | solve [auto with frames]]
          end ]
  end.
Ltac frames := repeat frame_step.

(** A primitive given as a function of the world. *)
Ltac primitive :=
  intros w; cbv beta zeta delta [environ_get environ_has environ_item os_getcwd os_chdir
    os_makedirs os_path_exists append_to_file overwrite_file time_time time_sleep
    time_strftime create_subprocess_shell process_wait import_list_ports
    list_ports_comports];
  repeat match goal with
         | |- context [match ?x with _ => _ end] => destruct x
         end;
  simpl; try reflexivity; repeat split; simpl; try reflexivity; try set_solver.

Lemma steady_environ_get k d : maintains steady (environ_get k d).
Proof. primitive. Qed.
Lemma steady_environ_has k : maintains steady (environ_has k).
Proof. primitive. Qed.
Lemma steady_environ_item k : maintains steady (environ_item k).
Proof. primitive. Qed.
Lemma steady_os_getcwd : maintains steady os_getcwd.
Proof. primitive. Qed.
Lemma steady_os_makedirs p : maintains steady (os_makedirs p).
Proof. primitive. Qed.
Lemma steady_os_path_exists p : maintains steady (os_path_exists p).
Proof. primitive. Qed.
Lemma steady_append_to_file p t : maintains steady (append_to_file p t).
Proof. primitive. Qed.
Lemma steady_overwrite_file p t : maintains steady (overwrite_file p t).
Proof. primitive. Qed.
Lemma steady_time_time : maintains steady time_time.
Proof. primitive. Qed.
Lemma steady_time_sleep {rt : PyRuntime} d : maintains steady (time_sleep d).
Proof. primitive. Qed.
Lemma steady_time_strftime : maintains steady time_strftime.
Proof. primitive. Qed.
Lemma steady_create_subprocess_shell c : maintains steady (create_subprocess_shell c).
Proof. primitive. Qed.
Lemma steady_process_wait p : maintains steady (process_wait p).
Proof. primitive. Qed.
Lemma steady_readline s : maintains steady (readline s).
Proof. destruct s as [|[b|e] s]; unfold readline; frames. Qed.
Lemma steady_import_list_ports : maintains steady import_list_ports.
Proof. primitive. Qed.
Lemma steady_list_ports_comports : maintains steady list_ports_comports.
Proof.
  intros w. unfold list_ports_comports.
  destruct (pyserial w) as [e|[e|l]]; simpl; reflexivity.
Qed.

#[local] Hint Resolve steady_environ_get steady_environ_has steady_environ_item
  steady_os_getcwd steady_os_makedirs steady_os_path_exists steady_append_to_file
  steady_overwrite_file steady_time_time steady_time_sleep steady_time_strftime
  steady_create_subprocess_shell steady_process_wait steady_readline
  steady_import_list_ports steady_list_ports_comports : frames.

Lemma settled_os_chdir p : maintains settled (os_chdir p).
Proof. primitive. Qed.
#[local] Hint Resolve settled_os_chdir : frames.

Lemma steady_process_communicate p : maintains steady (process_communicate p).
Proof. unfold process_communicate. frames. Qed.
#[local] Hint Resolve steady_process_communicate : frames.

Section MoreFrames.
Context {rt : PyRuntime}.
Variable LOG_DIR : str.

Lemma steady_read_stream_turn log_path prefix st :
  maintains steady (_read_stream_turn log_path prefix st).
Proof.
  destruct st as [[s|] chunks]; simpl; frames.
Qed.
#[local] Hint Resolve steady_read_stream_turn : frames.

Lemma steady_turns n log_path prefix : forall st,
  maintains steady (turns n log_path prefix st).
Proof. induction n as [|n IH]; intros st; simpl; frames. Qed.
#[local] Hint Resolve steady_turns : frames.

Lemma steady_gather log_path arrival : forall out err,
  maintains steady (gather log_path arrival out err).
Proof.
  induction arrival as [|[|] later IH]; intros out err; simpl; frames;
    unfold _read_stream; frames.
Qed.
#[local] Hint Resolve steady_gather : frames.

Lemma steady_run_command_async_stream command log_path :
  maintains steady (run_command_async_stream command log_path).
Proof.
  unfold run_command_async_stream, run_command_async_stream_body, error_result. frames.
Qed.

Lemma steady_get_export_script idf_path : maintains steady (get_export_script idf_path).
Proof.
  unfold get_export_script, get_esp_idf_dir. frames.
Qed.

Lemma steady_write_log name content : maintains steady (_write_log LOG_DIR name content).
Proof. unfold _write_log, _ensure_log_dir. frames. Qed.

Lemma steady_log_path name : maintains steady (_log_path LOG_DIR name).
Proof. unfold _log_path, _ensure_log_dir. frames. Qed.

Lemma steady_timestamped name : maintains steady (_timestamped name).
Proof. unfold _timestamped. frames. Qed.

#[local] Hint Resolve steady_run_command_async_stream steady_get_export_script
  steady_write_log steady_log_path steady_timestamped : frames.

Lemma steady_flash_attempts n delay cmd log : forall current,
  maintains steady (flash_attempts n delay cmd log current).
Proof.
  induction n as [|n IH]; intros current; simpl; frames.
Qed.
#[local] Hint Resolve steady_flash_attempts : frames.

End MoreFrames.

(** ** The working directory *)

Lemma abspath_absolute (w : World) (p : str) : is_abs p = true -> abspath w p = p.
Proof. intros Hp. unfold abspath, os_path_join. now rewrite Hp. Qed.

Lemma chdir_enters (p : str) (w : World) :
  can_enter w p = true -> os_chdir p w = (inr tt, set_cwd (abspath w p) w).
Proof. intros Hp. unfold os_chdir. now rewrite Hp. Qed.

Lemma after_chdir {A} (p : str) (k : unit -> M A) (w : World) :
  can_enter w p = true -> (forall u, maintains steady (k u)) ->
  cwd (snd (bind (os_chdir p) k w)) = abspath w p.
Proof.
  intros Hp Hk. unfold bind. rewrite (chdir_enters p w Hp).
  destruct (Hk tt (set_cwd (abspath w p) w)) as (Hc & _). exact Hc.
Qed.

Lemma makedirs_then_enter (p : str) (w : World) :
  can_create_dir w p = true ->
  exists w', os_makedirs p w = (inr tt, w') /\ can_enter w' p = true /\
             abspath w' p = abspath w p.
Proof.
  intros Hp. unfold os_makedirs. rewrite Hp. eexists. split; [reflexivity |].
  split; [| reflexivity].
  unfold can_create_dir in Hp. apply andb_prop in Hp as [Hd _].
  unfold can_enter. change (abspath (set_dirs _ w) p) with (abspath w p).
  simpl. apply andb_true_intro. split; [| exact Hd].
  apply bool_decide_eq_true. apply elem_of_union_l, elem_of_list_to_set.
  destruct (String.length (abspath w p)); simpl.
  - apply list_elem_of_here.
  - destruct (_ || _); apply list_elem_of_here.
Qed.

Lemma well_placed_steady (w w' : World) : well_placed w -> steady w w' -> well_placed w'.
Proof.
  intros [Ha He] (Hc & Hd & Hn). unfold well_placed, can_enter, abspath in *.
  rewrite Hc, Hn. split; [exact Ha |].
  apply andb_prop in He as [He1 He2]. apply andb_true_intro. split; [| exact He2].
  apply bool_decide_eq_true. apply bool_decide_eq_true in He1. now apply Hd.
Qed.

Lemma homing_steady {A} (m : M A) : maintains steady m -> homing m.
Proof. intros Hm w _. apply Hm. Qed.

Lemma homing_bind {A B} (m : M A) (k : A -> M B) :
  homing m -> (forall a, homing (k a)) -> homing (bind m k).
Proof.
  intros Hm Hk w Hw. unfold bind. specialize (Hm w Hw).
  destruct (m w) as [[e|a] w']; simpl in *; [exact Hm |].
  etransitivity; [exact Hm |]. apply Hk. eapply well_placed_steady; eauto.
Qed.

(** [original = os.getcwd(); try: body finally: os.chdir(original)] ends in
    the directory it started in, whatever [body] does short of removing it. *)
Lemma homing_restore {A} (body : M A) :
  maintains settled body ->
  homing (let* original_dir := os_getcwd in try_finally body (os_chdir original_dir)).
Proof.
  intros Hb w [Ha He]. unfold bind, os_getcwd, try_finally.
  specialize (Hb w). destruct (body w) as [r w']. simpl in Hb.
  destruct Hb as (Hd & Hn).
  assert (Hback : can_enter w' (cwd w) = true).
  { unfold can_enter in *. rewrite !abspath_absolute in * by exact Ha.
    rewrite Hn. apply andb_prop in He as [He1 He2].
    apply andb_true_intro. split; [| exact He2].
    apply bool_decide_eq_true. apply bool_decide_eq_true in He1. now apply Hd. }
  rewrite (chdir_enters _ _ Hback). simpl.
  rewrite abspath_absolute by exact Ha. now repeat split.
Qed.

Section WorkingDirectory.
Context {rt : PyRuntime}.
Variable LOG_DIR : str.

#[local] Hint Resolve steady_run_command_async_stream steady_get_export_script
  steady_write_log steady_log_path steady_timestamped steady_flash_attempts : frames.

Lemma homing_run_pytest project_path test_path pytest_args idf_path :
  homing (run_pytest LOG_DIR project_path test_path pytest_args idf_path).
Proof. apply homing_restore. unfold run_pytest_body. frames. Qed.

Lemma homing_run_esp_idf_install idf_path : homing (run_esp_idf_install LOG_DIR idf_path).
Proof.
  unfold run_esp_idf_install.
  apply homing_bind; [apply homing_steady; frames | intros start_time].
  apply homing_bind.
  { apply homing_steady. unfold get_esp_idf_dir. frames. }
  intros [error_msg|esp_idf_dir]; [apply homing_steady; frames |].
  apply homing_bind; [apply homing_steady; frames | intros present].
  destruct (negb present); [apply homing_steady; frames |].
  apply homing_restore. unfold run_esp_idf_install_body. frames.
Qed.

(** C10: [build_esp_project], [setup_project_esp_target] and
    [flash_esp_project], given a project directory that can be entered, and
    [create_esp_project], given one that can be created, leave the process
    in the project directory: nothing changes it back, whether the call
    returns or raises.  [run_esp_idf_install] and [run_pytest] leave the
    process in the directory it was in, whether they return or raise. *)
Theorem tools_and_the_working_directory
    (w : World) (project_path new_project_path : str)
    (idf_path sdkconfig_defaults port port_filter : option str)
    (target project_name test_path pytest_args : str) :
  well_placed w ->
  can_enter w project_path = true ->
  can_create_dir w new_project_path = true ->
  cwd (world_after (build_esp_project LOG_DIR project_path idf_path sdkconfig_defaults) w)
    = abspath w project_path /\
  cwd (world_after (setup_project_esp_target LOG_DIR project_path target idf_path) w)
    = abspath w project_path /\
  cwd (world_after (create_esp_project LOG_DIR new_project_path project_name) w)
    = abspath w new_project_path /\
  cwd (world_after (flash_esp_project LOG_DIR project_path port port_filter) w)
    = abspath w project_path /\
  cwd (world_after (run_esp_idf_install LOG_DIR idf_path) w) = cwd w /\
  cwd (world_after (run_pytest LOG_DIR project_path test_path pytest_args idf_path) w) = cwd w.
Proof.
  intros Hw Hp Hnew. unfold world_after. repeat split.
  - unfold build_esp_project. unfold bind at 1. simpl.
    apply after_chdir; [exact Hp | intros u; frames].
  - unfold setup_project_esp_target. apply after_chdir; [exact Hp | intros u; frames].
  - unfold create_esp_project.
    destruct (makedirs_then_enter _ _ Hnew) as (w' & Hm & He & Ha).
    rewrite (bind_inr _ _ _ _ _ Hm), <- Ha.
    apply after_chdir; [exact He | intros u; frames].
  - unfold flash_esp_project. apply after_chdir; [exact Hp | intros u; frames].
  - apply homing_run_esp_idf_install, Hw.
  - apply homing_run_pytest, Hw.
Qed.

End WorkingDirectory.

(** ** The port listing *)

Lemma ltb_false_leb (a b : str) : String.ltb a b = false -> String.leb b a = true.
Proof.
  unfold String.ltb, String.leb. rewrite (String.compare_antisym a b).
  destruct (String.compare b a); simpl; congruence.
Qed.

Lemma ltb_leb (a b : str) : String.ltb a b = true -> String.leb a b = true.
Proof. unfold String.ltb, String.leb. destruct (String.compare a b); congruence. Qed.

Lemma leb_trans (a b c : str) :
  String.leb a b = true -> String.leb b c = true -> String.leb a c = true.
Proof.
  intros Hab Hbc. apply Is_true_true. apply Is_true_true in Hab, Hbc.
  exact (transitivity (R := String.le) Hab Hbc).
Qed.

Lemma port_rank_spec (p : Port) : _port_rank p = (preference p, sort_path p).
Proof.
  unfold _port_rank, preference, usb_native, sort_path, esp_vid.
  destruct (bool_decide _); simpl; [| reflexivity].
  destruct (_ || _); reflexivity.
Qed.

Lemma key_lt_false (p q : Port) :
  key_lt (_port_rank p) (_port_rank q) = false -> listed_before q p.
Proof.
  rewrite !port_rank_spec. unfold key_lt, listed_before. simpl. intros Hk.
  apply orb_false_iff in Hk as [Hlt Hrest]. apply Z.ltb_ge in Hlt.
  destruct (Z.eq_dec (preference p) (preference q)) as [Heq|Hne]; [| left; lia].
  right. split; [now symmetry |].
  rewrite Heq, Z.eqb_refl in Hrest. simpl in Hrest. now apply ltb_false_leb.
Qed.

Lemma key_lt_true (p q : Port) :
  key_lt (_port_rank p) (_port_rank q) = true -> listed_before p q.
Proof.
  rewrite !port_rank_spec. unfold key_lt, listed_before. simpl. intros Hk.
  apply orb_true_iff in Hk as [Hlt|Hrest]; [left; now apply Z.ltb_lt |].
  apply andb_prop in Hrest as [Heq Hs]. apply Z.eqb_eq in Heq.
  right. split; [exact Heq | now apply ltb_leb].
Qed.

Lemma listed_before_trans (p q r : Port) :
  listed_before p q -> listed_before q r -> listed_before p r.
Proof.
  unfold listed_before. intros [H1|[H1 S1]] [H2|[H2 S2]]; try (left; lia).
  right. split; [lia | eapply leb_trans; eauto].
Qed.

Lemma insert_by_key_perm (x : Port) (l : list Port) :
  Permutation (x :: l) (insert_by_key _port_rank x l).
Proof.
  induction l as [|y l IH]; simpl; [reflexivity |].
  destruct (key_lt _ _); [| reflexivity].
  rewrite perm_swap. now apply perm_skip.
Qed.

Lemma insert_by_key_hd (x a : Port) (l : list Port) :
  listed_before a x -> HdRel listed_before a l ->
  HdRel listed_before a (insert_by_key _port_rank x l).
Proof.
  intros Hax Hal. destruct l as [|y l]; simpl; [now constructor |].
  destruct (key_lt _ _); constructor; [now inversion Hal | exact Hax].
Qed.

Lemma insert_by_key_sorted (x : Port) (l : list Port) :
  Sorted listed_before l -> Sorted listed_before (insert_by_key _port_rank x l).
Proof.
  induction 1 as [|y l Hs IH Hhd]; simpl; [repeat constructor |].
  destruct (key_lt (_port_rank y) (_port_rank x)) eqn:Hk.
  - constructor; [exact IH |]. apply insert_by_key_hd; [now apply key_lt_true | exact Hhd].
  - constructor; [now constructor |]. constructor. now apply key_lt_false.
Qed.

Lemma sort_by_key_perm (l : list Port) : Permutation l (sort_by_key _port_rank l).
Proof.
  induction l as [|x l IH]; simpl; [reflexivity |].
  etransitivity; [apply perm_skip, IH | apply insert_by_key_perm].
Qed.

Lemma sort_by_key_sorted (l : list Port) :
  StronglySorted listed_before (sort_by_key _port_rank l).
Proof.
  apply Sorted_StronglySorted; [exact listed_before_trans |].
  induction l as [|x l IH]; simpl; [constructor | now apply insert_by_key_sorted].
Qed.

(** X18: ports that the key does not tell apart stay in the order of
    enumeration: the sort of [list_serial_ports] is stable. *)
Lemma sort_by_key_stable (l : list Port) (k : Z * str) :
  List.filter (fun p => bool_decide (_port_rank p = k)) (sort_by_key _port_rank l) =
  List.filter (fun p => bool_decide (_port_rank p = k)) l.
Proof.
  induction l as [|x l IH]; simpl; [reflexivity |]. rewrite <- IH.
  generalize (sort_by_key _port_rank l) as s. clear IH.
  induction s as [|y s IHs]; simpl; [reflexivity |].
  destruct (key_lt (_port_rank y) (_port_rank x)) eqn:Hk; simpl; [| reflexivity].
  rewrite IHs.
  destruct (bool_decide (_port_rank x = k)) eqn:Hx; [| reflexivity].
  destruct (bool_decide (_port_rank y = k)) eqn:Hy; [| reflexivity].
  apply bool_decide_eq_true in Hx, Hy. rewrite Hx, Hy in Hk.
  unfold key_lt in Hk. rewrite Z.ltb_irrefl, Z.eqb_refl in Hk. simpl in Hk.
  unfold String.ltb in Hk.
  assert (Hc : String.compare (snd k) (snd k) = Eq).
  { destruct (String.compare (snd k) (snd k)) eqn:E; [reflexivity | |];
      pose proof (String.compare_antisym (snd k) (snd k)) as Ha;
      rewrite E in Ha; discriminate. }
  rewrite Hc in Hk. discriminate.
Qed.

Lemma filter_as_bool {A} (P : A -> Prop) `{forall x, Decision (P x)} (l : list A) :
  filter P l = List.filter (fun x => bool_decide (P x)) l.
Proof.
  induction l as [|x l IH]; [reflexivity |].
  rewrite filter_cons. simpl. rewrite <- IH.
  destruct (decide (P x)) as [Hp|Hp].
  - now rewrite (bool_decide_eq_true_2 _ Hp).
  - now rewrite (bool_decide_eq_false_2 _ Hp).
Qed.

Lemma filters_pass (vid pid : option Z) (ports : list Port) :
  filter_pid pid (filter_vid vid ports) = List.filter (passes vid pid) ports.
Proof.
  unfold filter_pid, filter_vid, passes.
  destruct vid as [v|], pid as [q|]; rewrite ?filter_as_bool.
  - induction ports as [|p ports IH]; simpl; [reflexivity |].
    destruct (bool_decide (port_vid p = Some v)); simpl; [| exact IH].
    destruct (bool_decide (port_pid p = Some q)); simpl; now rewrite IH.
  - apply List.filter_ext. intros p. now rewrite andb_true_r.
  - reflexivity.
  - induction ports as [|p ports IH]; simpl; [reflexivity | now f_equal].
Qed.

Lemma holds_from_spec (check : N -> bool) (count : nat) : forall first m,
  holds_from check count first = true ->
  (first <= m < first + N.of_nat count)%N -> check m = true.
Proof.
  induction count as [|count IH]; intros first m Hall Hm; [lia |].
  simpl in Hall. apply andb_prop in Hall as [Hfirst Hrest].
  destruct (N.eq_dec m first) as [->|Hne]; [exact Hfirst |].
  apply (IH (first + 1)%N); [exact Hrest | lia].
Qed.

Lemma format_04x_16bit (n : Z) :
  0 <= n < 65536 -> format_04x n = hex4 (Z.to_N n).
Proof.
  intros Hn.
  assert (Hall : holds_from (fun k => String.eqb (format_04x (Z.of_N k)) (hex4 k))
                            (N.to_nat 65536) 0 = true) by (vm_compute; reflexivity).
  pose proof (holds_from_spec _ _ 0%N (Z.to_N n) Hall) as Hk. cbv beta in Hk.
  rewrite N2Nat.id, Z2N.id in Hk by lia. apply String.eqb_eq, Hk. lia.
Qed.

Lemma digit_char_lower_hex (d : N) : (d < 16)%N -> is_lower_hex (digit_char d) = true.
Proof.
  intros Hd.
  assert (Hall : holds_from (fun k => is_lower_hex (digit_char k)) (N.to_nat 16) 0 = true)
    by (vm_compute; reflexivity).
  apply (holds_from_spec _ _ 0%N d Hall). rewrite N2Nat.id. lia.
Qed.

Section PortListing.
Context {rt : PyRuntime}.

Lemma list_serial_ports_imported (vid pid : option Z) (w : World) (r : exn + list Port) :
  pyserial w = Importable r ->
  list_serial_ports vid pid w =
    (inr match r with
         | inl e => static_list e
         | inr ports =>
             listing (match vid, pid with
                      | None, None => sort_by_key _port_rank ports
                      | _, _ => List.filter (passes vid pid) ports
                      end)
         end, w).
Proof.
  intros Hpy.
  unfold list_serial_ports, try_except, bind, import_list_ports,
    list_serial_ports_structured, bind, list_ports_comports.
  rewrite Hpy. simpl. rewrite Hpy. destruct r as [e|ports]; simpl; [reflexivity |].
  unfold listing.
  destruct vid as [v|], pid as [q|];
    [rewrite filters_pass .. | unfold filter_pid, filter_vid];
    match goal with |- context [map port_line ?l] => destruct (map port_line l) end;
    reflexivity.
Qed.

Lemma list_serial_ports_not_imported (vid pid : option Z) (w : World) (e : exn) :
  pyserial w = NotImportable e ->
  outcome (list_serial_ports vid pid) w =
    inr match outcome list_serial_ports_subprocess w with
        | inr result => result
        | inl e' => static_list e'
        end.
Proof.
  intros Hpy.
  unfold outcome, list_serial_ports, try_except, bind, import_list_ports.
  rewrite Hpy. simpl.
  destruct (list_serial_ports_subprocess w) as [[e'|result] w']; reflexivity.
Qed.

(** C5 (amended): without filters, once pyserial is imported and has
    enumerated the ports, the list that is returned holds the same ports,
    ordered by preference class (vendor 0x303A with a USB-native device
    path, then vendor 0x303A, then the rest) and within a class by the
    lexical order of the lower-cased device path. *)
Theorem unfiltered_listing_order (w : World) (ports : list Port) :
  pyserial w = Importable (inr ports) ->
  exists listed,
    outcome (list_serial_ports None None) w = inr (listing listed) /\
    Permutation ports listed /\
    StronglySorted listed_before listed.
Proof.
  intros Hpy. exists (sort_by_key _port_rank ports). split; [| split].
  - unfold outcome. now rewrite (list_serial_ports_imported None None w _ Hpy).
  - apply sort_by_key_perm.
  - apply sort_by_key_sorted.
Qed.

(** C6 (amended): with a vendor-ID filter, a product-ID filter or both, once
    pyserial is imported and has enumerated the ports, the output lists exactly the
    ports whose IDs equal the filters given, in the order of enumeration,
    one line each; a line shows a 16-bit ID as "0x" and four lowercase
    hexadecimal digits and an absent ID as "unknown". *)
Theorem filtered_listing (w : World) (ports : list Port) (vid pid : option Z) :
  pyserial w = Importable (inr ports) ->
  is_Some vid \/ is_Some pid ->
  outcome (list_serial_ports vid pid) w = inr (listing (List.filter (passes vid pid) ports)) /\
  (forall p,
     port_line p =
       rstrip (str_or_None (port_device p) +:+ tab +:+ "vid=" +:+ id_str (port_vid p) +:+
               " pid=" +:+ id_str (port_pid p) +:+ " " +:+
               from_option id "" (port_description p))) /\
  id_str None = "unknown" /\
  (forall n, 0 <= n < 65536 ->
     id_str (Some n) = "0x" +:+ hex4 (Z.to_N n)) /\
  (forall d, (d < 16)%N -> is_lower_hex (digit_char d) = true).
Proof.
  intros Hpy Hsome. split; [| split; [| split; [| split]]].
  - unfold outcome. rewrite (list_serial_ports_imported vid pid w _ Hpy). simpl.
    destruct vid as [v|], pid as [q|]; try reflexivity.
    destruct Hsome as [[? ?]|[? ?]]; discriminate.
  - reflexivity.
  - reflexivity.
  - intros n Hn. unfold id_str. now rewrite format_04x_16bit.
  - exact digit_char_lower_hex.
Qed.

Lemma append_nl_nonempty (s : str) : s +:+ nl <> "".
Proof. destruct s; discriminate. Qed.

Lemma listing_not_empty (ports : list Port) :
  snd (fst (listing ports)) <> "" \/ snd (listing ports) <> "".
Proof.
  unfold listing. destruct (map port_line ports) as [|l ls]; cbn [fst snd].
  - right. discriminate.
  - left. apply append_nl_nonempty.
Qed.

(** C7 (amended): whatever the filters, once pyserial is imported
    [list_serial_ports] returns exit code 0 with a non-empty stdout or
    stderr: the static list of common device paths when the enumeration
    raises, the message that no port matched when none passes the filters.
    When the import fails it launches "python -m serial.tools.list_ports"
    once and returns the exit code of that process with its decoded stdout
    and stderr, as they are; it returns the static list with exit code 0
    only when that process cannot be launched, a pipe cannot be read or an
    output cannot be decoded. *)
Theorem port_listing_degraded_paths (vid pid : option Z) (w : World) :
  match pyserial w with
  | Importable r =>
      exists out err,
        outcome (list_serial_ports vid pid) w = inr (0, out, err) /\
        (out <> "" \/ err <> "") /\
        match r with
        | inl e => (0, out, err) = static_list e
        | inr ports =>
            List.filter (passes vid pid) ports = [] ->
            out = "" /\ err = "No serial ports matched the requested filter."
        end
  | NotImportable _ =>
      launched (world_after (list_serial_ports vid pid) w) =
        launched w ++ ["python -m serial.tools.list_ports"] /\
      outcome (list_serial_ports vid pid) w =
        inr match shell w "python -m serial.tools.list_ports" (length (launched w)) with
            | inl e => static_list e
            | inr process =>
                match read_all (proc_stdout process) with
                | inl e => static_list e
                | inr stdout =>
                    match read_all (proc_stderr process) with
                    | inl e => static_list e
                    | inr stderr =>
                        match decode_strict stdout with
                        | inl e => static_list e
                        | inr out =>
                            match decode_strict stderr with
                            | inl e => static_list e
                            | inr err => (proc_returncode process, out, err)
                            end
                        end
                    end
                end
            end
  end.
Proof.
  destruct (pyserial w) as [e|r] eqn:Hpy.
  - unfold outcome, world_after, list_serial_ports, try_except, bind, import_list_ports.
    rewrite Hpy.
    unfold list_serial_ports_subprocess, ports_fallback, static_list, bind,
      create_subprocess_shell, process_communicate, bind, lift, process_wait, ret, raise.
    destruct (shell w _ (length (launched w))) as [e1|p]; simpl; [now split |].
    destruct (read_all (proc_stdout p)) as [e1|out]; simpl; [now split |].
    destruct (read_all (proc_stderr p)) as [e1|err]; simpl; [now split |].
    destruct (decode_strict out) as [e1|o]; simpl; [now split |].
    destruct (decode_strict err) as [e1|e']; simpl; now split.
  - unfold outcome. rewrite (list_serial_ports_imported vid pid w r Hpy). simpl.
    destruct r as [e|ports].
    + eexists _, _. split; [reflexivity |]. split; [| reflexivity].
      right. simpl. discriminate.
    + set (shown := match vid, pid with
                    | None, None => sort_by_key _port_rank ports
                    | _, _ => List.filter (passes vid pid) ports
                    end).
      destruct (listing shown) as [[code out] err] eqn:Hl.
      assert (Hcode : code = 0).
      { unfold listing in Hl. destruct (map port_line shown); now inversion Hl. }
      subst code. exists out, err. split; [reflexivity |]. split.
      * pose proof (listing_not_empty shown) as Hne. now rewrite Hl in Hne.
      * intros Hnone.
        assert (Hshown : shown = []).
        { subst shown. destruct vid, pid; try exact Hnone.
          simpl in Hnone. rewrite List.filter_true in Hnone || idtac.
          destruct ports; [reflexivity |]. simpl in Hnone. discriminate. }
        rewrite Hshown in Hl. unfold listing in Hl. simpl in Hl. now inversion Hl.
Qed.

End PortListing.

(** ** The two drains of the streaming runner *)

#[local] Instance same_time_preorder : PreOrder same_time.
Proof.
  split; [intros w; reflexivity |].
  intros w1 w2 w3 H12 H23. unfold same_time in *. congruence.
Qed.

Lemma same_time_append_to_file p t : maintains same_time (append_to_file p t).
Proof. intros w. unfold append_to_file. destruct (can_open_for_write w p); reflexivity. Qed.
Lemma same_time_readline s : maintains same_time (readline s).
Proof. destruct s as [|[b|e] s]; unfold readline; frames. Qed.

#[local] Hint Resolve same_time_append_to_file same_time_readline : frames.

Section Drains.
Context {rt : PyRuntime}.
Variable log_path : str.

Lemma same_time_read_stream_turn prefix st :
  maintains same_time (_read_stream_turn log_path prefix st).
Proof. destruct st as [[s|] chunks]; simpl; frames. Qed.
#[local] Hint Resolve same_time_read_stream_turn : frames.

Lemma same_time_turns n prefix : forall st,
  maintains same_time (turns n log_path prefix st).
Proof. induction n as [|n IH]; intros st; simpl; frames. Qed.
#[local] Hint Resolve same_time_turns : frames.

Lemma same_time_gather arrival : forall out err,
  maintains same_time (gather log_path arrival out err).
Proof.
  induction arrival as [|[|] later IH]; intros out err; simpl; frames;
    unfold _read_stream; frames.
Qed.

(** [gather] takes the lines as they arrive, whichever pipe they are on,
    and returns with both readers at the end of their pipe. *)
Lemma gather_follows_arrival (arrival : list bool) :
  forall (out_lines err_lines : list bytes) (ro re : reader) (co ce : list str) (w : World),
    unread ro = map Data out_lines -> unread re = map Data err_lines ->
    Forall (fun b => whole_line b = true) out_lines ->
    Forall (fun b => whole_line b = true) err_lines ->
    can_open_for_write w log_path = true ->
    exists w',
      gather log_path arrival (ro, co) (re, ce) w =
        (inr ((AtEof, co ++ map decode_replace out_lines),
              (AtEof, ce ++ map decode_replace err_lines)), w') /\
      grew_by log_path
        (render (schedule arrival (map decode_replace out_lines)
                                  (map decode_replace err_lines))) w w'.
Proof.
  induction arrival as [|[|] later IH]; intros o e ro re co ce w Ho He Hlo Hle Hopen.
  - destruct (read_stream_lines log_path true o ro co w Ho Hlo Hopen) as (w1 & H1 & Hg1).
    destruct (read_stream_lines log_path false e re ce w1 He Hle
                (grew_by_can_open _ _ _ _ Hg1 Hopen)) as (w2 & H2 & Hg2).
    exists w2. split.
    + simpl gather. change (tag_prefix true) with "[stdout] " in H1.
      change (tag_prefix false) with "[stderr] " in H2.
      rewrite (bind_inr _ _ _ _ _ H1), (bind_inr _ _ _ _ _ H2). reflexivity.
    + cbn [schedule]. rewrite render_app. eapply grew_by_trans; eauto.
  - destruct o as [|b o].
    + assert (Ht : _read_stream_turn log_path "[stdout] " (ro, co) w = (inr (AtEof, co), w)).
      { destruct ro as [s|]; simpl in Ho; [subst s |]; reflexivity. }
      destruct (IH [] e AtEof re co ce w eq_refl He Hlo Hle Hopen) as (w' & Hg & Hgrew).
      exists w'. split; [| exact Hgrew].
      simpl gather. now rewrite (bind_inr _ _ _ _ _ Ht).
    + destruct ro as [s|]; simpl in Ho; [subst s | discriminate].
      inversion Hlo as [|? ? Hb Hlo']; subst.
      destruct (turn_line log_path "[stdout] " b (map Data o) co w Hopen Hb)
        as (w1 & Ht & Hg1).
      destruct (IH o e (Reading (map Data o)) re (co ++ [decode_replace b]) ce w1
                  eq_refl He Hlo' Hle (grew_by_can_open _ _ _ _ Hg1 Hopen))
        as (w' & Hg & Hgrew).
      exists w'. split.
      * simpl gather. rewrite (bind_inr _ _ _ _ _ Ht), Hg. now rewrite <- app_assoc.
      * change (render (schedule (true :: later) (map decode_replace (b :: o))
                          (map decode_replace e)))
          with (("[stdout] " +:+ decode_replace b) +:+
                render (schedule later (map decode_replace o) (map decode_replace e))).
        eapply grew_by_trans; eauto.
  - destruct e as [|b e].
    + assert (Ht : _read_stream_turn log_path "[stderr] " (re, ce) w = (inr (AtEof, ce), w)).
      { destruct re as [s|]; simpl in He; [subst s |]; reflexivity. }
      destruct (IH o [] ro AtEof co ce w Ho eq_refl Hlo Hle Hopen) as (w' & Hg & Hgrew).
      exists w'. split; [| exact Hgrew].
      simpl gather. now rewrite (bind_inr _ _ _ _ _ Ht).
    + destruct re as [s|]; simpl in He; [subst s | discriminate].
      inversion Hle as [|? ? Hb Hle']; subst.
      destruct (turn_line log_path "[stderr] " b (map Data e) ce w Hopen Hb)
        as (w1 & Ht & Hg1).
      destruct (IH o e ro (Reading (map Data e)) co (ce ++ [decode_replace b]) w1
                  Ho eq_refl Hlo Hle' (grew_by_can_open _ _ _ _ Hg1 Hopen))
        as (w' & Hg & Hgrew).
      exists w'. split.
      * simpl gather. rewrite (bind_inr _ _ _ _ _ Ht), Hg. now rewrite <- app_assoc.
      * change (render (schedule (false :: later) (map decode_replace o)
                          (map decode_replace (b :: e))))
          with (("[stderr] " +:+ decode_replace b) +:+
                render (schedule later (map decode_replace o) (map decode_replace e))).
        eapply grew_by_trans; eauto.
Qed.

(** C4 (amended): in a call whose command launches, whose pipes deliver
    whole lines of at most 65536 bytes and whose log can be appended to,
    the two drains are interleaved by arrival: each line is taken and
    logged when it becomes ready, whichever pipe it is on, so neither drain
    waits for the other to end.  [gather] returns only with both readers at
    the end of their pipe, no time having passed on the clock; only then
    does the runner wait for the process, and it returns the exit code with
    all the lines of each pipe.  (When a reader raises, the runner returns
    its error result without either: see the scenarios.) *)
Theorem drains_follow_arrival
    (command : str) (w : World) (p : Process) (out_lines err_lines : list bytes) :
  shell w command (length (launched w)) = inr p ->
  proc_stdout p = map Data out_lines ->
  proc_stderr p = map Data err_lines ->
  Forall (fun b => whole_line b = true) out_lines ->
  Forall (fun b => whole_line b = true) err_lines ->
  can_open_for_write w log_path = true ->
  let outs := map decode_replace out_lines in
  let errs := map decode_replace err_lines in
  exists joined,
    gather log_path (proc_arrival p)
      (Reading (proc_stdout p), []) (Reading (proc_stderr p), [])
      (set_launched (launched w ++ [command]) w) =
      (inr ((AtEof, outs), (AtEof, errs)), joined) /\
    file_content joined log_path =
      file_content w log_path +:+ render (schedule (proc_arrival p) outs errs) /\
    clock joined = clock w /\
    run_command_async_stream command log_path w =
      (inr (proc_returncode p, join "" outs, join "" errs),
       set_clock (clock joined + proc_duration p)%Q joined).
Proof.
  intros Hshell Hout Herr Hlo Hle Hopen. cbv zeta.
  set (w0 := set_launched (launched w ++ [command]) w).
  assert (Hopen0 : can_open_for_write w0 log_path = true) by exact Hopen.
  destruct (gather_follows_arrival (proc_arrival p) out_lines err_lines
              (Reading (proc_stdout p)) (Reading (proc_stderr p)) [] [] w0
              Hout Herr Hlo Hle Hopen0) as (w1 & Hg & [_ Hf]).
  exists w1. split; [exact Hg |]. split; [exact Hf |]. split.
  - pose proof (same_time_gather (proc_arrival p) (Reading (proc_stdout p), [])
                  (Reading (proc_stderr p), []) w0) as Hclock.
    rewrite Hg in Hclock. exact Hclock.
  - unfold run_command_async_stream, try_except, run_command_async_stream_body.
    unfold bind at 1. unfold create_subprocess_shell. rewrite Hshell.
    fold w0. unfold bind at 1. rewrite Hg. reflexivity.
Qed.

End Drains.

(** ** The flash retry loop *)

Lemma idle_append_to_file p t : maintains idle (append_to_file p t).
Proof. primitive. Qed.
Lemma idle_readline s : maintains idle (readline s).
Proof. destruct s as [|[b|e] s]; unfold readline; frames. Qed.

#[local] Hint Resolve idle_append_to_file idle_readline : frames.

Section FlashRetry.
Context {rt : PyRuntime}.
Variable LOG_DIR : str.

Lemma idle_read_stream_turn log_path prefix st :
  maintains idle (_read_stream_turn log_path prefix st).
Proof. destruct st as [[s|] chunks]; simpl; frames. Qed.
#[local] Hint Resolve idle_read_stream_turn : frames.

Lemma idle_turns n log_path prefix : forall st,
  maintains idle (turns n log_path prefix st).
Proof. induction n as [|n IH]; intros st; simpl; frames. Qed.
#[local] Hint Resolve idle_turns : frames.

Lemma idle_gather log_path arrival : forall out err,
  maintains idle (gather log_path arrival out err).
Proof.
  induction arrival as [|[|] later IH]; intros out err; simpl; frames;
    unfold _read_stream; frames.
Qed.
#[local] Hint Resolve idle_gather : frames.

(** One run of the streaming runner is one launch and no sleep; the exit
    code it returns is the one of the process, or 1. *)
Lemma run_command_async_stream_once (command log_path : str) (w : World) :
  exists rc out err w',
    run_command_async_stream command log_path w = (inr (rc, out, err), w') /\
    launched w' = launched w ++ [command] /\ slept w' = slept w /\ shell w' = shell w /\
    match shell w command (length (launched w)) with
    | inr p => rc = proc_returncode p \/ rc = 1
    | inl _ => rc = 1
    end.
Proof.
  unfold run_command_async_stream, try_except, run_command_async_stream_body.
  unfold bind at 1. unfold create_subprocess_shell.
  destruct (shell w command (length (launched w))) as [e|p].
  - eexists _, _, _, _. split; [reflexivity |]. now repeat split.
  - set (w0 := set_launched (launched w ++ [command]) w).
    unfold bind at 1.
    pose proof (idle_gather log_path (proc_arrival p)
                  (Reading (proc_stdout p), []) (Reading (proc_stderr p), []) w0) as Hidle.
    destruct (gather log_path (proc_arrival p) _ _ w0) as [[e|[out err]] w1];
      simpl in Hidle; destruct Hidle as (Hl & Hs & Hsh).
    + eexists _, _, _, _. split; [reflexivity |]. simpl.
      rewrite Hl, Hs, Hsh. repeat split. now right.
    + eexists _, _, _, _. split; [reflexivity |]. simpl.
      rewrite Hl, Hs, Hsh. repeat split. now left.
Qed.

Lemma nanoseconds_sleepable (q : Q) :
  sleepable q = true -> 0 <= nanoseconds q <= 9223372036000000000.
Proof.
  unfold sleepable, longest_sleep. intros Hq. apply andb_prop in Hq as [Hlo Hhi].
  apply Qle_bool_iff in Hlo, Hhi.
  assert (Hpos : (0 <= q * 1000000000)%Q).
  { apply Qmult_le_0_compat; [exact Hlo | discriminate]. }
  unfold nanoseconds, round_away.
  rewrite (proj2 (Qle_bool_iff 0 (q * 1000000000)) Hpos). split.
  - change 0 with (Qceiling 0). now apply Qceiling_resp_le.
  - change 9223372036000000000 with (Qceiling (inject_Z 9223372036000000000)).
    apply Qceiling_resp_le.
    apply Qle_trans with (9223372036 * 1000000000)%Q;
      [apply Qmult_le_compat_r; [exact Hhi | discriminate]
      | apply Qle_bool_iff; reflexivity].
Qed.

Lemma time_sleep_sleepable (q : Q) (w : World) :
  sleepable q = true -> sleep_refused q = None ->
  time_sleep (Finite q) w =
    (inr tt, set_clock (clock w + q)%Q (set_slept (slept w ++ [q]) w)).
Proof.
  intros Hq Hos. apply nanoseconds_sleepable in Hq. unfold time_sleep. cbv zeta.
  rewrite Hos.
  assert (Hmin : PyTime_MIN = -9223372036854775808) by reflexivity.
  assert (Hmax : PyTime_MAX = 9223372036854775807) by reflexivity.
  rewrite (proj2 (Z.ltb_ge _ _)) by lia. rewrite (proj2 (Z.ltb_ge _ _)) by lia.
  cbn [orb]. now rewrite (proj2 (Z.ltb_ge _ _)) by lia.
Qed.

(** When no launch of the flash command ends with exit code 0, the loop
    launches it once per attempt and sleeps after each attempt, the last
    one included. *)
Lemma flash_attempts_all_fail (delay : Q) (flash_cmd flash_log_path : str) (n : nat) :
  sleepable delay = true -> sleep_refused delay = None ->
  forall (current : Z * str * str) (w : World),
    (forall k, match shell w flash_cmd k with
               | inr p => proc_returncode p <> 0
               | inl _ => True
               end) ->
    let w' := world_after (flash_attempts n (Finite delay) flash_cmd flash_log_path
                             current) w in
    launched w' = launched w ++ repeat flash_cmd n /\
    slept w' = slept w ++ repeat delay n /\
    shell w' = shell w.
Proof.
  intros Hdelay Hos. induction n as [|n IH]; intros current w Hfail; cbv zeta.
  - unfold world_after. simpl. now rewrite !app_nil_r.
  - destruct (run_command_async_stream_once flash_cmd flash_log_path w)
      as (rc & out & err & w1 & Hrun & Hl & Hs & Hsh & Hrc).
    assert (Hnz : (rc =? 0) = false).
    { apply Z.eqb_neq. specialize (Hfail (length (launched w))).
      destruct (shell w flash_cmd (length (launched w))); [lia |].
      destruct Hrc; lia. }
    set (w2 := set_clock (clock w1 + delay)%Q (set_slept (slept w1 ++ [delay]) w1)).
    assert (Hstep : flash_attempts (S n) (Finite delay) flash_cmd flash_log_path current w =
                    flash_attempts n (Finite delay) flash_cmd flash_log_path (rc, out, err) w2).
    { simpl. rewrite (bind_inr _ _ _ _ _ Hrun). simpl. rewrite Hnz.
      now rewrite (bind_inr _ _ _ _ _ (time_sleep_sleepable delay w1 Hdelay Hos)). }
    assert (Hfail2 : forall k, match shell w2 flash_cmd k with
                               | inr p => proc_returncode p <> 0
                               | inl _ => True
                               end).
    { intros k. subst w2. simpl. rewrite Hsh. apply Hfail. }
    destruct (IH (rc, out, err) w2 Hfail2) as (Hl2 & Hs2 & Hsh2).
    cbv zeta in Hl2, Hs2, Hsh2.
    unfold world_after in *. rewrite Hstep, Hl2, Hs2, Hsh2. subst w2. simpl.
    rewrite Hl, Hs, Hsh, <- !app_assoc. now repeat split.
Qed.

End FlashRetry.

(** ** Without a toolchain path *)

Section Unconfigured.
Context {rt : PyRuntime}.
Variable LOG_DIR : str.

Lemma get_esp_idf_dir_unconfigured (idf_path : option str) (w : World) :
  nonblank idf_path = None -> environ w !! "IDF_PATH" = None ->
  get_esp_idf_dir (nonblank idf_path) w = (inl (Raised ValueError missing_idf_path), w).
Proof.
  intros Hblank Hunset. rewrite Hblank.
  unfold get_esp_idf_dir, bind, environ_has. simpl. now rewrite Hunset.
Qed.

(** With no path given and [IDF_PATH] unset, [build_esp_project] enters the
    project directory and then raises [ValueError]; nothing else happens. *)
Lemma build_esp_project_unconfigured
    (project_path : str) (idf_path sdkconfig_defaults : option str) (w : World) :
  nonblank idf_path = None -> environ w !! "IDF_PATH" = None ->
  can_enter w project_path = true ->
  build_esp_project LOG_DIR project_path idf_path sdkconfig_defaults w =
    (inl (Raised ValueError missing_idf_path), set_cwd (abspath w project_path) w).
Proof.
  intros Hblank Hunset Henter.
  unfold build_esp_project, bind at 1, time_time.
  rewrite (bind_inr _ _ _ _ _ (chdir_enters _ _ Henter)).
  unfold get_export_script, bind.
  now rewrite (get_esp_idf_dir_unconfigured idf_path
                 (set_cwd (abspath w project_path) w) Hblank Hunset).
Qed.

(** [run_esp_idf_install] returns the message instead, and changes nothing. *)
Lemma run_esp_idf_install_unconfigured (idf_path : option str) (w : World) :
  nonblank idf_path = None -> environ w !! "IDF_PATH" = None ->
  run_esp_idf_install LOG_DIR idf_path w = (inr ("", missing_idf_path), w).
Proof.
  intros Hblank Hunset.
  unfold run_esp_idf_install, bind at 1, time_time. unfold bind at 1, try_except, bind at 1.
  now rewrite (get_esp_idf_dir_unconfigured idf_path _ Hblank Hunset).
Qed.

End Unconfigured.

(** ** Snapshot names *)

Lemma pad_dec_two (n : N) : (n < 100)%N -> pad_dec 2 n = dec2 n.
Proof.
  intros Hn.
  assert (Hall : holds_from (fun k => String.eqb (pad_dec 2 k) (dec2 k))
                            (N.to_nat 100) 0 = true) by (vm_compute; reflexivity).
  apply String.eqb_eq. apply (holds_from_spec _ _ 0%N n Hall). rewrite N2Nat.id. lia.
Qed.

Lemma pad_dec_four (n : N) : (n < 10000)%N -> pad_dec 4 n = dec4 n.
Proof.
  intros Hn.
  assert (Hall : holds_from (fun k => String.eqb (pad_dec 4 k) (dec4 k))
                            (N.to_nat 10000) 0 = true) by (vm_compute; reflexivity).
  apply String.eqb_eq. apply (holds_from_spec _ _ 0%N n Hall). rewrite N2Nat.id. lia.
Qed.

(** X17: [_timestamped(name)] is [name], a hyphen, the local date as eight
    digits, a hyphen, the local time as six digits, and ".log". *)
Lemma timestamped_name (name : str) (w : World) :
  let t := localtime w (clock w) in
  (tm_year t < 10000)%N -> (tm_mon t < 100)%N -> (tm_mday t < 100)%N ->
  (tm_hour t < 100)%N -> (tm_min t < 100)%N -> (tm_sec t < 100)%N ->
  _timestamped name w =
    (inr (name +:+ "-" +:+
          (dec4 (tm_year t) +:+ dec2 (tm_mon t) +:+ dec2 (tm_mday t) +:+ "-" +:+
           dec2 (tm_hour t) +:+ dec2 (tm_min t) +:+ dec2 (tm_sec t)) +:+ ".log"), w).
Proof.
  intros t Hy Hmo Hd Hh Hmi Hs.
  unfold _timestamped, bind, time_strftime, ret, strftime_stamp. fold t.
  now rewrite pad_dec_four, !pad_dec_two by assumption.
Qed.

(** ** The scenarios, run *)

Lemma stream_runner_appends_tagged_lines_witness :
  outcome (run_command_async_stream (rt := ascii_runtime) "make" live_log)
          (workstation with_idf (chatty 0)) =
    inr (0, "hello" +:+ nl +:+ "bye" +:+ nl, "warn" +:+ nl) /\
  exists appended,
    file_content (world_after (run_command_async_stream (rt := ascii_runtime) "make" live_log)
                    (workstation with_idf (chatty 0))) live_log =
      file_content (workstation with_idf (chatty 0)) live_log +:+ appended /\
    count_prefixed "[stdout] " appended = 2%nat /\
    count_prefixed "[stderr] " appended = 1%nat /\
    length (lines_of appended) = 3%nat.
Proof.
  exact (stream_runner_appends_tagged_lines (rt := ascii_runtime) live_log "make"
           (workstation with_idf (chatty 0)) (chatty 0)
           ["hello" +:+ nl; "bye" +:+ nl] ["warn" +:+ nl]
           (fun b Hb => Hb) eq_refl eq_refl eq_refl
           ltac:(repeat constructor) ltac:(repeat constructor)
           ltac:(vm_compute; reflexivity)).
Defined.

(** C1 as stated fails on a log file that holds lines already, as it does
    from the second attempt of a flash on: after a second run of a command
    that writes two lines to stdout, four lines of the log start with
    "[stdout] ".  It also fails on a log path that cannot be opened: the
    runner then returns exit code 1 and no stdout text. *)
Lemma stream_runner_log_keeps_earlier_lines :
  let run := run_command_async_stream (rt := ascii_runtime) "make" live_log in
  let second := world_after run (workstation with_idf (chatty 0)) in
  (shell second "make" (length (launched second)) = inr (chatty 0) /\
   proc_stdout (chatty 0) = map Data ["hello" +:+ nl; "bye" +:+ nl] /\
   can_open_for_write second live_log = true /\
   count_prefixed "[stdout] " (file_content (world_after run second) live_log) = 4%nat /\
   count_prefixed "[stdout] " (file_content (world_after run second) live_log)
     <> length ["hello" +:+ nl; "bye" +:+ nl]) /\
  outcome (run_command_async_stream (rt := ascii_runtime) "make" "/nowhere/live.log")
          (workstation with_idf (chatty 0)) =
    inr (1, "",
         "Error executing command: [Errno 2] No such file or directory: '/nowhere/live.log'").
Proof. vm_compute. repeat split; discriminate. Qed.

(** C1 as first stated also fails for a line beyond the limit of the
    reader: [readline] raises, nothing is logged and the texts are lost. *)
Example stream_runner_line_too_long :
  let w := workstation with_idf flood in
  let call := run_command_async_stream (rt := ascii_runtime) "make" live_log in
  outcome call w =
    inr (1, "", "Error executing command: Separator is found, but chunk is longer than limit") /\
  files (world_after call w) = files w.
Proof. vm_compute. split; reflexivity. Qed.

Lemma drains_follow_arrival_witness :
  let w := workstation with_idf (chatty 0) in
  exists joined,
    gather (rt := ascii_runtime) live_log (proc_arrival (chatty 0))
      (Reading (proc_stdout (chatty 0)), []) (Reading (proc_stderr (chatty 0)), [])
      (set_launched (launched w ++ ["make"]) w) =
      (inr ((AtEof, ["hello" +:+ nl; "bye" +:+ nl]), (AtEof, ["warn" +:+ nl])), joined) /\
    file_content joined live_log =
      file_content w live_log +:+
      render (schedule (proc_arrival (chatty 0)) ["hello" +:+ nl; "bye" +:+ nl]
                ["warn" +:+ nl]) /\
    clock joined = clock w /\
    run_command_async_stream (rt := ascii_runtime) "make" live_log w =
      (inr (proc_returncode (chatty 0), join "" ["hello" +:+ nl; "bye" +:+ nl],
            join "" ["warn" +:+ nl]),
       set_clock (clock joined + proc_duration (chatty 0))%Q joined).
Proof.
  exact (drains_follow_arrival (rt := ascii_runtime) live_log "make"
           (workstation with_idf (chatty 0)) (chatty 0)
           ["hello" +:+ nl; "bye" +:+ nl] ["warn" +:+ nl]
           eq_refl eq_refl eq_refl
           ltac:(repeat constructor) ltac:(repeat constructor)
           ltac:(vm_compute; reflexivity)).
Defined.

(** C4 as stated fails when a reader raises: with a log that cannot be
    opened [gather] ends in the exception at the first line, with lines of
    the process still unread, and the runner returns its error result
    without waiting for the process, the clock where it was. *)
Lemma runner_returns_before_the_drains_end :
  let w := workstation with_idf (chatty 0) in
  let call := run_command_async_stream (rt := ascii_runtime) "make" "/nowhere/live.log" in
  outcome (gather (rt := ascii_runtime) "/nowhere/live.log" (proc_arrival (chatty 0))
             (Reading (proc_stdout (chatty 0)), []) (Reading (proc_stderr (chatty 0)), []))
          (set_launched ["make"] w) =
    inl (no_such_file "/nowhere/live.log") /\
  outcome call w =
    inr (1, "",
         "Error executing command: [Errno 2] No such file or directory: '/nowhere/live.log'") /\
  clock (world_after call w) = clock w.
Proof. vm_compute. repeat split; reflexivity. Qed.

(** The same lines drained one pipe after the other would be logged in
    another order than the one of their arrival. *)
Example sequential_drain_differs :
  render (schedule (proc_arrival (chatty 0)) ["hello" +:+ nl; "bye" +:+ nl] ["warn" +:+ nl]) <>
  render (schedule [] ["hello" +:+ nl; "bye" +:+ nl] ["warn" +:+ nl]).
Proof. vm_compute. discriminate. Qed.

Example arrival_order_is_log_order :
  file_content (world_after (run_command_async_stream (rt := ascii_runtime) "make" live_log)
                  (workstation with_idf (chatty 0))) live_log =
  "[stdout] hello" +:+ nl +:+ "[stderr] warn" +:+ nl +:+ "[stdout] bye" +:+ nl.
Proof. vm_compute. reflexivity. Qed.

Example launch_failure_is_reported :
  let w := bench (Importable (inr [])) (chatty 0) in
  let broken := {| environ := environ w; cwd := cwd w; dirs := dirs w; files := files w;
                   denied := denied w; clock := clock w; localtime := localtime w;
                   shell := fun _ _ => inl (Raised OSError "[Errno 2] No such file or directory: 'sh'");
                   launched := []; slept := []; pyserial := pyserial w |} in
  outcome (run_command_async (rt := ascii_runtime) "make") broken =
    inr (1, "", "Error executing command: [Errno 2] No such file or directory: 'sh'") /\
  outcome (run_command_async_stream (rt := ascii_runtime) "make" live_log) broken =
    inr (1, "", "Error executing command: [Errno 2] No such file or directory: 'sh'").
Proof. vm_compute. split; reflexivity. Qed.

(** C3: with three attempts allowed and a flash command that always fails
    the loop runs the command three times and returns the third result, and
    it sleeps three times: the third sleep follows the last attempt. *)
Theorem flash_sleeps_after_last_attempt :
  let w := workstation (retry_env "3" "2") (chatty 1) in
  let call := flash_esp_project (rt := ascii_runtime) logs "/home/dev/proj" None None in
  outcome call w = inr ("hello" +:+ nl +:+ "bye" +:+ nl, "warn" +:+ nl) /\
  length (launched (world_after call w)) = 3%nat /\
  slept (world_after call w) = [2%Q; 2%Q; 2%Q].
Proof. vm_compute. repeat split; reflexivity. Qed.

Example flash_stops_at_first_success :
  let w := flaky 2 (retry_env "5" "2") in
  let call := flash_esp_project (rt := ascii_runtime) logs "/home/dev/proj" None None in
  length (launched (world_after call w)) = 3%nat /\
  slept (world_after call w) = [2%Q; 2%Q] /\
  file_content (world_after call w) (os_path_join logs "mcp-flash.log") =
    flash_report 0 ("hello" +:+ nl +:+ "bye" +:+ nl) ("warn" +:+ nl).
Proof. vm_compute. repeat split; reflexivity. Qed.

(** C8: with no path given and [IDF_PATH] unset, [build_esp_project],
    [setup_project_esp_target], [create_esp_project], [flash_esp_project]
    and [run_pytest] raise the [ValueError] of [get_esp_idf_dir] to their
    caller; only [run_esp_idf_install] returns it as text.  None of them
    launches a process. *)
Theorem tools_raise_without_idf_path :
  let w := workstation ∅ (chatty 0) in
  let missing := Raised ValueError missing_idf_path in
  let build := build_esp_project (rt := ascii_runtime) logs "/home/dev/proj" None None in
  let setup :=
    setup_project_esp_target (rt := ascii_runtime) logs "/home/dev/proj" "esp32" None in
  let create := create_esp_project (rt := ascii_runtime) logs "/home/dev/proj" "blink" in
  let flash := flash_esp_project (rt := ascii_runtime) logs "/home/dev/proj" None None in
  let pytest := run_pytest (rt := ascii_runtime) logs "/home/dev/proj" "." "" (Some "  ") in
  let install := run_esp_idf_install (rt := ascii_runtime) logs (Some "") in
  (outcome build w = inl missing /\ launched (world_after build w) = []) /\
  (outcome setup w = inl missing /\ launched (world_after setup w) = []) /\
  (outcome create w = inl missing /\ launched (world_after create w) = []) /\
  (outcome flash w = inl missing /\ launched (world_after flash w) = []) /\
  (outcome pytest w = inl missing /\ launched (world_after pytest w) = []) /\
  (outcome install w = inr ("", missing_idf_path) /\ launched (world_after install w) = []).
Proof. vm_compute. repeat split; reflexivity. Qed.

(** C9: [run_pytest] leaves its live log and [mcp-pytest.log] and no
    time-stamped snapshot, where [build_esp_project] leaves its live log,
    [mcp-process.log] and [mcp-process-20261104-090507.log]. *)
Theorem pytest_writes_no_snapshot :
  let w := workstation with_idf (chatty 0) in
  file_names (world_after
    (run_pytest (rt := ascii_runtime) logs "/home/dev/proj" "." "" None) w) =
    [ "/opt/esp-idf/install.sh";
      "/home/dev/.ai/logs/esp_mcp/mcp-pytest-live.log";
      "/home/dev/.ai/logs/esp_mcp/mcp-pytest.log" ] /\
  file_names (world_after
    (build_esp_project (rt := ascii_runtime) logs "/home/dev/proj" None None) w) =
    [ "/opt/esp-idf/install.sh";
      "/home/dev/.ai/logs/esp_mcp/mcp-process-20261104-090507.log";
      "/home/dev/.ai/logs/esp_mcp/mcp-process-live.log";
      "/home/dev/.ai/logs/esp_mcp/mcp-process.log" ].
Proof. vm_compute. split; reflexivity. Qed.

Lemma tools_and_the_working_directory_witness :
  let w := workstation with_idf (chatty 1) in
  cwd (world_after (build_esp_project (rt := ascii_runtime) logs "proj" None None) w)
    = "/home/dev/proj" /\
  cwd (world_after (setup_project_esp_target (rt := ascii_runtime) logs "proj" "esp32" None) w)
    = "/home/dev/proj" /\
  cwd (world_after (create_esp_project (rt := ascii_runtime) logs "/home/dev/fresh" "blink") w)
    = "/home/dev/fresh" /\
  cwd (world_after (flash_esp_project (rt := ascii_runtime) logs "proj" None None) w)
    = "/home/dev/proj" /\
  cwd (world_after (run_esp_idf_install (rt := ascii_runtime) logs None) w) = "/home/dev" /\
  cwd (world_after (run_pytest (rt := ascii_runtime) logs "proj" "." "-v" None) w) = "/home/dev".
Proof.
  apply (tools_and_the_working_directory (rt := ascii_runtime) logs
           (workstation with_idf (chatty 1)) "proj" "/home/dev/fresh"
           None None None None "esp32" "blink" "." "-v");
    [split; vm_compute; reflexivity | vm_compute; reflexivity ..].
Defined.

Lemma unfiltered_listing_order_witness :
  exists listed,
    outcome (list_serial_ports (rt := ascii_runtime) None None)
            (bench (Importable (inr [slab; devkit_uart; console; devkit_cdc])) (silent 0)) =
      inr (listing listed) /\
    Permutation [slab; devkit_uart; console; devkit_cdc] listed /\
    StronglySorted listed_before listed.
Proof.
  exact (unfiltered_listing_order (rt := ascii_runtime)
           (bench (Importable (inr [slab; devkit_uart; console; devkit_cdc])) (silent 0))
           [slab; devkit_uart; console; devkit_cdc] eq_refl).
Defined.

Example unfiltered_listing_example :
  outcome (list_serial_ports (rt := ascii_runtime) None None)
          (bench (Importable (inr [slab; devkit_uart; console; devkit_cdc])) (silent 0)) =
    inr (listing [devkit_cdc; devkit_uart; console; slab]).
Proof. vm_compute. reflexivity. Qed.

(** C5 as stated fails where a tie is between paths that differ in case:
    the two ports are in the same class, "/dev/cu.SLAB_USBtoUART" precedes
    "/dev/cu.debug-console" in lexical order, and the listing has them the
    other way round. *)
Lemma unfiltered_listing_ignores_case :
  preference slab = preference console /\
  port_device slab = Some "/dev/cu.SLAB_USBtoUART" /\
  port_device console = Some "/dev/cu.debug-console" /\
  String.ltb "/dev/cu.SLAB_USBtoUART" "/dev/cu.debug-console" = true /\
  outcome (list_serial_ports (rt := ascii_runtime) None None)
          (bench (Importable (inr [slab; console])) (silent 0)) =
    inr (0,
         "/dev/cu.debug-console" +:+ tab +:+ "vid=unknown pid=unknown n/a" +:+ nl +:+
         "/dev/cu.SLAB_USBtoUART" +:+ tab +:+
           "vid=0x10c4 pid=0xea60 CP2102 USB to UART Bridge Controller" +:+ nl,
         "").
Proof. vm_compute. repeat split; reflexivity. Qed.

Lemma filtered_listing_witness :
  outcome (list_serial_ports (rt := ascii_runtime) (Some 12346) None)
          (bench (Importable (inr [slab; devkit_uart; console; devkit_cdc])) (silent 0)) =
    inr (listing (List.filter (passes (Some 12346) None)
                    [slab; devkit_uart; console; devkit_cdc])) /\
  (forall p,
     port_line p =
       rstrip (str_or_None (port_device p) +:+ tab +:+ "vid=" +:+ id_str (port_vid p) +:+
               " pid=" +:+ id_str (port_pid p) +:+ " " +:+
               from_option id "" (port_description p))) /\
  id_str None = "unknown" /\
  (forall n, 0 <= n < 65536 -> id_str (Some n) = "0x" +:+ hex4 (Z.to_N n)) /\
  (forall d, (d < 16)%N -> is_lower_hex (digit_char d) = true).
Proof.
  exact (filtered_listing (rt := ascii_runtime)
           (bench (Importable (inr [slab; devkit_uart; console; devkit_cdc])) (silent 0))
           [slab; devkit_uart; console; devkit_cdc] (Some 12346) None
           eq_refl (or_introl (ex_intro _ 12346 eq_refl))).
Defined.

Example filtered_listing_example :
  outcome (list_serial_ports (rt := ascii_runtime) (Some 12346) None)
          (bench (Importable (inr [slab; devkit_uart; console; devkit_cdc])) (silent 0)) =
    inr (0,
         "/dev/ttyS4" +:+ tab +:+ "vid=0x303a pid=0x0002" +:+ nl +:+
         "/dev/cu.usbmodem1101" +:+ tab +:+
           "vid=0x303a pid=0x1001 USB JTAG/serial debug unit" +:+ nl,
         "").
Proof. vm_compute. reflexivity. Qed.

(** C6 as stated fails when pyserial cannot be imported: the vendor filter
    is not handed to the fallback subprocess, and what that prints is
    returned as it is, a line without any "vid=" field. *)
Lemma filtered_listing_not_in_fallback :
  let call := list_serial_ports (rt := ascii_runtime) (Some 12346) None in
  outcome call (bench no_pyserial raw_listing) =
    inr (0, "/dev/ttyUSB0" +:+ nl, "1 ports found" +:+ nl) /\
  launched (world_after call (bench no_pyserial raw_listing)) =
    ["python -m serial.tools.list_ports"] /\
  contains "vid=" ("/dev/ttyUSB0" +:+ nl) = false.
Proof. vm_compute. repeat split; reflexivity. Qed.

(** C7 as stated fails when pyserial cannot be imported and the fallback
    subprocess fails in turn: [list_serial_ports] returns exit code 1. *)
Lemma port_listing_passes_on_fallback_failure :
  outcome (list_serial_ports (rt := ascii_runtime) None None)
          (bench no_pyserial python_without_serial) =
    inr (1, "", "/usr/bin/python: No module named serial" +:+ nl).
Proof. vm_compute. reflexivity. Qed.

(** * Further properties *)

(** ** Strings and paths *)

Lemma length_app_str (a b : str) :
  String.length (a +:+ b) = (String.length a + String.length b)%nat.
Proof. induction a as [|c a IH]; simpl; [reflexivity | now rewrite IH]. Qed.

Lemma rev_app_spec (s acc : str) : String.rev_app s acc = String.rev s +:+ acc.
Proof.
  revert acc. induction s as [|c s IH]; intros acc; [reflexivity |].
  unfold String.rev. simpl. rewrite (IH (String c acc)), (IH (String c "")).
  now rewrite app_assoc_str.
Qed.

Lemma rev_cons (c : ascii) (s : str) : String.rev (String c s) = String.rev s +:+ String c "".
Proof. unfold String.rev at 1. simpl. apply rev_app_spec. Qed.

Lemma rev_app_distr (a b : str) : String.rev (a +:+ b) = String.rev b +:+ String.rev a.
Proof.
  induction a as [|c a IH]; simpl.
  - now rewrite app_empty_r.
  - now rewrite !rev_cons, IH, app_assoc_str.
Qed.

Lemma rev_involutive (s : str) : String.rev (String.rev s) = s.
Proof.
  induction s as [|c s IH]; [reflexivity |].
  now rewrite rev_cons, rev_app_distr, IH.
Qed.

Lemma length_rev (s : str) : String.length (String.rev s) = String.length s.
Proof.
  induction s as [|c s IH]; [reflexivity |].
  rewrite rev_cons, length_app_str, IH. simpl. lia.
Qed.

Lemma all_chars_app (P : ascii -> bool) (a b : str) :
  all_chars P (a +:+ b) = all_chars P a && all_chars P b.
Proof. induction a as [|c a IH]; simpl; [reflexivity | now rewrite IH, andb_assoc]. Qed.

Lemma all_chars_rev (P : ascii -> bool) (s : str) : all_chars P (String.rev s) = all_chars P s.
Proof.
  induction s as [|c s IH]; [reflexivity |].
  rewrite rev_cons, all_chars_app, IH. simpl. rewrite andb_true_r. apply andb_comm.
Qed.

Lemma drop_while_all (f : ascii -> bool) (a b : str) :
  all_chars f a = true -> drop_while f (a +:+ b) = drop_while f b.
Proof.
  induction a as [|c a IH]; simpl; [reflexivity |].
  intros Ha. apply andb_prop in Ha as [Hc Ha]. now rewrite Hc, IH.
Qed.

Lemma drop_while_length (f : ascii -> bool) (s : str) :
  (String.length (drop_while f s) <= String.length s)%nat.
Proof. induction s as [|c s IH]; simpl; [lia |]. destruct (f c); simpl; lia. Qed.

Lemma dirname_length (p : str) : (String.length (dirname p) <= String.length p)%nat.
Proof.
  unfold dirname.
  pose proof (drop_while_length (fun c => negb (is_slash c)) (String.rev p)) as H1.
  pose proof (drop_while_length is_slash
                (drop_while (fun c => negb (is_slash c)) (String.rev p))) as H2.
  rewrite length_rev in H1.
  destruct (String.eqb _ ""); rewrite length_rev; lia.
Qed.

Lemma ancestors_length (fuel : nat) : forall p x,
  In x (ancestors fuel p) -> (String.length x <= String.length p)%nat.
Proof.
  induction fuel as [|fuel IH]; intros p x Hx; simpl in Hx.
  - destruct Hx as [<-|[]]. lia.
  - destruct (_ || _).
    + destruct Hx as [<-|[]]. lia.
    + destruct Hx as [<-|Hx]; [lia |].
      specialize (IH _ _ Hx). pose proof (dirname_length p). lia.
Qed.

Lemma ancestors_self (fuel : nat) (p : str) : In p (ancestors fuel p).
Proof. destruct fuel; simpl; [now left |]. destruct (_ || _); now left. Qed.

(** The directory part of [d/name] is [d]. *)
Lemma dirname_child (d name : str) :
  d <> "" -> ends_with_slash d = false -> all_chars not_slash name = true ->
  dirname (d +:+ "/" +:+ name) = d.
Proof.
  intros Hd Hend Hname. unfold dirname.
  rewrite rev_app_distr. change ("/" +:+ name) with (String "/" name).
  rewrite rev_cons, app_assoc_str.
  rewrite drop_while_all by (now rewrite all_chars_rev).
  unfold ends_with_slash in Hend.
  destruct (String.rev d) as [|c r] eqn:Hrev.
  { exfalso. apply Hd. rewrite <- (rev_involutive d), Hrev. reflexivity. }
  simpl. rewrite Hend. simpl. rewrite <- Hrev. apply rev_involutive.
Qed.

Lemma is_abs_nonempty (p : str) : is_abs p = true -> p <> "".
Proof. destruct p; [discriminate | discriminate]. Qed.

Lemma is_abs_app (p q : str) : is_abs p = true -> is_abs (p +:+ q) = true.
Proof. destruct p; [discriminate | trivial]. Qed.

Lemma plain_name_relative (name : str) : plain_name name = true -> is_abs name = false.
Proof.
  unfold plain_name. intros Hn. apply andb_prop in Hn as [_ Hn].
  destruct name as [|c name]; [reflexivity |]. simpl in *.
  apply andb_prop in Hn as [Hc _]. unfold not_slash in Hc. now apply negb_true_iff in Hc.
Qed.

(** [os.path.join(LOG_DIR, name)] for a plain name. *)
Lemma join_log_dir (LOG_DIR name : str) :
  is_abs LOG_DIR = true -> ends_with_slash LOG_DIR = false -> plain_name name = true ->
  os_path_join LOG_DIR name = LOG_DIR +:+ "/" +:+ name.
Proof.
  intros Habs Hend Hname. unfold os_path_join.
  rewrite (plain_name_relative _ Hname), Hend.
  destruct LOG_DIR; [discriminate | reflexivity].
Qed.

(** ** The log files *)

Section LogFiles.
Context {rt : PyRuntime}.
Variable LOG_DIR : str.

Lemma log_target_not_ancestor (name : str) :
  ~ (LOG_DIR +:+ "/" +:+ name) ∈
    (list_to_set (ancestors (String.length LOG_DIR) LOG_DIR) : gset string).
Proof.
  rewrite elem_of_list_to_set, list_elem_of_In. intros Hin.
  apply ancestors_length in Hin. rewrite length_app_str in Hin. simpl in Hin. lia.
Qed.

Lemma log_dir_made (w : World) :
  log_dir_ready LOG_DIR w ->
  _ensure_log_dir LOG_DIR w = (inr tt, set_dirs (with_log_dir LOG_DIR w) w).
Proof.
  intros (Habs & _ & Hden & Hfile & _).
  unfold _ensure_log_dir, os_makedirs, can_create_dir.
  rewrite (abspath_absolute _ _ Habs).
  rewrite (bool_decide_eq_false_2 _ Hden).
  rewrite Hfile. reflexivity.
Qed.

Lemma log_file_can_be_opened (name : str) (w : World) :
  log_dir_ready LOG_DIR w -> plain_name name = true ->
  can_open_for_write (set_dirs (with_log_dir LOG_DIR w) w) (LOG_DIR +:+ "/" +:+ name) = true.
Proof.
  intros (Habs & Hend & Hden & Hfile & Hunder) Hname.
  destruct (Hunder name Hname) as [Hnd Hndir].
  unfold can_open_for_write.
  rewrite (abspath_absolute _ _ (is_abs_app _ _ Habs)). cbn [set_dirs dirs denied].
  rewrite (bool_decide_eq_false_2 _ Hnd). cbn [negb andb].
  assert (Hnot : (LOG_DIR +:+ "/" +:+ name) ∉ with_log_dir LOG_DIR w).
  { unfold with_log_dir. intros [Hin|Hin]%elem_of_union.
    - exact (log_target_not_ancestor name Hin).
    - exact (Hndir Hin). }
  rewrite (bool_decide_eq_false_2 _ Hnot). cbn [negb andb].
  apply bool_decide_eq_true.
  unfold plain_name in Hname. apply andb_prop in Hname as [_ Hplain].
  rewrite (dirname_child _ _ (is_abs_nonempty _ Habs) Hend Hplain).
  unfold with_log_dir. apply elem_of_union_l, elem_of_list_to_set, list_elem_of_In.
  apply ancestors_self.
Qed.

(** [_log_path(name)] makes the log directory and returns the path of
    [name] in it. *)
Lemma log_path_made (name : str) (w : World) :
  log_dir_ready LOG_DIR w -> plain_name name = true ->
  _log_path LOG_DIR name w =
    (inr (LOG_DIR +:+ "/" +:+ name), set_dirs (with_log_dir LOG_DIR w) w).
Proof.
  intros Hready Hname. unfold _log_path.
  rewrite (bind_inr _ _ _ _ _ (log_dir_made w Hready)). unfold ret.
  destruct Hready as (Habs & Hend & _). now rewrite join_log_dir.
Qed.

(** [_write_log(name, content)] makes the log directory and leaves [content],
    and nothing else, in the file [name] of it. *)
Lemma write_log_done (name content : str) (w : World) :
  log_dir_ready LOG_DIR w -> plain_name name = true ->
  _write_log LOG_DIR name content w =
    (inr tt,
     set_files (<[LOG_DIR +:+ "/" +:+ name := content]> (files w))
               (set_dirs (with_log_dir LOG_DIR w) w)).
Proof.
  intros Hready Hname. unfold _write_log.
  rewrite (bind_inr _ _ _ _ _ (log_dir_made w Hready)).
  pose proof (log_file_can_be_opened name w Hready Hname) as Hopen.
  destruct Hready as (Habs & Hend & _).
  rewrite join_log_dir by assumption.
  unfold overwrite_file. rewrite Hopen.
  now rewrite (abspath_absolute _ _ (is_abs_app _ _ Habs)).
Qed.

End LogFiles.

(** ** What the runners leave alone *)

#[local] Instance calm_preorder : PreOrder calm.
Proof.
  split.
  - intros w. now repeat split.
  - intros w1 w2 w3 (Ha1 & Hb1 & Hc1 & Hd1) (Ha2 & Hb2 & Hc2 & Hd2).
    repeat split; congruence.
Qed.

#[local] Instance no_write_preorder : PreOrder no_write.
Proof.
  split.
  - intros w. now repeat split.
  - intros w1 w2 w3 (Ha1 & Hb1 & Hc1 & Hd1) (Ha2 & Hb2 & Hc2 & Hd2).
    repeat split; congruence.
Qed.

#[local] Instance log_only_preorder (log_path : str) : PreOrder (log_only log_path).
Proof.
  split.
  - intros w. split; [apply same_places_refl |]. split; [reflexivity |].
    exists "". now rewrite app_empty_r.
  - intros w1 w2 w3 (Hs1 & Hp1 & t1 & Ht1) (Hs2 & Hp2 & t2 & Ht2).
    split; [eapply same_places_trans; eauto |]. split.
    + intros path Hpath. rewrite Hp2, Hp1; [reflexivity | exact Hpath |].
      now rewrite (same_places_abspath _ _ _ Hs1).
    + exists (t1 +:+ t2). now rewrite Ht2, Ht1, app_assoc_str.
Qed.

Lemma calm_environ_get k d : maintains calm (environ_get k d).
Proof. primitive. Qed.
Lemma calm_environ_has k : maintains calm (environ_has k).
Proof. primitive. Qed.
Lemma calm_environ_item k : maintains calm (environ_item k).
Proof. primitive. Qed.
Lemma calm_os_getcwd : maintains calm os_getcwd.
Proof. primitive. Qed.
Lemma calm_os_chdir p : maintains calm (os_chdir p).
Proof. primitive. Qed.
Lemma calm_os_makedirs p : maintains calm (os_makedirs p).
Proof. primitive. Qed.
Lemma calm_os_path_exists p : maintains calm (os_path_exists p).
Proof. primitive. Qed.
Lemma calm_overwrite_file p t : maintains calm (overwrite_file p t).
Proof. primitive. Qed.
Lemma calm_time_time : maintains calm time_time.
Proof. primitive. Qed.
Lemma calm_time_strftime : maintains calm time_strftime.
Proof. primitive. Qed.

#[local] Hint Resolve calm_environ_get calm_environ_has calm_environ_item calm_os_getcwd
  calm_os_chdir calm_os_makedirs calm_os_path_exists calm_overwrite_file calm_time_time
  calm_time_strftime : frames.

Lemma log_only_append (log_path text : str) :
  maintains (log_only log_path) (append_to_file log_path text).
Proof.
  intros w. unfold append_to_file. destruct (can_open_for_write w log_path); simpl.
  - split; [now repeat split |]. split.
    + intros path Hpath. now apply lookup_insert_ne.
    + exists text. unfold file_content at 1. unfold abspath. simpl.
      now rewrite lookup_insert_eq.
  - reflexivity.
Qed.

Lemma log_only_readline (log_path : str) s : maintains (log_only log_path) (readline s).
Proof. destruct s as [|[b|e] s]; unfold readline; frames. Qed.

Lemma log_only_launch (log_path command : str) :
  maintains (log_only log_path) (create_subprocess_shell command).
Proof.
  intros w. unfold create_subprocess_shell.
  destruct (shell w command (length (launched w))); simpl;
    (split; [now repeat split |]; split; [reflexivity |];
     exists ""; now rewrite app_empty_r).
Qed.

Lemma log_only_wait (log_path : str) p : maintains (log_only log_path) (process_wait p).
Proof.
  intros w. unfold process_wait. simpl.
  split; [now repeat split |]. split; [reflexivity |].
  exists "". now rewrite app_empty_r.
Qed.

#[local] Hint Resolve log_only_append log_only_readline log_only_launch log_only_wait : frames.

Section RunnerFrames.
Context {rt : PyRuntime}.

Lemma log_only_read_stream_turn log_path prefix st :
  maintains (log_only log_path) (_read_stream_turn log_path prefix st).
Proof. destruct st as [[s|] chunks]; simpl; frames. Qed.
#[local] Hint Resolve log_only_read_stream_turn : frames.

Lemma log_only_turns n log_path prefix : forall st,
  maintains (log_only log_path) (turns n log_path prefix st).
Proof. induction n as [|n IH]; intros st; simpl; frames. Qed.
#[local] Hint Resolve log_only_turns : frames.

Lemma log_only_gather log_path arrival : forall out err,
  maintains (log_only log_path) (gather log_path arrival out err).
Proof.
  induction arrival as [|[|] later IH]; intros out err; simpl; frames;
    unfold _read_stream; frames.
Qed.
#[local] Hint Resolve log_only_gather : frames.

Lemma log_only_run_command_async_stream command log_path :
  maintains (log_only log_path) (run_command_async_stream command log_path).
Proof.
  unfold run_command_async_stream, run_command_async_stream_body, error_result. frames.
Qed.

(** X1: [run_command_async] launches the command once and touches nothing
    else: no file is written, created or removed, the working directory and
    the directories stay, and it does not sleep. *)
Theorem run_command_async_side_effects (command : str) (w : World) :
  let w' := world_after (run_command_async command) w in
  launched w' = launched w ++ [command] /\
  files w' = files w /\ cwd w' = cwd w /\ dirs w' = dirs w /\ slept w' = slept w.
Proof.
  unfold world_after, run_command_async, try_except, run_command_async_body,
    error_result, bind, create_subprocess_shell, process_communicate, bind, lift,
    process_wait, ret, raise.
  destruct (shell w command (length (launched w))) as [e|p]; simpl; [now repeat split |].
  destruct (read_all (proc_stdout p)) as [e|out]; simpl; [now repeat split |].
  destruct (read_all (proc_stderr p)) as [e|err]; simpl; [now repeat split |].
  destruct (decode_strict out) as [e|o]; simpl; [now repeat split |].
  destruct (decode_strict err) as [e|e']; simpl; now repeat split.
Qed.

(** X2: [run_command_async_stream] launches the command once; of the files
    it touches only the log, whose earlier content stays at its start; the
    working directory and the directories stay.  This holds whatever the
    process does and whether or not the runner ends in its error result. *)
Theorem stream_runner_only_appends_to_log (command log_path : str) (w : World) :
  let w' := world_after (run_command_async_stream command log_path) w in
  launched w' = launched w ++ [command] /\
  (forall path, path <> abspath w log_path -> files w' !! path = files w !! path) /\
  (exists text, file_content w' log_path = file_content w log_path +:+ text) /\
  cwd w' = cwd w /\ dirs w' = dirs w /\ slept w' = slept w.
Proof.
  cbv zeta. unfold world_after.
  destruct (log_only_run_command_async_stream command log_path w)
    as ((Hc & Hd & _) & Hpaths & Htext).
  destruct (run_command_async_stream_once command log_path w)
    as (rc & out & err & w1 & Hrun & Hl & Hs & _).
  rewrite Hrun in *. simpl in *. now repeat split.
Qed.

(** X3: [list_serial_ports] changes nothing at all when pyserial can be
    imported; when it cannot, it launches "python -m serial.tools.list_ports"
    once and writes no file. *)
Theorem list_serial_ports_side_effects (vid pid : option Z) (w : World) :
  let w' := world_after (list_serial_ports vid pid) w in
  match pyserial w with
  | Importable _ => w' = w
  | NotImportable _ =>
      launched w' = launched w ++ ["python -m serial.tools.list_ports"] /\
      files w' = files w /\ cwd w' = cwd w /\ dirs w' = dirs w
  end.
Proof.
  cbv zeta. unfold world_after.
  destruct (pyserial w) as [e|r] eqn:Hpy.
  - unfold list_serial_ports, try_except, bind, import_list_ports. rewrite Hpy.
    unfold list_serial_ports_subprocess, ports_fallback, bind, create_subprocess_shell,
      process_communicate, bind, lift, process_wait, ret, raise.
    destruct (shell w _ (length (launched w))) as [e1|p]; simpl; [now repeat split |].
    destruct (read_all (proc_stdout p)) as [e1|out]; simpl; [now repeat split |].
    destruct (read_all (proc_stderr p)) as [e1|err]; simpl; [now repeat split |].
    destruct (decode_strict out) as [e1|o]; simpl; [now repeat split |].
    destruct (decode_strict err) as [e1|e']; simpl; now repeat split.
  - now rewrite (list_serial_ports_imported vid pid w r Hpy).
Qed.

End RunnerFrames.

(** ** The flash retry loop, in general *)

Lemma bind_calm {A B} (P : (exn + B) * World -> Prop) (m : M A) (k : A -> M B) (w0 w : World) :
  maintains calm m -> calm w0 w ->
  (forall e w1, calm w0 w1 -> P (inl e, w1)) ->
  (forall a w1, calm w0 w1 -> P (k a w1)) ->
  P (bind m k w).
Proof.
  intros Hm Hw Hraise Hk. unfold bind. specialize (Hm w).
  destruct (m w) as [[e|a] w1]; simpl in Hm.
  - apply Hraise. now transitivity w.
  - apply Hk. now transitivity w.
Qed.

Lemma repeat_snoc {A} (x : A) (n : nat) : repeat x n ++ [x] = x :: repeat x n.
Proof. induction n as [|n IH]; simpl; [reflexivity | now rewrite IH]. Qed.

Section FlashInGeneral.
Context {rt : PyRuntime}.
Variable LOG_DIR : str.

Lemma calm_get_export_script idf_path : maintains calm (get_export_script idf_path).
Proof. unfold get_export_script, get_esp_idf_dir. frames. Qed.
Lemma calm_write_log name content : maintains calm (_write_log LOG_DIR name content).
Proof. unfold _write_log, _ensure_log_dir. frames. Qed.
Lemma calm_log_path name : maintains calm (_log_path LOG_DIR name).
Proof. unfold _log_path, _ensure_log_dir. frames. Qed.
Lemma calm_timestamped name : maintains calm (_timestamped name).
Proof. unfold _timestamped. frames. Qed.
#[local] Hint Resolve calm_get_export_script calm_write_log calm_log_path
  calm_timestamped : frames.

(** X4: with a delay that [time.sleep] accepts (not negative, no more than
    9223372036 seconds and not refused by the platform) the retry loop never
    raises; it launches the
    flash command at most [n] times and nothing else; it either stops at
    the first attempt that ends with exit code 0, having slept once after
    each attempt before it, or it makes all [n] attempts, none ending with
    0, and has slept once after each of them. *)
Theorem flash_attempts_bounded (delay : Q) (flash_cmd flash_log_path : str) (n : nat) :
  sleepable delay = true -> sleep_refused delay = None ->
  forall (current : Z * str * str) (w : World),
  exists (k : nat) (result : Z * str * str) (w' : World),
    flash_attempts n (Finite delay) flash_cmd flash_log_path current w = (inr result, w') /\
    (k <= n)%nat /\
    launched w' = launched w ++ repeat flash_cmd k /\
    ((fst (fst result) = 0 /\ (1 <= k)%nat /\
      slept w' = slept w ++ repeat delay (k - 1)) \/
     (k = n /\ slept w' = slept w ++ repeat delay n /\
      (n = 0%nat -> result = current) /\ (n <> 0%nat -> fst (fst result) <> 0))).
Proof.
  intros Hdelay Hos. induction n as [|n IH]; intros current w.
  - exists 0%nat, current, w. split; [reflexivity |]. split; [lia |].
    split; [now rewrite app_nil_r |]. right.
    repeat split; [now rewrite app_nil_r | congruence].
  - destruct (run_command_async_stream_once flash_cmd flash_log_path w)
      as (rc & out & err & w1 & Hrun & Hl & Hs & _).
    destruct (rc =? 0) eqn:Hrc.
    + exists 1%nat, (rc, out, err), w1. split.
      { simpl. rewrite (bind_inr _ _ _ _ _ Hrun). simpl. now rewrite Hrc. }
      split; [lia |]. split; [exact Hl |]. left.
      apply Z.eqb_eq in Hrc. simpl. split; [exact Hrc |]. split; [lia |]. rewrite Hs. symmetry. apply app_nil_r.
    + set (w2 := set_clock (clock w1 + delay)%Q (set_slept (slept w1 ++ [delay]) w1)).
      assert (Hstep : flash_attempts (S n) (Finite delay) flash_cmd flash_log_path current w =
                      flash_attempts n (Finite delay) flash_cmd flash_log_path
                        (rc, out, err) w2).
      { simpl. rewrite (bind_inr _ _ _ _ _ Hrun). simpl. rewrite Hrc.
        now rewrite (bind_inr _ _ _ _ _ (time_sleep_sleepable delay w1 Hdelay Hos)). }
      destruct (IH (rc, out, err) w2) as (k & result & w' & Hrest & Hk & Hl2 & Hcases).
      exists (S k), result, w'. split; [now rewrite Hstep |]. split; [lia |].
      assert (Hl2' : launched w' = launched w ++ repeat flash_cmd (S k)).
      { rewrite Hl2. subst w2. simpl. now rewrite Hl, <- app_assoc. }
      split; [exact Hl2' |].
      assert (Hslept : slept w2 = slept w ++ [delay]) by (subst w2; simpl; now rewrite Hs).
      apply Z.eqb_neq in Hrc.
      destruct Hcases as [(Hzero & Hk1 & Hsl)|(-> & Hsl & Hnone & Hsome)].
      * left. repeat split; [exact Hzero | lia |].
        rewrite Hsl, Hslept, <- app_assoc. f_equal.
        destruct k as [|k]; [lia |]. simpl. now rewrite Nat.sub_0_r.
      * right. repeat split; [| congruence |].
        -- rewrite Hsl, Hslept, <- app_assoc. reflexivity.
        -- intros _. destruct n as [|n]; [now rewrite Hnone | now apply Hsome].
Qed.

Lemma time_sleep_refused (d : pyfloat) (e : exn) (w : World) :
  sleep_refusal d = Some e -> time_sleep d w = (inl e, w).
Proof.
  assert (Hmin : PyTime_MIN = -9223372036854775808) by reflexivity.
  assert (Hmax : PyTime_MAX = 9223372036854775807) by reflexivity.
  destruct d as [q| |]; cbn [sleep_refusal time_sleep]; [| now intros [= <-] ..].
  unfold longest_sleep. cbv zeta. unfold nanoseconds, round_away.
  destruct (Qle_bool (9223372036 + 1) q) eqn:Hbig.
  - intros [= <-]. apply Qle_bool_iff in Hbig.
    assert (Hscaled : (inject_Z 9223372037000000000 <= q * 1000000000)%Q).
    { apply Qle_trans with ((9223372036 + 1) * 1000000000)%Q;
        [apply Qle_bool_iff; reflexivity
        | apply Qmult_le_compat_r; [exact Hbig | discriminate]]. }
    assert (Hpos : (0 <= q * 1000000000)%Q)
      by (apply Qle_trans with (inject_Z 9223372037000000000); [discriminate | exact Hscaled]).
    rewrite (proj2 (Qle_bool_iff _ _) Hpos).
    apply Qceiling_resp_le in Hscaled. rewrite Qceiling_Z in Hscaled.
    rewrite (proj2 (Z.ltb_lt PyTime_MAX _)) by lia. now rewrite orb_true_r.
  - destruct (Qle_bool q (- (9223372036 + 1))) eqn:Hsmall; cbn [orb].
    + intros [= <-]. apply Qle_bool_iff in Hsmall.
      assert (Hscaled : (q * 1000000000 <= inject_Z (-9223372037000000000))%Q).
      { apply Qle_trans with (- (9223372036 + 1) * 1000000000)%Q;
          [apply Qmult_le_compat_r; [exact Hsmall | discriminate]
          | apply Qle_bool_iff; reflexivity]. }
      assert (Hneg : Qle_bool 0 (q * 1000000000) = false).
      { destruct (Qle_bool 0 (q * 1000000000)) eqn:Hz; [| reflexivity].
        apply Qle_bool_iff in Hz.
        pose proof (Qle_trans _ _ _ Hz Hscaled) as Habsurd. now compute in Habsurd. }
      rewrite Hneg. apply Qfloor_resp_le in Hscaled. rewrite Qfloor_Z in Hscaled.
      now rewrite (proj2 (Z.ltb_lt _ PyTime_MIN)) by lia.
    + destruct (Qle_bool 0 q) eqn:Hsign; [discriminate |].
      match goal with
      | |- context [Qle_bool ?low q] => destruct (Qle_bool low q) eqn:Hlow; [| discriminate]
      end.
      intros [= <-]. apply Qle_bool_iff in Hlow.
      assert (Hneg : (q * 1000000000 < 0)%Q).
      { destruct (Qlt_le_dec q 0) as [Hq|Hq];
          [| apply Qle_bool_iff in Hq; congruence].
        setoid_replace 0%Q with (0 * 1000000000)%Q using relation Qeq by reflexivity.
        apply Qmult_lt_compat_r; [reflexivity | exact Hq]. }
      assert (Hscaled : (inject_Z (-9223372036000000000) <= q * 1000000000)%Q).
      { apply Qle_trans with (- 9223372036 * 1000000000)%Q;
          [apply Qle_bool_iff; reflexivity
          | apply Qmult_le_compat_r; [exact Hlow | discriminate]]. }
      assert (Hnot : Qle_bool 0 (q * 1000000000) = false).
      { destruct (Qle_bool 0 (q * 1000000000)) eqn:Hz; [| reflexivity].
        apply Qle_bool_iff in Hz. exfalso. exact (Qlt_not_le _ _ Hneg Hz). }
      rewrite Hnot. apply Qfloor_resp_le in Hscaled. rewrite Qfloor_Z in Hscaled.
      assert (Hfloor : Qfloor (q * 1000000000) < 0).
      { destruct (Z_lt_le_dec (Qfloor (q * 1000000000)) 0) as [Hlt|Hge]; [exact Hlt |].
        exfalso. apply (Qlt_not_le _ _ Hneg).
        apply Qle_trans with (inject_Z (Qfloor (q * 1000000000)));
          [change 0%Q with (inject_Z 0); now rewrite <- Zle_Qle | apply Qfloor_le]. }
      rewrite (proj2 (Z.ltb_ge _ PyTime_MIN)) by lia.
      rewrite (proj2 (Z.ltb_ge PyTime_MAX _)) by lia. cbn [orb].
      now rewrite (proj2 (Z.ltb_lt _ 0)) by lia.
Qed.

(** X5: with a delay that [time.sleep] refuses the loop ends in the
    exception of [time.sleep] as soon as one attempt has failed: after a
    first launch that does not end with exit code 0 nothing is slept and
    nothing more is launched.  The exception is the [ValueError] "sleep
    length must be non-negative" for a negative delay down to -9223372036
    seconds, the [OverflowError] of the timestamp conversion for an infinite
    delay and for one of at least 9223372037 seconds in either direction,
    and a [ValueError] for a NaN. *)
Theorem flash_attempts_refused_delay (delay : pyfloat) (refusal : exn)
    (flash_cmd flash_log_path : str) (n : nat) (current : Z * str * str) (w : World) :
  sleep_refusal delay = Some refusal ->
  match shell w flash_cmd (length (launched w)) with
  | inr p => proc_returncode p <> 0
  | inl _ => True
  end ->
  exists w',
    flash_attempts (S n) delay flash_cmd flash_log_path current w = (inl refusal, w') /\
    launched w' = launched w ++ [flash_cmd] /\ slept w' = slept w.
Proof.
  intros Hdelay Hfail.
  destruct (run_command_async_stream_once flash_cmd flash_log_path w)
    as (rc & out & err & w1 & Hrun & Hl & Hs & _ & Hrc).
  assert (Hnz : (rc =? 0) = false).
  { apply Z.eqb_neq. destruct (shell w flash_cmd (length (launched w))); [lia |].
    destruct Hrc; lia. }
  exists w1. split; [| now split].
  simpl. rewrite (bind_inr _ _ _ _ _ Hrun). simpl. rewrite Hnz.
  unfold bind at 1. now rewrite (time_sleep_refused delay refusal w1 Hdelay).
Qed.

(** X6: when [ESP_MCP_FLASH_RETRIES] (default "10") does not parse as an
    integer, or parses as one that is not positive, [flash_esp_project]
    launches nothing and does not sleep; if it returns, it returns two empty
    texts. *)
Theorem flash_without_attempts
    (project_path : str) (port port_filter : option str) (w : World) :
  (forall z, py_int (from_option id "10" (environ w !! "ESP_MCP_FLASH_RETRIES")) = inr z ->
             z <= 0) ->
  let call := flash_esp_project LOG_DIR project_path port port_filter in
  launched (world_after call w) = launched w /\
  slept (world_after call w) = slept w /\
  forall r, outcome call w = inr r -> r = ("", "").
Proof.
  intros Hretries. cbv zeta. unfold world_after, outcome.
  set (P := fun res : (exn + str * str) * World =>
              calm w (snd res) /\ forall r, fst res = inr r -> r = ("", "")).
  assert (HP : P (flash_esp_project LOG_DIR project_path port port_filter w)).
  { assert (Hraise : forall e w1, calm w w1 -> P (inl e, w1)).
    { intros e w1 Hc. split; [exact Hc | discriminate]. }
    unfold flash_esp_project.
    apply (bind_calm P _ _ w w); [frames | reflexivity | exact Hraise |].
    intros _ w1 Hc1.
    apply (bind_calm P _ _ w w1); [frames | exact Hc1 | exact Hraise |].
    intros export_script w2 Hc2.
    unfold bind at 1. unfold environ_get.
    destruct Hc2 as (Henv & Hc2). rewrite Henv.
    assert (Hc2' : calm w w2) by (split; assumption).
    destruct (py_int (from_option id "10" (environ w !! "ESP_MCP_FLASH_RETRIES")))
      as [e|z] eqn:Hint; unfold bind at 1, lift; [apply Hraise, Hc2' |].
    unfold ret at 1.
    apply (bind_calm P _ _ w w2); [frames | exact Hc2' | exact Hraise |].
    intros delay_text w3 Hc3.
    apply (bind_calm P _ _ w w3); [frames | exact Hc3 | exact Hraise |].
    intros delay w4 Hc4. cbv zeta.
    apply (bind_calm P _ _ w w4); [frames | exact Hc4 | exact Hraise |].
    intros flash_log_path w5 Hc5.
    assert (Hzero : Z.to_nat z = 0%nat) by (specialize (Hretries z eq_refl); lia).
    rewrite Hzero. unfold flash_attempts, bind at 1, ret at 1.
    apply (bind_calm P _ _ w w5); [frames | exact Hc5 | exact Hraise |].
    intros _ w6 Hc6.
    apply (bind_calm P _ _ w w6); [frames | exact Hc6 | exact Hraise |].
    intros name w7 Hc7.
    apply (bind_calm P _ _ w w7); [frames | exact Hc7 | exact Hraise |].
    intros _ w8 Hc8. split; [exact Hc8 |]. intros r Hr. now inversion Hr. }
  destruct HP as ((_ & Hl & Hs & _) & Hret). now repeat split.
Qed.

End FlashInGeneral.

Lemma flash_attempts_bounded_witness :
  exists (k : nat) (result : Z * str * str) (w' : World),
    flash_attempts (rt := ascii_runtime) 3 (Finite 2) "idf.py flash" live_log (1, "", "")
      (flaky 1 with_idf) = (inr result, w') /\
    (k <= 3)%nat /\
    launched w' = launched (flaky 1 with_idf) ++ repeat "idf.py flash" k /\
    ((fst (fst result) = 0 /\ (1 <= k)%nat /\
      slept w' = slept (flaky 1 with_idf) ++ repeat 2%Q (k - 1)) \/
     (k = 3%nat /\ slept w' = slept (flaky 1 with_idf) ++ repeat 2%Q 3 /\
      (3%nat = 0%nat -> result = (1, "", "")) /\ (3%nat <> 0%nat -> fst (fst result) <> 0))).
Proof.
  exact (flash_attempts_bounded (rt := ascii_runtime) 2 "idf.py flash" live_log 3
           eq_refl eq_refl (1, "", "") (flaky 1 with_idf)).
Defined.

Example flash_second_attempt_succeeds :
  let w' := world_after (flash_attempts (rt := ascii_runtime) 3 (Finite 2) "idf.py flash"
                           live_log (1, "", "")) (flaky 1 with_idf) in
  launched w' = ["idf.py flash"; "idf.py flash"] /\ slept w' = [2%Q].
Proof. vm_compute. split; reflexivity. Qed.

Lemma flash_attempts_refused_delay_witness :
  exists w',
    flash_attempts (rt := ascii_runtime) 3 (Finite (-1)) "idf.py flash" live_log (1, "", "")
      (flaky 1 with_idf) =
      (inl (Raised ValueError "sleep length must be non-negative"), w') /\
    launched w' = launched (flaky 1 with_idf) ++ ["idf.py flash"] /\
    slept w' = slept (flaky 1 with_idf).
Proof.
  apply (flash_attempts_refused_delay (rt := ascii_runtime) (Finite (-1))
           (Raised ValueError "sleep length must be non-negative") "idf.py flash" live_log
           2 (1, "", "") (flaky 1 with_idf)); [reflexivity | vm_compute; discriminate].
Defined.

(** A delay of ten to the thirtieth seconds, as [ESP_MCP_FLASH_RETRY_DELAY]
    can hold it, ends the flash after its first failed attempt. *)
Example flash_with_a_delay_too_long :
  let w := workstation
             (retry_env "3" "1000000000000000000000000000000") (chatty 1) in
  let call := flash_esp_project (rt := ascii_runtime) logs "proj" None None in
  outcome call w =
    inl (Raised OverflowError "timestamp too large to convert to C _PyTime_t") /\
  length (launched (world_after call w)) = 1%nat /\ slept (world_after call w) = [].
Proof. vm_compute. repeat split; reflexivity. Qed.

Lemma flash_without_attempts_witness :
  let call := flash_esp_project (rt := ascii_runtime) logs "proj" None None in
  let w := workstation (retry_env "0" "1.0") (chatty 0) in
  launched (world_after call w) = launched w /\
  slept (world_after call w) = slept w /\
  forall r, outcome call w = inr r -> r = ("", "").
Proof.
  apply (flash_without_attempts (rt := ascii_runtime) logs "proj" None None
           (workstation (retry_env "0" "1.0") (chatty 0))).
  intros z Hz. vm_compute in Hz. injection Hz as <-. lia.
Defined.

(** ** Digits in file names *)

Lemma digit_char_not_slash (d : N) : (d < 16)%N -> not_slash (digit_char d) = true.
Proof.
  intros Hd.
  assert (Hall : holds_from (fun k => not_slash (digit_char k)) (N.to_nat 16) 0 = true)
    by (vm_compute; reflexivity).
  apply (holds_from_spec _ _ 0%N d Hall). rewrite N2Nat.id. lia.
Qed.

Lemma digits_aux_chars (P : ascii -> bool) (base : N) (fuel : nat) :
  (0 < base)%N -> (forall d, (d < base)%N -> P (digit_char d) = true) ->
  forall n acc, all_chars P acc = true -> all_chars P (digits_aux base fuel n acc) = true.
Proof.
  intros Hbase Hdigit. induction fuel as [|fuel IH]; intros n acc Hacc; simpl; [exact Hacc |].
  assert (Hstep : all_chars P (String (digit_char (n mod base)) acc) = true).
  { simpl. rewrite Hacc, Hdigit; [reflexivity |]. apply N.mod_lt. lia. }
  destruct (n / base =? 0)%N; [exact Hstep | now apply IH].
Qed.

Lemma zeros_chars (P : ascii -> bool) (k : nat) :
  P "0"%char = true -> all_chars P (zeros k) = true.
Proof. intros H0. induction k as [|k IH]; simpl; [reflexivity | now rewrite H0, IH]. Qed.

Lemma pad_dec_not_slash (width : nat) (n : N) : all_chars not_slash (pad_dec width n) = true.
Proof.
  unfold pad_dec, zfill. rewrite all_chars_app, zeros_chars by reflexivity.
  unfold digits. apply digits_aux_chars; [lia | | reflexivity].
  intros d Hd. apply digit_char_not_slash. lia.
Qed.

Lemma strftime_stamp_not_slash (t : struct_time) :
  all_chars not_slash (strftime_stamp t) = true.
Proof.
  unfold strftime_stamp. rewrite !all_chars_app, !pad_dec_not_slash. reflexivity.
Qed.

Lemma timestamped_plain (base : str) (t : struct_time) :
  all_chars not_slash base = true ->
  plain_name (base +:+ "-" +:+ strftime_stamp t +:+ ".log") = true.
Proof.
  intros Hbase. unfold plain_name. apply andb_true_intro. split.
  - destruct base; reflexivity.
  - rewrite !all_chars_app, Hbase, strftime_stamp_not_slash. reflexivity.
Qed.

(** ** What the tools leave in the log directory *)

Section LogsWritten.
Context {rt : PyRuntime}.
Variable LOG_DIR : str.

Lemma log_dir_not_log_file (name : str) : LOG_DIR <> LOG_DIR +:+ "/" +:+ name.
Proof.
  intros Heq. apply (f_equal String.length) in Heq.
  rewrite length_app_str in Heq. simpl in Heq. lia.
Qed.

Lemma log_dir_ready_after (w w' : World) :
  log_dir_ready LOG_DIR w -> denied w' = denied w -> files w' !! LOG_DIR = None ->
  (forall x, x ∈ dirs w' -> x ∈ with_log_dir LOG_DIR w) ->
  log_dir_ready LOG_DIR w'.
Proof.
  intros (Habs & Hend & Hden & Hfile & Hunder) Hd Hf Hdirs.
  split; [exact Habs |]. split; [exact Hend |]. split; [now rewrite Hd |].
  split; [exact Hf |]. intros name Hname. destruct (Hunder name Hname) as [Hnd Hndir].
  split; [now rewrite Hd |]. intros Hin. apply Hdirs in Hin.
  unfold with_log_dir in Hin. apply elem_of_union in Hin as [Hin|Hin].
  - exact (log_target_not_ancestor LOG_DIR name Hin).
  - exact (Hndir Hin).
Qed.

(** The three lines that end every tool but [run_pytest]: the fixed log,
    then the snapshot named after the time, both with the same content. *)
Lemma logs_written {B} (fixed base content : str) (k : M B) (w : World) :
  log_dir_ready LOG_DIR w -> plain_name fixed = true -> all_chars not_slash base = true ->
  exists w',
    (let* _ := _write_log LOG_DIR fixed content in
     let* name := _timestamped base in
     let* _ := _write_log LOG_DIR name content in
     k) w = k w' /\
    files w' =
      <[LOG_DIR +:+ "/" +:+ (base +:+ "-" +:+ strftime_stamp (localtime w (clock w)) +:+ ".log")
          := content]> (<[LOG_DIR +:+ "/" +:+ fixed := content]> (files w)) /\
    calm w w' /\ cwd w' = cwd w /\ clock w' = clock w /\ localtime w' = localtime w /\
    denied w' = denied w /\ dirs w ⊆ dirs w' /\ LOG_DIR ∈ dirs w'.
Proof.
  intros Hready Hfixed Hbase.
  pose proof (write_log_done LOG_DIR fixed content w Hready Hfixed) as Hfirst.
  set (w1 := set_files (<[LOG_DIR +:+ "/" +:+ fixed := content]> (files w))
               (set_dirs (with_log_dir LOG_DIR w) w)) in *.
  assert (Hready1 : log_dir_ready LOG_DIR w1).
  { apply (log_dir_ready_after w); [exact Hready | reflexivity | | trivial].
    subst w1. cbn [set_files files]. rewrite lookup_insert_ne.
    - now destruct Hready as (_ & _ & _ & Hfile & _).
    - intros Heq. symmetry in Heq. exact (log_dir_not_log_file fixed Heq). }
  set (name := base +:+ "-" +:+ strftime_stamp (localtime w (clock w)) +:+ ".log").
  assert (Hname : plain_name name = true) by now apply timestamped_plain.
  pose proof (write_log_done LOG_DIR name content w1 Hready1 Hname) as Hsecond.
  eexists. split.
  { rewrite (bind_inr _ _ _ _ _ Hfirst).
    rewrite (bind_inr _ _ _ _ _ (eq_refl : _timestamped base w1 = (inr name, w1))).
    rewrite (bind_inr _ _ _ _ _ Hsecond). reflexivity. }
  split; [reflexivity |]. split; [now repeat split |].
  split; [reflexivity |]. split; [reflexivity |]. split; [reflexivity |].
  split; [reflexivity |]. cbn [set_files set_dirs dirs]. split.
  - intros x Hx. subst w1. unfold with_log_dir. cbn [set_files set_dirs dirs].
    now do 2 apply elem_of_union_r.
  - unfold with_log_dir at 1. apply elem_of_union_l, elem_of_list_to_set, list_elem_of_In.
    apply ancestors_self.
Qed.

Lemma get_export_script_resolved (idf_path : option str) (w : World) :
  truthy_opt idf_path = true \/ is_Some (environ w !! "IDF_PATH") ->
  get_export_script idf_path w =
    (inr (os_path_join (resolved_idf_dir idf_path w) "export.sh"), w).
Proof.
  intros Hcfg. unfold get_export_script, get_esp_idf_dir, resolved_idf_dir.
  destruct (truthy_opt idf_path) eqn:Hgiven; [reflexivity |].
  destruct Hcfg as [Hcfg|[d Hd]]; [discriminate |].
  unfold bind at 1. unfold bind at 1. unfold environ_has.
  rewrite bool_decide_eq_true_2 by (rewrite Hd; now eexists).
  unfold environ_item. now rewrite Hd.
Qed.

Lemma nonblank_truthy (o : option str) : nonblank o <> None -> truthy_opt (nonblank o) = true.
Proof.
  destruct o as [s|]; simpl; [| congruence].
  destruct (truthy s) eqn:Ht; simpl; [| congruence].
  destruct (strip_nonempty s); simpl; [now rewrite Ht | congruence].
Qed.

(** X7: where the log directory can be made and written to, [_write_log]
    succeeds and the file [name] of the log directory then holds [content]
    and nothing else, whatever it held before; no other file is touched, the
    working directory stays, and the log directory exists afterwards. *)
Theorem write_log_round_trip (name content : str) (w : World) :
  log_dir_ready LOG_DIR w -> plain_name name = true ->
  let w' := world_after (_write_log LOG_DIR name content) w in
  outcome (_write_log LOG_DIR name content) w = inr tt /\
  file_content w' (os_path_join LOG_DIR name) = content /\
  (forall path, path <> os_path_join LOG_DIR name -> files w' !! path = files w !! path) /\
  cwd w' = cwd w /\ LOG_DIR ∈ dirs w' /\ dirs w ⊆ dirs w'.
Proof.
  intros Hready Hname. cbv zeta. unfold outcome, world_after.
  rewrite (write_log_done LOG_DIR name content w Hready Hname).
  destruct Hready as (Habs & Hend & _).
  rewrite (join_log_dir _ _ Habs Hend Hname). cbn [fst snd].
  split; [reflexivity |]. split.
  { unfold file_content. rewrite (abspath_absolute _ _ (is_abs_app _ _ Habs)).
    cbn [set_files files]. now rewrite lookup_insert_eq. }
  split.
  { intros path Hpath. cbn [set_files files]. now rewrite lookup_insert_ne. }
  split; [reflexivity |]. cbn [set_files set_dirs dirs]. unfold with_log_dir. split.
  - apply elem_of_union_l, elem_of_list_to_set, list_elem_of_In, ancestors_self.
  - intros x Hx. now apply elem_of_union_r.
Qed.

(** X8: with the log directory writable, the project directory enterable
    and the toolchain path given or in [IDF_PATH], [build_esp_project]
    returns whatever the build does.  It launches one command, which sources
    the export script of the toolchain directory and runs [idf.py build];
    it returns what the streaming runner returns for that command: its
    stdout followed by the timing line for the time the clock advanced
    during the call, and its stderr.  The fixed log and the snapshot named
    after the time of writing both hold the text of the pair without the
    timing line, and the process is left in the project directory. *)
Theorem build_esp_project_configured
    (project_path : str) (idf_path sdkconfig_defaults : option str) (w : World) :
  log_dir_ready LOG_DIR w ->
  can_enter w project_path = true ->
  nonblank idf_path <> None \/ is_Some (environ w !! "IDF_PATH") ->
  let call := build_esp_project LOG_DIR project_path idf_path sdkconfig_defaults in
  let w' := world_after call w in
  let command :=
    "bash -c " +:+ dquote +:+ "source " +:+
    os_path_join (resolved_idf_dir (nonblank idf_path) w) "export.sh" +:+ " && " +:+
    match nonblank sdkconfig_defaults with
    | Some defaults => "idf.py build -DSDKCONFIG_DEFAULTS=" +:+ shlex_quote defaults
    | None => "idf.py build"
    end +:+ dquote in
  exists rc out err,
    outcome (run_command_async_stream command (os_path_join LOG_DIR "mcp-process-live.log"))
            (world_after (let* _ := os_chdir project_path in _ensure_log_dir LOG_DIR) w) =
      inr (rc, out, err) /\
    outcome call w = inr (out +:+ timing_info "Build" (clock w' - clock w), err) /\
    launched w' = launched w ++ [command] /\
    file_content w' (os_path_join LOG_DIR "mcp-process.log") = str_of_pair out err /\
    file_content w'
      (os_path_join LOG_DIR
         ("mcp-process" +:+ "-" +:+ strftime_stamp (localtime w' (clock w')) +:+ ".log")) =
      str_of_pair out err /\
    cwd w' = abspath w project_path.
Proof.
  intros Hready Henter Hcfg. cbv zeta. unfold outcome, world_after.
  assert (Habs : is_abs LOG_DIR = true) by now destruct Hready.
  assert (Hend : ends_with_slash LOG_DIR = false) by now destruct Hready as (_ & ? & _).
  set (command :=
    "bash -c " +:+ dquote +:+ "source " +:+
    os_path_join (resolved_idf_dir (nonblank idf_path) w) "export.sh" +:+ " && " +:+
    match nonblank sdkconfig_defaults with
    | Some defaults => "idf.py build -DSDKCONFIG_DEFAULTS=" +:+ shlex_quote defaults
    | None => "idf.py build"
    end +:+ dquote).
  set (w1 := set_cwd (abspath w project_path) w).
  assert (Hready1 : log_dir_ready LOG_DIR w1).
  { apply (log_dir_ready_after w); [exact Hready | reflexivity | |].
    - now destruct Hready as (_ & _ & _ & Hfile & _).
    - intros x Hx. unfold with_log_dir. now apply elem_of_union_r. }
  set (w2 := set_dirs (with_log_dir LOG_DIR w1) w1).
  assert (Hbefore : (let* _ := os_chdir project_path in _ensure_log_dir LOG_DIR) w =
                    (inr tt, w2)).
  { rewrite (bind_inr _ _ _ _ _ (chdir_enters project_path w Henter)).
    exact (log_dir_made LOG_DIR w1 Hready1). }
  rewrite Hbefore. cbn [snd].
  rewrite (join_log_dir LOG_DIR "mcp-process-live.log" Habs Hend eq_refl).
  set (live := LOG_DIR +:+ "/" +:+ "mcp-process-live.log").
  destruct (run_command_async_stream_once command live w2)
    as (rc & out & err & w3 & Hrun & Hlaunched & _).
  assert (Hrun_all : exists w4,
    build_esp_project LOG_DIR project_path idf_path sdkconfig_defaults w =
      (inr (out +:+ timing_info "Build" (clock w4 - clock w), err), w4) /\
    launched w4 = launched w ++ [command] /\
    files w4 =
      <[LOG_DIR +:+ "/" +:+
          ("mcp-process" +:+ "-" +:+ strftime_stamp (localtime w4 (clock w4)) +:+ ".log")
          := str_of_pair out err]>
        (<[LOG_DIR +:+ "/" +:+ "mcp-process.log" := str_of_pair out err]> (files w3)) /\
    cwd w4 = abspath w project_path).
  { unfold build_esp_project. unfold bind at 1. unfold time_time at 1.
    rewrite (bind_inr _ _ _ _ _ (chdir_enters project_path w Henter)). fold w1.
    rewrite (bind_inr _ _ _ _ _ (get_export_script_resolved (nonblank idf_path) w1
               ltac:(destruct Hcfg as [Hcfg|Hcfg];
                     [left; now apply nonblank_truthy | now right]))).
    cbv zeta.
    rewrite (bind_inr _ _ _ _ _
               (log_path_made LOG_DIR "mcp-process-live.log" w1 Hready1 eq_refl)).
    fold w2. fold live.
    change (resolved_idf_dir (nonblank idf_path) w1)
      with (resolved_idf_dir (nonblank idf_path) w).
    fold command.
    pose proof (log_only_run_command_async_stream command live w2) as Hlog.
    rewrite Hrun in Hlog. cbn [snd] in Hlog.
    destruct Hlog as ((Hcwd3 & Hdirs3 & Hdenied3) & Hothers & _).
    rewrite (bind_inr _ _ _ _ _ Hrun). cbn iota beta.
    assert (Hready3 : log_dir_ready LOG_DIR w3).
    { apply (log_dir_ready_after w1); [exact Hready1 | exact Hdenied3 | |].
      - rewrite Hothers.
        + now destruct Hready as (_ & _ & _ & Hfile & _).
        + subst live. rewrite (abspath_absolute _ _ (is_abs_app _ _ Habs)).
          apply log_dir_not_log_file.
      - intros x Hx. now rewrite Hdirs3 in Hx. }
    unfold bind at 1. unfold time_time at 1. cbv zeta.
    destruct (logs_written "mcp-process.log" "mcp-process" (str_of_pair out err)
                (ret (out +:+ timing_info "Build" (clock w3 - clock w), err)) w3 Hready3
                eq_refl eq_refl)
      as (w4 & Hend4 & Hfiles & (_ & Hlaunched4 & _) & Hcwd4 & Hclock4 & Hlocal4 & _).
    rewrite Hend4. unfold ret.
    exists w4. rewrite Hclock4, Hlocal4.
    split; [reflexivity |]. split; [now rewrite Hlaunched4, Hlaunched |].
    split; [exact Hfiles | now rewrite Hcwd4, Hcwd3]. }
  destruct Hrun_all as (w4 & -> & Hlaunched4 & Hfiles & Hcwd).
  rewrite Hrun. cbn [fst snd]. exists rc, out, err.
  split; [reflexivity |]. split; [reflexivity |]. split; [exact Hlaunched4 |].
  rewrite !join_log_dir by (try assumption; try reflexivity; now apply timestamped_plain).
  unfold file_content. rewrite !(abspath_absolute _ _ (is_abs_app _ _ Habs)), Hfiles.
  split; [| split; [now rewrite lookup_insert_eq | exact Hcwd]].
  match goal with |- context [<[?k1 := _]> (<[?k2 := _]> _) !! _] =>
    destruct (decide (k1 = k2)) as [->|Hne] end.
  - now rewrite lookup_insert_eq.
  - rewrite lookup_insert_ne by exact Hne. now rewrite lookup_insert_eq.
Qed.

End LogsWritten.

Lemma workstation_log_dir_ready (env : gmap string string) (p : Process) :
  log_dir_ready logs (workstation env p).
Proof.
  split; [reflexivity |]. split; [vm_compute; reflexivity |].
  split; [apply not_elem_of_empty |].
  split; [apply lookup_singleton_ne; discriminate |].
  intros name _. split; [apply not_elem_of_empty |].
  unfold workstation, logs. cbn [dirs]. simpl.
  rewrite !elem_of_union, !elem_of_singleton.
  intros H. repeat (destruct H as [H|H]; [| discriminate H]); discriminate H.
Qed.

Lemma write_log_round_trip_witness :
  let w := workstation with_idf (chatty 0) in
  let w' := world_after (_write_log logs "mcp-ports.log" "ports") w in
  outcome (_write_log logs "mcp-ports.log" "ports") w = inr tt /\
  file_content w' (os_path_join logs "mcp-ports.log") = "ports" /\
  (forall path, path <> os_path_join logs "mcp-ports.log" ->
                files w' !! path = files w !! path) /\
  cwd w' = cwd w /\ logs ∈ dirs w' /\ dirs w ⊆ dirs w'.
Proof.
  exact (write_log_round_trip logs "mcp-ports.log" "ports" (workstation with_idf (chatty 0))
           (workstation_log_dir_ready _ _) eq_refl).
Defined.

Lemma build_esp_project_configured_witness :
  let w := workstation with_idf (chatty 0) in
  let call := build_esp_project (rt := ascii_runtime) logs "proj" None None in
  let w' := world_after call w in
  let command :=
    "bash -c " +:+ dquote +:+ "source " +:+
    os_path_join (resolved_idf_dir (nonblank None) w) "export.sh" +:+ " && " +:+
    match nonblank None with
    | Some defaults => "idf.py build -DSDKCONFIG_DEFAULTS=" +:+ shlex_quote defaults
    | None => "idf.py build"
    end +:+ dquote in
  exists rc out err,
    outcome (run_command_async_stream (rt := ascii_runtime) command
               (os_path_join logs "mcp-process-live.log"))
            (world_after (let* _ := os_chdir "proj" in _ensure_log_dir logs) w) =
      inr (rc, out, err) /\
    outcome call w = inr (out +:+ timing_info "Build" (clock w' - clock w), err) /\
    launched w' = launched w ++ [command] /\
    file_content w' (os_path_join logs "mcp-process.log") =
      str_of_pair (rt := ascii_runtime) out err /\
    file_content w'
      (os_path_join logs
         ("mcp-process" +:+ "-" +:+ strftime_stamp (localtime w' (clock w')) +:+ ".log")) =
      str_of_pair (rt := ascii_runtime) out err /\
    cwd w' = abspath w "proj".
Proof.
  apply (build_esp_project_configured (rt := ascii_runtime) logs "proj" None None
           (workstation with_idf (chatty 0)));
    [apply workstation_log_dir_ready | vm_compute; reflexivity
    | right; exists "/opt/esp-idf"; reflexivity].
Defined.

Example build_esp_project_example :
  let w := workstation with_idf (chatty 0) in
  let call := build_esp_project (rt := ascii_runtime) logs "proj" None None in
  outcome call w =
    inr ("hello" +:+ nl +:+ "bye" +:+ nl +:+ nl +:+ nl +:+
         "[Build completed in 0m 2.50s (2.50 seconds)]" +:+ nl, "warn" +:+ nl) /\
  launched (world_after call w) =
    ["bash -c " +:+ dquote +:+ "source /opt/esp-idf/export.sh && idf.py build" +:+ dquote] /\
  file_content (world_after call w) "/home/dev/.ai/logs/esp_mcp/mcp-process-20261104-090507.log" =
    "('hello\nbye\n', 'warn\n')".
Proof. vm_compute. repeat split; reflexivity. Qed.

(** ** The streaming runner and a log that cannot be written *)

Section UnwritableLog.
Context {rt : PyRuntime}.

Lemma gather_unwritable (log_path line : str) (rest : list chunk) (chunks : list str)
    (w : World) :
  can_open_for_write w log_path = false -> line <> "" -> overrun line = false ->
  forall arrival err,
    Forall (fun c => exists b, c = Data b /\ overrun b = false) (unread (fst err)) ->
    gather log_path arrival (Reading (Data line :: rest), chunks) err w =
      (inl (open_error w log_path), w).
Proof.
  intros Hopen Hline Hfit.
  assert (Hturn : forall prefix,
            _read_stream_turn log_path prefix (Reading (Data line :: rest), chunks) w =
              (inl (open_error w log_path), w)).
  { intros prefix. unfold _read_stream_turn, readline. rewrite Hfit.
    unfold bind at 1. unfold ret at 1.
    apply String.eqb_neq in Hline. rewrite Hline.
    unfold bind, append_to_file. now rewrite Hopen. }
  induction arrival as [|[|] later IH]; intros err Herr.
  - cbn [gather]. unfold _read_stream. cbn [fst unread length turns].
    unfold bind at 1. unfold bind at 1. now rewrite Hturn.
  - cbn [gather]. unfold bind at 1. now rewrite Hturn.
  - cbn [gather]. destruct err as [[stream|] echunks].
    + destruct stream as [|[b|e] others].
      * unfold bind at 1. simpl. apply IH. constructor.
      * cbn [fst unread] in Herr. inversion Herr as [|? ? Hhead _].
        destruct Hhead as (b' & Hsame & Hb). injection Hsame as ->.
        unfold bind at 1. unfold _read_stream_turn, readline. rewrite Hb.
        unfold bind at 1. unfold ret at 1. destruct (String.eqb b' "").
        -- unfold ret at 1. apply IH. constructor.
        -- unfold bind, append_to_file. now rewrite Hopen.
      * cbn [fst unread] in Herr. inversion Herr as [|? ? [b [Hb _]] _]. discriminate.
    + unfold bind at 1. simpl. apply IH. constructor.
Qed.

(** X9: when the log cannot be opened for appending and the process writes
    a line of at most 65536 bytes to its stdout,
    [run_command_async_stream] has launched the command but returns its
    error result: exit code 1 whatever the process ends with, an empty
    stdout, and the text of the [OSError] of [open]; it writes no file and
    does not wait for the process. *)
Theorem stream_runner_unwritable_log
    (command log_path line : str) (rest : list chunk) (p : Process) (w : World) :
  shell w command (length (launched w)) = inr p ->
  proc_stdout p = Data line :: rest -> line <> "" -> overrun line = false ->
  Forall (fun c => exists b, c = Data b /\ overrun b = false) (proc_stderr p) ->
  can_open_for_write w log_path = false ->
  let w' := world_after (run_command_async_stream command log_path) w in
  outcome (run_command_async_stream command log_path) w =
    inr (1, "", "Error executing command: " +:+ exn_msg (open_error w log_path)) /\
  launched w' = launched w ++ [command] /\ files w' = files w /\ clock w' = clock w.
Proof.
  intros Hshell Hout Hline Hfit Herr Hopen. cbv zeta. unfold outcome, world_after.
  assert (Hrun : run_command_async_stream command log_path w =
            (inr (1, "", "Error executing command: " +:+ exn_msg (open_error w log_path)),
             set_launched (launched w ++ [command]) w)).
  { unfold run_command_async_stream, try_except, run_command_async_stream_body.
    unfold bind at 1. unfold create_subprocess_shell. rewrite Hshell.
    unfold bind at 1. rewrite Hout.
    rewrite (gather_unwritable log_path line rest []
               (set_launched (launched w ++ [command]) w) Hopen Hline Hfit); [reflexivity |].
    exact Herr. }
  rewrite Hrun. now repeat split.
Qed.

End UnwritableLog.

Lemma stream_runner_unwritable_log_witness :
  let w := workstation with_idf (chatty 0) in
  let w' := world_after (run_command_async_stream (rt := ascii_runtime)
                           "make" "/nowhere/live.log") w in
  outcome (run_command_async_stream (rt := ascii_runtime) "make" "/nowhere/live.log") w =
    inr (1, "", "Error executing command: " +:+
                exn_msg (open_error w "/nowhere/live.log")) /\
  launched w' = launched w ++ ["make"] /\ files w' = files w /\ clock w' = clock w.
Proof.
  apply (stream_runner_unwritable_log (rt := ascii_runtime) "make" "/nowhere/live.log"
           ("hello" +:+ nl) [Data ("bye" +:+ nl)] (chatty 0) (workstation with_idf (chatty 0)));
    [reflexivity | reflexivity | discriminate | reflexivity
    | repeat constructor; eexists; split; reflexivity | vm_compute; reflexivity].
Defined.

Example unwritable_log_message :
  outcome (run_command_async_stream (rt := ascii_runtime) "make" "/nowhere/live.log")
          (workstation with_idf (chatty 0)) =
    inr (1, "", "Error executing command: [Errno 2] No such file or directory: '/nowhere/live.log'").
Proof. vm_compute. reflexivity. Qed.

(** ** The toolchain directory *)

Section Toolchain.
Context {rt : PyRuntime}.
Variable LOG_DIR : str.

(** X10: [check_esp_idf_installed] never raises and changes nothing; with no
    path given and [IDF_PATH] unset it answers [False]. *)
Theorem check_esp_idf_installed_never_raises (idf_path : option str) (w : World) :
  exists answer,
    check_esp_idf_installed idf_path w = (inr answer, w) /\
    (truthy_opt idf_path = false -> environ w !! "IDF_PATH" = None -> answer = false).
Proof.
  unfold check_esp_idf_installed, try_except, get_esp_idf_dir.
  destruct (truthy_opt idf_path) eqn:Hgiven.
  - eexists. split; [reflexivity | discriminate].
  - unfold bind at 1. unfold bind at 1. unfold environ_has.
    destruct (environ w !! "IDF_PATH") as [d|] eqn:Henv.
    + rewrite bool_decide_eq_true_2 by now eexists.
      unfold environ_item. rewrite Henv. eexists. split; [reflexivity | discriminate].
    + rewrite bool_decide_eq_false_2 by (intros [? ?]; discriminate).
      eexists. split; [reflexivity | reflexivity].
Qed.

(** X11: when the install script is not there, or no toolchain directory
    is configured, [run_esp_idf_install] does nothing: it launches nothing,
    writes no log, stays where it is, and returns an empty stdout with the
    reason in stderr. *)
Theorem install_without_script (idf_path : option str) (w : World) :
  (forall d, outcome (get_esp_idf_dir (nonblank idf_path)) w = inr d ->
             outcome (os_path_exists (os_path_join d "install.sh")) w = inr false) ->
  run_esp_idf_install LOG_DIR idf_path w =
    (inr ("",
          match outcome (get_esp_idf_dir (nonblank idf_path)) w with
          | inr d => "install.sh not found at " +:+ os_path_join d "install.sh" +:+
                     ". Please verify the ESP-IDF path is correct."
          | inl e => exn_msg e
          end), w).
Proof.
  intros Hmissing. unfold run_esp_idf_install. unfold bind at 1. unfold time_time at 1.
  unfold bind at 1. unfold try_except. unfold bind at 1.
  assert (Hdir : (exists d, get_esp_idf_dir (nonblank idf_path) w = (inr d, w)) \/
                 get_esp_idf_dir (nonblank idf_path) w =
                   (inl (Raised ValueError missing_idf_path), w)).
  { unfold get_esp_idf_dir. destruct (truthy_opt (nonblank idf_path)).
    - left. eexists. reflexivity.
    - unfold bind, environ_has, environ_item.
      destruct (environ w !! "IDF_PATH") as [d|] eqn:Henv.
      + rewrite bool_decide_eq_true_2 by now eexists. left. exists d. cbn beta iota. now rewrite Henv.
      + rewrite bool_decide_eq_false_2 by (intros [? ?]; discriminate). right. reflexivity. }
  destruct Hdir as [[d Hd]|Hd].
  - specialize (Hmissing d). unfold outcome in *. rewrite Hd in *. cbn [fst] in *.
    specialize (Hmissing eq_refl). unfold ret at 1. unfold bind at 1.
    unfold os_path_exists in *. cbn [fst] in Hmissing. injection Hmissing as Hmissing.
    rewrite Hmissing. reflexivity.
  - unfold outcome. rewrite Hd. reflexivity.
Qed.

(** X12: with [IDF_PATH] unset [create_esp_project] raises its
    [ValueError] only after it has made the project directory and moved
    into it: the directory exists afterwards and is the working directory;
    nothing was launched and no file was written. *)
Theorem create_esp_project_unconfigured (project_path project_name : str) (w : World) :
  can_create_dir w project_path = true ->
  environ w !! "IDF_PATH" = None ->
  let call := create_esp_project LOG_DIR project_path project_name in
  outcome call w =
    inl (Raised ValueError
           "IDF_PATH must be provided either as parameter or environment variable") /\
  abspath w project_path ∈ dirs (world_after call w) /\
  cwd (world_after call w) = abspath w project_path /\
  launched (world_after call w) = launched w /\
  files (world_after call w) = files w.
Proof.
  intros Hcreate Hunset. cbv zeta. unfold outcome, world_after.
  assert (Hrun : create_esp_project LOG_DIR project_path project_name w =
            (inl (Raised ValueError
                    "IDF_PATH must be provided either as parameter or environment variable"),
             set_cwd (abspath w project_path)
               (set_dirs (list_to_set (ancestors (String.length (abspath w project_path))
                                         (abspath w project_path)) ∪ dirs w) w))).
  { unfold create_esp_project. unfold bind at 1.
    destruct (makedirs_then_enter project_path w Hcreate) as (w1 & Hmade & Henter & Hsame).
    assert (Hw1 : w1 = set_dirs (list_to_set (ancestors (String.length (abspath w project_path))
                                   (abspath w project_path)) ∪ dirs w) w).
    { unfold os_makedirs in Hmade. rewrite Hcreate in Hmade. now injection Hmade. }
    rewrite Hmade. rewrite (bind_inr _ _ _ _ _ (chdir_enters project_path w1 Henter)).
    rewrite Hsame. subst w1.
    unfold bind at 1. unfold get_export_script. unfold bind at 1.
    unfold get_esp_idf_dir. cbn [truthy_opt]. unfold bind at 1. unfold environ_has.
    cbn [set_cwd set_dirs environ]. rewrite Hunset.
    rewrite bool_decide_eq_false_2 by (intros [? ?]; discriminate). reflexivity. }
  rewrite Hrun. cbn [fst snd set_cwd set_dirs dirs cwd launched files].
  split; [reflexivity |]. split; [| now repeat split].
  apply elem_of_union_l, elem_of_list_to_set, list_elem_of_In, ancestors_self.
Qed.

End Toolchain.

Lemma install_without_script_witness :
  run_esp_idf_install (rt := ascii_runtime) logs (Some "/home/dev/proj")
      (workstation with_idf (chatty 0)) =
    (inr ("",
          match outcome (get_esp_idf_dir (nonblank (Some "/home/dev/proj")))
                        (workstation with_idf (chatty 0)) with
          | inr d => "install.sh not found at " +:+ os_path_join d "install.sh" +:+
                     ". Please verify the ESP-IDF path is correct."
          | inl e => exn_msg e
          end), workstation with_idf (chatty 0)).
Proof.
  apply (install_without_script (rt := ascii_runtime) logs (Some "/home/dev/proj")
           (workstation with_idf (chatty 0))).
  intros d Hd. vm_compute in Hd. injection Hd as <-. vm_compute. reflexivity.
Defined.

Lemma create_esp_project_unconfigured_witness :
  let w := workstation ∅ (chatty 0) in
  let call := create_esp_project (rt := ascii_runtime) logs "/home/dev/fresh" "blink" in
  outcome call w =
    inl (Raised ValueError
           "IDF_PATH must be provided either as parameter or environment variable") /\
  abspath w "/home/dev/fresh" ∈ dirs (world_after call w) /\
  cwd (world_after call w) = abspath w "/home/dev/fresh" /\
  launched (world_after call w) = launched w /\
  files (world_after call w) = files w.
Proof.
  apply (create_esp_project_unconfigured (rt := ascii_runtime) logs "/home/dev/fresh" "blink"
           (workstation ∅ (chatty 0))); [vm_compute; reflexivity | reflexivity].
Defined.

(** ** The lines of a port listing *)

Lemma digit_char_not_lf (d : N) : (d < 16)%N -> not_lf (digit_char d) = true.
Proof.
  intros Hd.
  assert (Hall : holds_from (fun k => not_lf (digit_char k)) (N.to_nat 16) 0 = true)
    by (vm_compute; reflexivity).
  apply (holds_from_spec _ _ 0%N d Hall). rewrite N2Nat.id. lia.
Qed.

Lemma format_04x_not_lf (z : Z) : all_chars not_lf (format_04x z) = true.
Proof.
  assert (Hdigits : forall n, all_chars not_lf (digits 16 n) = true).
  { intros n. unfold digits. apply digits_aux_chars; [lia | | reflexivity].
    intros d Hd. now apply digit_char_not_lf. }
  unfold format_04x, zfill.
  destruct (z <? 0); rewrite !all_chars_app, zeros_chars, Hdigits; reflexivity.
Qed.

Lemma id_str_not_lf (o : option Z) : all_chars not_lf (id_str o) = true.
Proof.
  destruct o as [z|]; [| reflexivity].
  unfold id_str. now rewrite all_chars_app, format_04x_not_lf.
Qed.

Lemma all_chars_rstrip (P : ascii -> bool) (s : str) :
  all_chars P s = true -> all_chars P (rstrip s) = true.
Proof.
  induction s as [|c s IH]; [reflexivity |]. intros Hs.
  cbn [all_chars] in Hs. apply andb_prop in Hs as [Hc Hs].
  cbn [rstrip]. destruct (all_space (String c s)); [reflexivity |].
  cbn [all_chars]. now rewrite Hc, IH.
Qed.

Lemma port_line_not_lf (p : Port) :
  one_line_port p = true -> all_chars not_lf (port_line p) = true.
Proof.
  unfold one_line_port. intros Hp. apply andb_prop in Hp as [Hdev Hdesc].
  unfold port_line. apply all_chars_rstrip.
  rewrite !all_chars_app, Hdev, Hdesc, !id_str_not_lf. reflexivity.
Qed.

Lemma lines_of_no_lf (s rest : str) :
  all_chars not_lf s = true -> lines_of (s +:+ nl +:+ rest) = s :: lines_of rest.
Proof.
  induction s as [|c s IH]; intros Hs; [reflexivity |].
  cbn [all_chars] in Hs. apply andb_prop in Hs as [Hc Hs].
  unfold not_lf in Hc. apply negb_true_iff in Hc.
  change (String c s +:+ nl +:+ rest) with (String c (s +:+ nl +:+ rest)).
  cbn [lines_of]. now rewrite Hc, (IH Hs).
Qed.

Lemma lines_of_join (lines : list str) :
  lines <> [] -> Forall (fun l => all_chars not_lf l = true) lines ->
  lines_of (join nl lines +:+ nl) = lines.
Proof.
  induction lines as [|l rest IH]; intros Hne Hall; [contradiction |].
  inversion Hall as [|? ? Hl Hrest]; subst.
  destruct rest as [|l' rest].
  - change (join nl [l] +:+ nl) with (l +:+ nl +:+ "").
    now rewrite (lines_of_no_lf _ _ Hl).
  - change (join nl (l :: l' :: rest)) with (l +:+ nl +:+ join nl (l' :: rest)).
    rewrite !app_assoc_str.
    rewrite (lines_of_no_lf _ _ Hl), IH; [reflexivity | discriminate | exact Hrest].
Qed.

Lemma shown_ports_enumerated (vid pid : option Z) (ports : list Port) (p : Port) :
  In p (shown_ports vid pid ports) -> In p ports.
Proof.
  assert (Hsorted : In p (sort_by_key _port_rank ports) -> In p ports).
  { apply Permutation_in. apply Permutation_sym, sort_by_key_perm. }
  assert (Hfiltered : In p (List.filter (passes vid pid) ports) -> In p ports).
  { intros Hin. now apply filter_In in Hin. }
  unfold shown_ports. destruct vid, pid; assumption.
Qed.

Section PortLines.
Context {rt : PyRuntime}.
Variable LOG_DIR : str.

(** X13: when pyserial enumerates the ports and no device path or
    description holds a line feed, the stdout of [list_serial_ports] read
    line by line is the list of the ports' lines, one line per port shown
    and in the order shown; the exit code is 0. *)
Theorem port_listing_line_per_port (vid pid : option Z) (ports : list Port) (w : World) :
  pyserial w = Importable (inr ports) ->
  Forall (fun p => one_line_port p = true) ports ->
  exists out err,
    outcome (list_serial_ports vid pid) w = inr (0, out, err) /\
    lines_of out = map port_line (shown_ports vid pid ports).
Proof.
  intros Hpy Hports. unfold outcome.
  rewrite (list_serial_ports_imported vid pid w (inr ports) Hpy). cbn [fst].
  change (match vid with
          | Some _ => List.filter (passes vid pid) ports
          | None => match pid with
                    | Some _ => List.filter (passes vid pid) ports
                    | None => sort_by_key _port_rank ports
                    end
          end) with (shown_ports vid pid ports).
  unfold listing. destruct (map port_line (shown_ports vid pid ports)) as [|l ls] eqn:Hlines.
  - exists "", "No serial ports matched the requested filter.". now split.
  - eexists _, _. split; [reflexivity |]. rewrite <- Hlines. apply lines_of_join.
    + rewrite Hlines. discriminate.
    + apply List.Forall_map, List.Forall_forall. intros p Hp.
      apply port_line_not_lf.
      apply (proj1 (List.Forall_forall _ _) Hports), (shown_ports_enumerated vid pid), Hp.
Qed.

Lemma parse_usb_id_unparsable (text : str) (e : exn) (w : World) :
  py_int_base0 text = inl e -> is_TypeError_or_ValueError e = true ->
  parse_usb_id (Some text) w = parse_usb_id None w.
Proof.
  intros Hint He. unfold parse_usb_id, try_except, bind, lift. rewrite Hint.
  unfold raise. now rewrite He.
Qed.

Lemma parse_usb_id_world (value : option str) (w : World) :
  snd (parse_usb_id value w) = w.
Proof.
  destruct value as [text|]; [| reflexivity].
  unfold parse_usb_id, try_except, bind, lift.
  destruct (py_int_base0 text) as [e|n]; [| reflexivity].
  unfold raise. destruct (is_TypeError_or_ValueError e); reflexivity.
Qed.

(** X14: a [vid] or [pid] text that [int(text, 0)] rejects is not an error
    for [list_esp_serial_ports]: the tool does what it does when that filter
    is not given at all. *)
Theorem list_esp_serial_ports_unparsable_id (text : str) (e : exn) (other : option str)
    (w : World) :
  py_int_base0 text = inl e -> is_TypeError_or_ValueError e = true ->
  list_esp_serial_ports LOG_DIR (Some text) other w =
    list_esp_serial_ports LOG_DIR None other w /\
  list_esp_serial_ports LOG_DIR other (Some text) w =
    list_esp_serial_ports LOG_DIR other None w.
Proof.
  intros Hint He. unfold list_esp_serial_ports. split.
  - unfold bind at 1. symmetry. unfold bind at 1. symmetry.
    now rewrite (parse_usb_id_unparsable text e w Hint He).
  - unfold bind at 1. symmetry. unfold bind at 1. symmetry.
    destruct (parse_usb_id other w) as [[e'|vid_int] w1]; [reflexivity |].
    unfold bind at 1. symmetry. unfold bind at 1. symmetry.
    now rewrite (parse_usb_id_unparsable text e w1 Hint He).
Qed.

Lemma list_serial_ports_returns (vid pid : option Z) (w : World) :
  exists result w1,
    list_serial_ports vid pid w = (inr result, w1) /\
    files w1 = files w /\ dirs w1 = dirs w /\ denied w1 = denied w /\ cwd w1 = cwd w.
Proof.
  destruct (pyserial w) as [e|r] eqn:Hpy.
  - unfold list_serial_ports, try_except, bind, import_list_ports. rewrite Hpy.
    unfold list_serial_ports_subprocess, ports_fallback, bind, create_subprocess_shell,
      process_communicate, bind, lift, process_wait, ret, raise.
    destruct (shell w _ (length (launched w))) as [e1|p]; simpl;
      [eexists _, _; now repeat split |].
    destruct (read_all (proc_stdout p)) as [e1|out]; simpl;
      [eexists _, _; now repeat split |].
    destruct (read_all (proc_stderr p)) as [e1|err]; simpl;
      [eexists _, _; now repeat split |].
    destruct (decode_strict out) as [e1|o]; simpl; [eexists _, _; now repeat split |].
    destruct (decode_strict err) as [e1|e']; simpl; eexists _, _; now repeat split.
  - rewrite (list_serial_ports_imported vid pid w r Hpy). eexists _, _. now repeat split.
Qed.

(** X15: with the log directory writable, [list_esp_serial_ports] returns
    the stdout and stderr of [list_serial_ports], called with the two ids as
    parsed, and leaves one report of exit code, stdout and stderr in the
    fixed log and in the snapshot named after the time; it does not change
    the working directory. *)
Theorem list_esp_serial_ports_logged
    (vid pid : option str) (vid_int pid_int : option Z) (w : World) :
  log_dir_ready LOG_DIR w ->
  outcome (parse_usb_id vid) w = inr vid_int ->
  outcome (parse_usb_id pid) w = inr pid_int ->
  let call := list_esp_serial_ports LOG_DIR vid pid in
  let w' := world_after call w in
  exists rc out err,
    outcome (list_serial_ports vid_int pid_int) w = inr (rc, out, err) /\
    outcome call w = inr (out, err) /\
    let report := "Port listing - Return code: " +:+ str_of_int rc +:+ nl +:+
                  "STDOUT:" +:+ nl +:+ out +:+ nl +:+ "STDERR:" +:+ nl +:+ err in
    file_content w' (os_path_join LOG_DIR "mcp-ports.log") = report /\
    file_content w'
      (os_path_join LOG_DIR
         ("mcp-ports" +:+ "-" +:+ strftime_stamp (localtime w' (clock w')) +:+ ".log")) =
      report /\
    cwd w' = cwd w.
Proof.
  intros Hready Hvid Hpid. cbv zeta. unfold outcome, world_after in *.
  assert (Habs : is_abs LOG_DIR = true) by now destruct Hready.
  assert (Hend : ends_with_slash LOG_DIR = false) by now destruct Hready as (_ & ? & _).
  destruct (list_serial_ports_returns vid_int pid_int w)
    as ([[rc out] err] & w1 & Hlist & Hfiles1 & Hdirs1 & Hdenied1 & Hcwd1).
  set (report := "Port listing - Return code: " +:+ str_of_int rc +:+ nl +:+
                 "STDOUT:" +:+ nl +:+ out +:+ nl +:+ "STDERR:" +:+ nl +:+ err).
  assert (Hrun : exists w4,
    list_esp_serial_ports LOG_DIR vid pid w = (inr (out, err), w4) /\
    files w4 =
      <[LOG_DIR +:+ "/" +:+
          ("mcp-ports" +:+ "-" +:+ strftime_stamp (localtime w4 (clock w4)) +:+ ".log")
          := report]> (<[LOG_DIR +:+ "/" +:+ "mcp-ports.log" := report]> (files w1)) /\
    cwd w4 = cwd w).
  { unfold list_esp_serial_ports.
    assert (Hv : parse_usb_id vid w = (inr vid_int, w)).
    { pose proof (parse_usb_id_world vid w) as Hw.
      destruct (parse_usb_id vid w) as [r w0]. cbn [fst snd] in *. now subst. }
    assert (Hp : parse_usb_id pid w = (inr pid_int, w)).
    { pose proof (parse_usb_id_world pid w) as Hw.
      destruct (parse_usb_id pid w) as [r w0]. cbn [fst snd] in *. now subst. }
    rewrite (bind_inr _ _ _ _ _ Hv), (bind_inr _ _ _ _ _ Hp), (bind_inr _ _ _ _ _ Hlist).
    cbn iota beta zeta. fold report.
    assert (Hready1 : log_dir_ready LOG_DIR w1).
    { apply (log_dir_ready_after LOG_DIR w); [exact Hready | exact Hdenied1 | |].
      - rewrite Hfiles1. now destruct Hready as (_ & _ & _ & Hfile & _).
      - intros x Hx. rewrite Hdirs1 in Hx. unfold with_log_dir. now apply elem_of_union_r. }
    destruct (logs_written LOG_DIR "mcp-ports.log" "mcp-ports" report (ret (out, err)) w1
                Hready1 eq_refl eq_refl)
      as (w4 & Hend4 & Hfiles & _ & Hcwd4 & Hclock4 & Hlocal4 & _).
    rewrite Hend4. exists w4. rewrite Hclock4, Hlocal4.
    split; [reflexivity |]. split; [exact Hfiles | now rewrite Hcwd4]. }
  destruct Hrun as (w4 & -> & Hfiles & Hcwd).
  rewrite Hlist. cbn [fst snd]. exists rc, out, err.
  split; [reflexivity |]. split; [reflexivity |]. fold report.
  rewrite !join_log_dir by (try assumption; try reflexivity; now apply timestamped_plain).
  unfold file_content. rewrite !(abspath_absolute _ _ (is_abs_app _ _ Habs)), Hfiles.
  split; [| split; [now rewrite lookup_insert_eq | exact Hcwd]].
  match goal with |- context [<[?k1 := _]> (<[?k2 := _]> _) !! _] =>
    destruct (decide (k1 = k2)) as [->|Hne] end.
  - now rewrite lookup_insert_eq.
  - rewrite lookup_insert_ne by exact Hne. now rewrite lookup_insert_eq.
Qed.

End PortLines.

Lemma port_listing_line_per_port_witness :
  exists out err,
    outcome (list_serial_ports (rt := ascii_runtime) None None)
            (bench (Importable (inr [slab; devkit_uart; console; devkit_cdc])) (silent 0)) =
      inr (0, out, err) /\
    lines_of out = map port_line (shown_ports None None [slab; devkit_uart; console; devkit_cdc]).
Proof.
  apply (port_listing_line_per_port (rt := ascii_runtime) None None
           [slab; devkit_uart; console; devkit_cdc]
           (bench (Importable (inr [slab; devkit_uart; console; devkit_cdc])) (silent 0)));
    [reflexivity | repeat constructor].
Defined.

Lemma list_esp_serial_ports_unparsable_id_witness :
  list_esp_serial_ports (rt := ascii_runtime) logs (Some "usb") None
      (workstation with_idf (chatty 0)) =
    list_esp_serial_ports (rt := ascii_runtime) logs None None
      (workstation with_idf (chatty 0)) /\
  list_esp_serial_ports (rt := ascii_runtime) logs None (Some "usb")
      (workstation with_idf (chatty 0)) =
    list_esp_serial_ports (rt := ascii_runtime) logs None None
      (workstation with_idf (chatty 0)).
Proof.
  exact (list_esp_serial_ports_unparsable_id (rt := ascii_runtime) logs "usb"
           (Raised ValueError "invalid literal for int() with base 10: 'usb'") None
           (workstation with_idf (chatty 0)) eq_refl eq_refl).
Defined.

Lemma list_esp_serial_ports_logged_witness :
  let w := bench (Importable (inr [slab; devkit_cdc])) (silent 0) in
  let call := list_esp_serial_ports (rt := ascii_runtime) logs (Some "12346") None in
  let w' := world_after call w in
  exists rc out err,
    outcome (list_serial_ports (rt := ascii_runtime) (Some 12346) None) w = inr (rc, out, err) /\
    outcome call w = inr (out, err) /\
    let report := "Port listing - Return code: " +:+ str_of_int rc +:+ nl +:+
                  "STDOUT:" +:+ nl +:+ out +:+ nl +:+ "STDERR:" +:+ nl +:+ err in
    file_content w' (os_path_join logs "mcp-ports.log") = report /\
    file_content w'
      (os_path_join logs
         ("mcp-ports" +:+ "-" +:+ strftime_stamp (localtime w' (clock w')) +:+ ".log")) =
      report /\
    cwd w' = cwd w.
Proof.
  apply (list_esp_serial_ports_logged (rt := ascii_runtime) logs (Some "12346") None
           (Some 12346) None (bench (Importable (inr [slab; devkit_cdc])) (silent 0)));
    [apply (workstation_log_dir_ready with_idf (silent 0)) | reflexivity | reflexivity].
Defined.

Lemma timestamped_name_witness :
  _timestamped "mcp-flash" (workstation with_idf (chatty 0)) =
    (inr "mcp-flash-20261104-090507.log", workstation with_idf (chatty 0)).
Proof.
  apply (timestamped_name "mcp-flash" (workstation with_idf (chatty 0))); reflexivity.
Defined.

(** ** The default log directory *)

Lemma ends_with_slash_app (a b : str) :
  b <> "" -> ends_with_slash (a +:+ b) = ends_with_slash b.
Proof.
  intros Hb. unfold ends_with_slash. rewrite rev_app_distr.
  destruct (String.rev b) as [|c r] eqn:Hrev; [| reflexivity].
  apply (f_equal String.length) in Hrev. rewrite length_rev in Hrev.
  destruct b; [contradiction | discriminate].
Qed.

(** X16: with [ESP_MCP_LOG_DIR] unset, the log directory is
    [.ai/logs/esp_mcp] under the working directory the server was started
    in, as an absolute path without a slash at its end; the tools that move
    into a project directory therefore keep writing to the same place. *)
Theorem default_log_dir (w : World) :
  environ w !! "ESP_MCP_LOG_DIR" = None -> is_abs (cwd w) = true ->
  is_abs (initial_LOG_DIR w) = true /\
  ends_with_slash (initial_LOG_DIR w) = false /\
  (ends_with_slash (cwd w) = false -> initial_LOG_DIR w = cwd w +:+ "/.ai/logs/esp_mcp") /\
  forall (elsewhere : str), abspath (set_cwd elsewhere w) (initial_LOG_DIR w) = initial_LOG_DIR w.
Proof.
  intros Henv Habs. unfold initial_LOG_DIR. rewrite Henv. cbn [from_option id].
  assert (Hfirst : is_abs (os_path_join (cwd w) ".ai") = true /\
                   ends_with_slash (os_path_join (cwd w) ".ai") = false /\
                   (ends_with_slash (cwd w) = false ->
                    os_path_join (cwd w) ".ai" = cwd w +:+ "/" +:+ ".ai")).
  { destruct (ends_with_slash (cwd w)) eqn:Hslash.
    - unfold os_path_join. change (is_abs ".ai") with false. cbn iota.
      rewrite Hslash, orb_true_r.
      split; [now apply is_abs_app |]. split; [| discriminate].
      now rewrite ends_with_slash_app.
    - rewrite (join_log_dir _ ".ai" Habs Hslash eq_refl).
      split; [now apply is_abs_app |]. split; [| reflexivity].
      now rewrite !ends_with_slash_app.
  }
  destruct Hfirst as (Habs1 & Hend1 & Hname1).
  rewrite (join_log_dir _ "logs" Habs1 Hend1 eq_refl).
  assert (Habs2 : is_abs (os_path_join (cwd w) ".ai" +:+ "/" +:+ "logs") = true)
    by now apply is_abs_app.
  assert (Hend2 : ends_with_slash (os_path_join (cwd w) ".ai" +:+ "/" +:+ "logs") = false)
    by now rewrite !ends_with_slash_app.
  rewrite (join_log_dir _ "esp_mcp" Habs2 Hend2 eq_refl).
  assert (Habs3 : is_abs ((os_path_join (cwd w) ".ai" +:+ "/" +:+ "logs") +:+
                          "/" +:+ "esp_mcp") = true) by now apply is_abs_app.
  split; [exact Habs3 |]. split; [now rewrite !ends_with_slash_app |].
  split.
  - intros Hslash. rewrite (Hname1 Hslash). now rewrite !app_assoc_str.
  - intros elsewhere. now apply abspath_absolute.
Qed.

Lemma default_log_dir_witness :
  is_abs (initial_LOG_DIR (workstation with_idf (chatty 0))) = true /\
  ends_with_slash (initial_LOG_DIR (workstation with_idf (chatty 0))) = false /\
  (ends_with_slash (cwd (workstation with_idf (chatty 0))) = false ->
   initial_LOG_DIR (workstation with_idf (chatty 0)) =
     cwd (workstation with_idf (chatty 0)) +:+ "/.ai/logs/esp_mcp") /\
  forall (elsewhere : str),
    abspath (set_cwd elsewhere (workstation with_idf (chatty 0)))
            (initial_LOG_DIR (workstation with_idf (chatty 0))) =
      initial_LOG_DIR (workstation with_idf (chatty 0)).
Proof.
  exact (default_log_dir (workstation with_idf (chatty 0)) eq_refl eq_refl).
Defined.
